(** * Text reconciliation with user weights

    A shallow embedding of [lib/column_types/userWeightedText.py] (the
    "text" column type of label_reconciliations) and of the part of
    [reconcile.py] that prepares [args.user_weights], followed by the
    properties of the text strategy.

    Conventions of the embedding.
    - A Python [str] is a [string]; a character is a code point below 256
      (ASCII and Latin-1).  The character classes used by [str.split],
      [str.splitlines], [str.strip], [re.sub(r'\W+', ...)] and [str.lower]
      are those of Python 3 on these code points.
    - A Python [int] is a [Z].
    - A [dict] is an association list in insertion order; assigning to an
      existing key keeps the position of the key.
    - An exception is a value of [exn]; a call that may raise returns a
      [result].
    - The pandas Series handed to [reconcile] is the list of its
      (user, entry) rows: the index left by [reset_index(level=0, drop=True)]
      is the user and the values are strings.
    - [fuzz.partial_ratio] and [fuzz.token_set_ratio] (fuzzywuzzy) are
      parameters of the development. *)

From Stdlib Require Import String Ascii List ZArith NArith Bool Lia DecimalString.
From Stdlib Require Import Permutation Sorted DecimalPos DecimalZ FinFun.
Import ListNotations.
Local Open Scope string_scope.
Local Open Scope Z_scope.

(** ** Exceptions *)

Inductive exn : Type :=
| AttributeError
| ValueError
| IndexError
| SystemExit.

Inductive result (A : Type) : Type :=
| Ok (a : A)
| Raise (e : exn).

Arguments Ok {A} a.
Arguments Raise {A} e.

Definition bind {A B : Type} (r : result A) (k : A -> result B) : result B :=
  match r with
  | Ok a => k a
  | Raise e => Raise e
  end.

Notation "x <- c ;; k" := (bind c (fun x => k))
  (at level 61, c at next level, right associativity).

Definition fmap {A B : Type} (f : A -> B) (r : result A) : result B :=
  x <- r ;; Ok (f x).

Fixpoint mapM {A B : Type} (f : A -> result B) (l : list A) : result (list B) :=
  match l with
  | [] => Ok []
  | x :: t => y <- f x ;; ys <- mapM f t ;; Ok (y :: ys)
  end.

(** ** Python strings *)

Module Py.

Definition ord (c : ascii) : N := N_of_ascii c.

Definition between (lo hi n : N) : bool := ((lo <=? n) && (n <=? hi))%N.

(** [str.isspace] on one character. *)
Definition isspace (c : ascii) : bool :=
  let n := ord c in
  between 9 13 n || between 28 32 n || (n =? 133)%N || (n =? 160)%N.

(** The line boundaries of [str.splitlines]. *)
Definition islinebreak (c : ascii) : bool :=
  let n := ord c in
  between 10 13 n || between 28 30 n || (n =? 133)%N.

(** [\w] of the [re] module on a [str] pattern: alphanumeric or underscore. *)
Definition isword (c : ascii) : bool :=
  let n := ord c in
  between 48 57 n || between 65 90 n || between 97 122 n || (n =? 95)%N
  || (n =? 170)%N || (n =? 178)%N || (n =? 179)%N || (n =? 181)%N
  || (n =? 185)%N || (n =? 186)%N || between 188 190 n
  || between 192 214 n || between 216 246 n || between 248 255 n.

(** [str.lower] on one character. *)
Definition lower_char (c : ascii) : ascii :=
  let n := ord c in
  if between 65 90 n || between 192 214 n || between 216 222 n
  then ascii_of_N (n + 32)
  else c.

Fixpoint lower (s : string) : string :=
  match s with
  | EmptyString => EmptyString
  | String c r => String (lower_char c) (lower r)
  end.

(** [len(s)] *)
Definition len (s : string) : Z := Z.of_nat (String.length s).

Definition is_empty (s : string) : bool :=
  match s with
  | EmptyString => true
  | String _ _ => false
  end.

(** [s.split()]: the maximal runs of characters that are not whitespace.
    [cur] is the run being read. *)
Fixpoint split_ws_from (cur s : string) : list string :=
  match s with
  | EmptyString => if is_empty cur then [] else [cur]
  | String c r =>
      if isspace c
      then (if is_empty cur then split_ws_from "" r
            else cur :: split_ws_from "" r)
      else split_ws_from (cur ++ String c "") r
  end.

Definition split_ws (s : string) : list string := split_ws_from "" s.

(** [s.split(sep)] for a separator of one character. *)
Fixpoint split_on_from (sep : ascii) (cur s : string) : list string :=
  match s with
  | EmptyString => [cur]
  | String c r =>
      if Ascii.eqb c sep
      then cur :: split_on_from sep "" r
      else split_on_from sep (cur ++ String c "") r
  end.

Definition split_on (sep : ascii) (s : string) : list string :=
  split_on_from sep "" s.

(** [s.splitlines()]: a line ends at a line boundary, "\r\n" counts as one
    boundary, and a last line that is empty is not returned. *)
Fixpoint splitlines_from (cur s : string) : list string :=
  match s with
  | EmptyString => if is_empty cur then [] else [cur]
  | String c r =>
      if Ascii.eqb c "013"
      then match r with
           | String c' r' =>
               if Ascii.eqb c' "010"
               then cur :: splitlines_from "" r'
               else cur :: splitlines_from "" r
           | EmptyString => [cur]
           end
      else if islinebreak c
      then cur :: splitlines_from "" r
      else splitlines_from (cur ++ String c "") r
  end.

Definition splitlines (s : string) : list string := splitlines_from "" s.

(** [sep.join(l)] *)
Definition join (sep : string) (l : list string) : string :=
  String.concat sep l.

Fixpoint lstrip (s : string) : string :=
  match s with
  | EmptyString => EmptyString
  | String c r => if isspace c then lstrip r else s
  end.

Fixpoint rstrip (s : string) : string :=
  match s with
  | EmptyString => EmptyString
  | String c r =>
      let r' := rstrip r in
      if isspace c && is_empty r' then EmptyString else String c r'
  end.

(** [s.strip()] *)
Definition strip (s : string) : string := rstrip (lstrip s).

(** [re.sub(r'\W+', '', s)]: every run of non-word characters is removed,
    so exactly the word characters remain. *)
Fixpoint sub_nonword (s : string) : string :=
  match s with
  | EmptyString => EmptyString
  | String c r => if isword c then String c (sub_nonword r) else sub_nonword r
  end.

(** ['{}'.format(n)] for an [int]. *)
Definition str_of_int (n : Z) : string := NilZero.string_of_int (Z.to_int n).

Definition isdigit (c : ascii) : bool := between 48 57 (ord c).

Definition digit_val (c : ascii) : Z := Z.of_N (ord c) - 48.

(** The digits of an integer literal: decimal digits, a single underscore
    allowed between two digits.  [acc] is the value read so far and
    [after_digit] tells whether the previous character was a digit. *)
Fixpoint int_digits (acc : Z) (after_digit : bool) (s : string) : option Z :=
  match s with
  | EmptyString => if after_digit then Some acc else None
  | String c r =>
      if isdigit c then int_digits (10 * acc + digit_val c) true r
      else if Ascii.eqb c "_" && after_digit
      then match r with
           | EmptyString => None
           | String c' _ => if isdigit c' then int_digits acc false r else None
           end
      else None
  end.

(** The white space that [int()] skips around a literal: that of
    [str.isspace] without the separators U+001C to U+001F, which [int()]
    refuses. *)
Definition is_int_space (c : ascii) : bool :=
  isspace c && negb (between 28 31 (ord c)).

Fixpoint int_lstrip (s : string) : string :=
  match s with
  | EmptyString => EmptyString
  | String c r => if is_int_space c then int_lstrip r else s
  end.

Fixpoint int_rstrip (s : string) : string :=
  match s with
  | EmptyString => EmptyString
  | String c r =>
      let r' := int_rstrip r in
      if is_int_space c && is_empty r' then EmptyString else String c r'
  end.

Definition int_strip (s : string) : string := int_rstrip (int_lstrip s).

(** [int(s)]: surrounding white space is ignored, one sign is allowed.  The
    limit that recent interpreters put on the number of digits is not
    modelled: an [int] is unbounded. *)
Definition int (s : string) : result Z :=
  let body := int_strip s in
  let parsed :=
    match body with
    | String "-" r => option_map Z.opp (int_digits 0 false r)
    | String "+" r => int_digits 0 false r
    | _ => int_digits 0 false body
    end in
  match parsed with
  | Some n => Ok n
  | None => Raise ValueError
  end.

End Py.

(** ** Dictionaries, sorting and pairs *)

Definition dict (V : Type) : Type := list (string * V).

(** [d.get(k)] *)
Fixpoint dict_get {V : Type} (d : dict V) (k : string) : option V :=
  match d with
  | [] => None
  | (k', v) :: t => if String.eqb k' k then Some v else dict_get t k
  end.

(** [d[k] = v]: an existing key keeps its place, a new key goes last. *)
Fixpoint dict_set {V : Type} (d : dict V) (k : string) (v : V) : dict V :=
  match d with
  | [] => [(k, v)]
  | (k', v') :: t =>
      if String.eqb k' k then (k', v) :: t else (k', v') :: dict_set t k v
  end.

(** [dict(items)] *)
Definition dict_of_items {V : Type} (items : list (string * V)) : dict V :=
  fold_left (fun d kv => dict_set d (fst kv) (snd kv)) items [].

(** [sorted(l, key=..., reverse=True)], with [lt x y] standing for
    [key(x) < key(y)]: descending keys, and elements with equal keys stay in
    their original order. *)
Fixpoint insert_rev {A : Type} (lt : A -> A -> bool) (x : A) (l : list A) : list A :=
  match l with
  | [] => [x]
  | y :: t => if lt x y then y :: insert_rev lt x t else x :: l
  end.

Definition sorted_rev {A : Type} (lt : A -> A -> bool) (l : list A) : list A :=
  fold_right (insert_rev lt) [] l.

(** [l[0]] *)
Definition first {A : Type} (l : list A) : result A :=
  match l with
  | x :: _ => Ok x
  | [] => Raise IndexError
  end.

(** [combinations(l, 2)] *)
Fixpoint combinations2 {A : Type} (l : list A) : list (A * A) :=
  match l with
  | [] => []
  | x :: t => map (pair x) t ++ combinations2 t
  end.

Definition sumZ (l : list Z) : Z := fold_right Z.add 0 l.

(** ** The score records *)

Module ExactScore.
Record t : Type := mk { value : string; count : Z }.
End ExactScore.

Module FuzzyRatioScore.
Record t : Type := mk { score : Z; value : string }.
End FuzzyRatioScore.

Module FuzzySetScore.
Record t : Type := mk { score : Z; value : string; tokens : Z }.
End FuzzySetScore.

(** ** The pluralizer

    [P = E.plural] of the inflect engine [E], after [E.defnoun('The', 'All')],
    on the four words the module passes to it: a count of 1 keeps the word,
    any other count gives the plural. *)

Definition plural_form (word : string) : string :=
  if String.eqb word "The" then "All"
  else if String.eqb word "is" then "are"
  else word ++ "s".

Definition P (word : string) (count : Z) : string :=
  if count =? 1 then word else plural_form word.

(** ** Configuration *)

(** The value of [args.user_weights]: the string given on the command line,
    or the dictionary that [parse_command_line] puts in its place. *)
Inductive weights_value : Type :=
| WStr (s : string)
| WDict (d : dict Z).

Record Args : Type := mkArgs {
  user_weights : weights_value;
  fuzzy_ratio_threshold : Z;
  fuzzy_set_threshold : Z
}.

(** One element of [[(i.split(':')) for i in ...]] unpacked into
    [key, value], with [int(value)]. *)
Definition weight_item (i : string) : result (string * Z) :=
  match Py.split_on ":" i with
  | [key; value] => n <- Py.int value ;; Ok (key, n)
  | _ => Raise ValueError
  end.

Definition lower_key (kv : string * Z) : string * Z := (Py.lower (fst kv), snd kv).

(** [parse_command_line] of reconcile.py from the point where
    [args = parser.parse_args()] has returned (lines 142 to 158), on the
    three options the text strategy reads: the string of [--user-weights]
    and the two thresholds, which argparse has converted with [type=int].
    What argparse does before that point, its own exits included (a command
    line it refuses, [-h], [-V]), is no part of this function.
    [sys.exit(1)] raises [SystemExit]. *)
Definition parse_command_line (weights : string) (ratio set : Z) : result Args :=
  w <- (if negb (Py.is_empty weights)
        then items <- mapM weight_item (Py.split_on "," weights) ;;
             Ok (WDict (dict_of_items (map lower_key items)))
        else Ok (WDict [])) ;;
  if (ratio <? 0) || (ratio >? 100) then Raise SystemExit
  else if (set <? 0) || (set >? 100) then Raise SystemExit
  else Ok (mkArgs w ratio set).

Definition default_args : Args := mkArgs (WDict []) 90 50.

(** ** The text strategy *)

(** The pandas Series of one group: its rows (user, entry) in order. *)
Definition Series : Type := list (string * string).

(** [series.apply(f)] *)
Definition apply (f : string -> string) (s : Series) : Series :=
  map (fun row => (fst row, f (snd row))) s.

(** [series.to_dict()] *)
Definition to_dict (s : Series) : dict string := dict_of_items s.

(** [{i[1]: i[0] for i in d.items()}] *)
Definition invert (d : dict string) : dict string :=
  fold_left (fun acc i => dict_set acc (snd i) (fst i)) d [].

Definition nl : string := String "010" "".

(** ['\n'.join([' '.join(ln.split()) for ln in str(line).splitlines()])] *)
Definition convLine (line : string) : string :=
  Py.join nl (map (fun ln => Py.join " " (Py.split_ws ln)) (Py.splitlines line)).

(** The body of the first loop of [only_filled_values]. *)
Definition add_filled (all_filled : dict (list string)) (value : string)
  : dict (list string) :=
  let value := Py.strip value in
  if negb (Py.is_empty value)
  then
    let squished := Py.lower (Py.sub_nonword value) in
    let same_values :=
      match dict_get all_filled squished with
      | Some vals => vals
      | None => []
      end in
    dict_set all_filled squished (same_values ++ [value])%list
  else all_filled.

Definition len_lt (a b : string) : bool := Py.len a <? Py.len b.

(** The body of the second loop of [only_filled_values]. *)
Definition exact_score (item : string * list string) : result ExactScore.t :=
  longest <- first (sorted_rev len_lt (snd item)) ;;
  Ok (ExactScore.mk longest (Z.of_nat (length (snd item)))).

Definition count_lt (a b : ExactScore.t) : bool :=
  ExactScore.count a <? ExactScore.count b.

Definition only_filled_values (values : list string) : result (list ExactScore.t) :=
  let all_filled := fold_left add_filled values [] in
  only_filled <- mapM exact_score all_filled ;;
  Ok (sorted_rev count_lt only_filled).

(** [trustedUserWeights] as [reconcile] builds it: [str.split] exists on a
    string only. *)
Definition trusted_user_weights (args : Args) : result (dict Z) :=
  match user_weights args with
  | WStr s =>
      if negb (Py.is_empty s)
      then items <- mapM weight_item (Py.split_on "," s) ;;
           Ok (dict_of_items items)
      else Ok []
  | WDict [] => Ok []
  | WDict (_ :: _) => Raise AttributeError
  end.

(** Order of the tuples [(s.score, len(s.value))]. *)
Definition ratio_lt (a b : FuzzyRatioScore.t) : bool :=
  (FuzzyRatioScore.score a <? FuzzyRatioScore.score b)
  || ((FuzzyRatioScore.score a =? FuzzyRatioScore.score b)
      && (Py.len (FuzzyRatioScore.value a) <? Py.len (FuzzyRatioScore.value b))).

(** Order of the tuples [(s.score, s.tokens, 1000000 - len(s.value))]. *)
Definition set_lt (a b : FuzzySetScore.t) : bool :=
  (FuzzySetScore.score a <? FuzzySetScore.score b)
  || ((FuzzySetScore.score a =? FuzzySetScore.score b)
      && ((FuzzySetScore.tokens a <? FuzzySetScore.tokens b)
          || ((FuzzySetScore.tokens a =? FuzzySetScore.tokens b)
              && (1000000 - Py.len (FuzzySetScore.value a)
                  <? 1000000 - Py.len (FuzzySetScore.value b))))).

(** [trustedUserWeights.get(userName, 0)], where [userName] is the result of
    [userAttribution.get(value)] and may be [None]. *)
Definition weight_of (trustedUserWeights : dict Z) (userName : option string) : Z :=
  match userName with
  | Some u =>
      match dict_get trustedUserWeights u with
      | Some x => x
      | None => 0
      end
  | None => 0
  end.

(** The list of pairs each fuzzy step scores: [combinations(values, 2)] in
    [top_partial_ratio], where [values = group.apply(convLine)], and in
    [top_token_set_ratio]. *)
Definition ratio_combos (group : Series) : list (string * string) :=
  combinations2 (map snd (apply convLine group)).

Definition set_combos (values : list string) : list (string * string) :=
  combinations2 values.

Section Strategy.

(** [fuzz.partial_ratio] and [fuzz.token_set_ratio]. *)
Variable partial_ratio : string -> string -> Z.
Variable token_set_ratio : string -> string -> Z.

(** The body of the loop of [top_partial_ratio]. *)
Definition ratio_score (trustedUserWeights : dict Z) (userAttribution : dict string)
    (combo : string * string) : FuzzyRatioScore.t :=
  let score := partial_ratio (fst combo) (snd combo) in
  let value :=
    if Py.len (fst combo) >=? Py.len (snd combo) then fst combo else snd combo in
  let userName := dict_get userAttribution value in
  let scoreWeight := weight_of trustedUserWeights userName in
  let score := score + scoreWeight in
  let score := if score >? 100 then 100 else score in
  FuzzyRatioScore.mk score value.

Definition ratio_scores (group : Series) (trustedUserWeights : dict Z)
  : list FuzzyRatioScore.t :=
  let values := apply convLine group in
  let userAttribution := invert (to_dict values) in
  map (ratio_score trustedUserWeights userAttribution) (ratio_combos group).

Definition top_partial_ratio (group : Series) (trustedUserWeights : dict Z)
  : result FuzzyRatioScore.t :=
  first (sorted_rev ratio_lt (ratio_scores group trustedUserWeights)).

(** The body of the loop of [top_token_set_ratio]. *)
Definition set_score (combo : string * string) : FuzzySetScore.t :=
  let score := token_set_ratio (fst combo) (snd combo) in
  let tokens_0 := Z.of_nat (length (Py.split_ws (fst combo))) in
  let tokens_1 := Z.of_nat (length (Py.split_ws (snd combo))) in
  if tokens_0 >? tokens_1 then FuzzySetScore.mk score (fst combo) tokens_0
  else if tokens_0 <? tokens_1 then FuzzySetScore.mk score (snd combo) tokens_1
  else
    FuzzySetScore.mk score
      (if Py.len (fst combo) <=? Py.len (snd combo) then fst combo else snd combo)
      tokens_0.

Definition set_scores (values : list string) : list FuzzySetScore.t :=
  map set_score (set_combos values).

Definition top_token_set_ratio (values : list string) : result FuzzySetScore.t :=
  first (sorted_rev set_lt (set_scores values)).

Definition str := Py.str_of_int.

Definition reason_blank (count : Z) : string :=
  P "The" count ++ " " ++ str count ++ " " ++ P "record" count ++ " "
  ++ P "is" count ++ " blank".

Definition reason_unanimous (top count : Z) : string :=
  "Normalized unanimous match, " ++ str top ++ " of " ++ str count ++ " "
  ++ P "record" count.

Definition reason_majority (top count blanks : Z) : string :=
  "Normalized majority match, " ++ str top ++ " of " ++ str count ++ " "
  ++ P "record" count ++ " with " ++ str blanks ++ " " ++ P "blank" blanks.

Definition reason_only (count : Z) : string :=
  "Only 1 transcript in " ++ str count ++ " " ++ P "record" count.

Definition reason_partial (count blanks score : Z) : string :=
  "Partial ratio match on " ++ str count ++ " " ++ P "record" count ++ " with "
  ++ str blanks ++ " " ++ P "blank" blanks ++ ", score=" ++ str score.

Definition reason_token_set (count blanks score : Z) : string :=
  "Token set ratio match on " ++ str count ++ " " ++ P "record" count ++ " with "
  ++ str blanks ++ " " ++ P "blank" blanks ++ ", score=" ++ str score.

Definition reason_no_match (count blanks : Z) : string :=
  "No text match on " ++ str count ++ " " ++ P "record" count ++ " with "
  ++ str blanks ++ " " ++ P "blank" blanks.

(** Steps 7 to 9 of [reconcile]: the code after the comment
    "Check for simple in-place fuzzy matches". *)
Definition fuzzy_matches (group : Series) (args : Args) (trustedUserWeights : dict Z)
    (values : list string) (count blanks : Z) : result (string * string) :=
  top <- top_partial_ratio group trustedUserWeights ;;
  if FuzzyRatioScore.score top >=? fuzzy_ratio_threshold args
  then Ok (reason_partial count blanks (FuzzyRatioScore.score top),
           FuzzyRatioScore.value top)
  else
    top <- top_token_set_ratio values ;;
    if FuzzySetScore.score top >=? fuzzy_set_threshold args
    then Ok (reason_token_set count blanks (FuzzySetScore.score top),
             FuzzySetScore.value top)
    else Ok (reason_no_match count blanks, "").

Definition reconcile (group : Series) (args : Args) : result (string * string) :=
  trustedUserWeights <- trusted_user_weights args ;;
  let values := map convLine (map snd group) in
  filled <- only_filled_values values ;;
  let count := Z.of_nat (length values) in
  let blanks := count - sumZ (map ExactScore.count filled) in
  match filled with
  | [] => Ok (reason_blank count, "")
  | filled_0 :: _ =>
      if (ExactScore.count filled_0 >? 1) && (ExactScore.count filled_0 =? count)
      then Ok (reason_unanimous (ExactScore.count filled_0) count,
               ExactScore.value filled_0)
      else if ExactScore.count filled_0 >? 1
      then Ok (reason_majority (ExactScore.count filled_0) count blanks,
               ExactScore.value filled_0)
      else if Nat.eqb (length filled) 1
      then Ok (reason_only count, ExactScore.value filled_0)
      else fuzzy_matches group args trustedUserWeights values count blanks
  end.

End Strategy.

(** The entries of a group as [reconcile] normalizes them. *)
Definition values_of (group : Series) : list string :=
  map convLine (map snd group).

(** The test [if value:] of [only_filled_values] after [value.strip()]. *)
Definition is_filled (value : string) : bool := negb (Py.is_empty (Py.strip value)).

(** The three guards before the fuzzy steps all fail. *)
Definition reaches_fuzzy (filled : list ExactScore.t) (count : Z) : bool :=
  match filled with
  | [] => false
  | filled_0 :: _ =>
      negb ((ExactScore.count filled_0 >? 1) && (ExactScore.count filled_0 =? count))
      && negb (ExactScore.count filled_0 >? 1)
      && negb (Nat.eqb (length filled) 1)
  end.

(** A scorer that gives every pair the same score, for concrete runs. *)
Definition const_ratio (n : Z) (_ _ : string) : Z := n.

(** ** Vocabulary of the properties *)

(** Every key-group of [all_filled] has a member. *)
Definition nonempty_vals (item : string * list string) : Prop := snd item <> nil.

(** [s] ranks no better than [t] under (score descending, token count
    descending, character length ascending). *)
Definition ranks_below (s t : FuzzySetScore.t) : Prop :=
  FuzzySetScore.score s < FuzzySetScore.score t
  \/ (FuzzySetScore.score s = FuzzySetScore.score t
      /\ (FuzzySetScore.tokens s < FuzzySetScore.tokens t
          \/ (FuzzySetScore.tokens s = FuzzySetScore.tokens t
              /\ Py.len (FuzzySetScore.value t) <= Py.len (FuzzySetScore.value s)))).

(** [(i[1], i[0])]: an item with its key and value exchanged. *)
Definition flip_item (i : string * string) : string * string := (snd i, fst i).

(** A group in which every user of [users] entered the same [v]. *)
Definition copies (users : list string) (v : string) : Series :=
  map (fun u => (u, v)) users.

(** An explanation without its decimal digits: explanations that differ
    only in the counts they display have the same image. *)
Fixpoint drop_digits (s : string) : string :=
  match s with
  | EmptyString => EmptyString
  | String c r => if Py.isdigit c then drop_digits r else String c (drop_digits r)
  end.

(** The groups of the examples. *)
Definition ohio : Series := [("u1", "Ohio"); ("u2", "Ohio"); ("u3", "ohio.")].

Definition new_york : Series :=
  [("u1", "New York"); ("u2", "New York City"); ("u3", "")].

Definition two_cities : Series := [("aSmith", "New York City"); ("bob", "New York")].

(** The comparison key of a stripped entry:
    [re.sub(r'\W+', '', value).lower()]. *)
Definition squish (value : string) : string := Py.lower (Py.sub_nonword value).

(** The entries that pass [if value:] in [only_filled_values], stripped, in
    the order of the group. *)
Definition filled_entries (values : list string) : list string :=
  filter (fun v => negb (Py.is_empty v)) (map Py.strip values).

(** The filled entries with comparison key [k], in the order of the group. *)
Definition key_group (k : string) (values : list string) : list string :=
  filter (fun v => String.eqb (squish v) k) (filled_entries values).

(** The key-group of [k] when it has a member. *)
Definition group_of (k : string) (values : list string) : option (list string) :=
  match key_group k values with
  | nil => None
  | vals => Some vals
  end.

(** [s] ranks no better than [t] under (score descending, length of the
    candidate descending). *)
Definition ratio_ranks_below (s t : FuzzyRatioScore.t) : Prop :=
  FuzzyRatioScore.score s < FuzzyRatioScore.score t
  \/ (FuzzyRatioScore.score s = FuzzyRatioScore.score t
      /\ Py.len (FuzzyRatioScore.value s) <= Py.len (FuzzyRatioScore.value t)).

(** The user of the last row of a group whose normalized entry is [text]. *)
Definition last_writer (text : string) (group : Series) : option string :=
  option_map fst
    (find (fun row => String.eqb (convLine (snd row)) text) (rev group)).

(** The normalized entry of the last row of user [u]. *)
Definition last_entry (u : string) (group : Series) : option string :=
  option_map (fun row => convLine (snd row))
    (find (fun row => String.eqb (fst row) u) (rev group)).

(** User [u'] has a row before the first row of user [u]. *)
Definition appears_before (u' u : string) (group : Series) : Prop :=
  exists pre post,
    map fst group = (pre ++ u :: post)%list /\ ~ In u pre /\ In u' pre.

(** The user, if any, that a text is attributed to: a user whose last entry
    is the text, and among these users the one whose first row comes
    latest. *)
Definition attributed (group : Series) (text : string) (userName : option string)
  : Prop :=
  match userName with
  | Some u =>
      last_entry u group = Some text
      /\ forall u', last_entry u' group = Some text ->
           u' = u \/ appears_before u' u group
  | None => forall u, last_entry u group <> Some text
  end.

(** A group in which one user has two rows, and one that reaches the fuzzy
    steps with two blank entries. *)
Definition alice_twice : Series :=
  [("alice", "abc def"); ("alice", "xyz"); ("carol", "q")].

Definition two_blanks : Series :=
  [("u1", "New York"); ("u2", "Boston"); ("u3", ""); ("u4", "")].

(** What [only_filled_values] makes of the key-group of [k]: its first
    longest member and its size. *)
Definition represents (values : list string) (k : string) (s : ExactScore.t) : Prop :=
  ExactScore.count s = Z.of_nat (length (key_group k values))
  /\ exists pre post,
       key_group k values = (pre ++ ExactScore.value s :: post)%list
       /\ (forall v, In v pre -> Py.len v < Py.len (ExactScore.value s))
       /\ (forall v, In v (key_group k values) ->
             Py.len v <= Py.len (ExactScore.value s)).

(** The number of members of all the key-groups of [all_filled]. *)
Definition total_members (d : dict (list string)) : Z :=
  sumZ (map (fun item => Z.of_nat (length (snd item))) d).

(** [c in s] for a character [c]. *)
Fixpoint has_char (c : ascii) (s : string) : bool :=
  match s with
  | EmptyString => false
  | String d r => Ascii.eqb d c || has_char c r
  end.

(** ** Regular expressions (summary.py)

    A pattern is the function from a string to the rests left by every way
    the pattern matches at the start of the string, the first choice of the
    backtracking matcher first. *)

Module Re.

Definition pattern : Type := string -> list string.

Fixpoint rest_after (p s : string) : option string :=
  match p with
  | EmptyString => Some s
  | String c p' =>
      match s with
      | String d s' => if Ascii.eqb c d then rest_after p' s' else None
      | EmptyString => None
      end
  end.

(** A literal. *)
Definition lit (p : string) : pattern :=
  fun s => match rest_after p s with Some r => [r] | None => [] end.

(** [a|b] *)
Definition alt (a b : pattern) : pattern := fun s => (a s ++ b s)%list.

(** [ab] *)
Definition seq (a b : pattern) : pattern := fun s => flat_map b (a s).

(** [a?] *)
Definition opt (a : pattern) : pattern := fun s => (a s ++ [s])%list.

(** [\d+] *)
Fixpoint digits (s : string) : list string :=
  match s with
  | String c r => if Py.isdigit c then (digits r ++ [r])%list else []
  | EmptyString => []
  end.

(** [re.search(pattern, value)] for a pattern whose alternatives all start
    with [^] (no flag is given, so [^] is the start of the string), as a
    truth value; [Series.str.contains(pattern)] on one value. *)
Definition search (p : pattern) (value : string) : bool :=
  match p value with
  | [] => false
  | _ :: _ => true
  end.

End Re.

Definition NO_MATCH_PATTERN : Re.pattern :=
  Re.alt
    (Re.seq (Re.lit "No ")
       (Re.seq (Re.alt (Re.lit "select") (Re.lit "text")) (Re.lit " match on")))
    (Re.seq (Re.lit "There ")
       (Re.seq (Re.alt (Re.lit "was") (Re.lit "were"))
          (Re.seq (Re.lit " no number") (Re.seq (Re.opt (Re.lit "s")) (Re.lit " in"))))).

Definition EXACT_MATCH_PATTERN : Re.pattern :=
  Re.seq (Re.alt (Re.lit "Exact") (Re.lit "Normalized exact")) (Re.lit " match").

Definition FUZZ_MATCH_PATTERN : Re.pattern :=
  Re.seq (Re.alt (Re.lit "Partial") (Re.lit "Token set")) (Re.lit " ratio match").

Definition ALL_BLANK_PATTERN : Re.pattern :=
  Re.seq (Re.alt (Re.lit "All") (Re.lit "The"))
    (Re.seq (Re.lit " ") (Re.seq Re.digits (Re.lit " record"))).

Definition ONESIES_PATTERN : Re.pattern := Re.lit "Only 1 transcript in".

Definition MMM_PATTERN : Re.pattern :=
  Re.seq (Re.lit "There ")
    (Re.seq (Re.alt (Re.lit "was") (Re.lit "were"))
       (Re.seq (Re.lit " ")
          (Re.seq Re.digits
             (Re.seq (Re.lit " number") (Re.seq (Re.opt (Re.lit "s")) (Re.lit " in")))))).

(** ['|'.join([NO_MATCH_PATTERN, ONESIES_PATTERN])] in [problems]. *)
Definition problem_pattern : Re.pattern := Re.alt NO_MATCH_PATTERN ONESIES_PATTERN.

(** ['problem-{}'.format(i)] *)
Definition problem_id (i : Z) : string := "problem-" ++ Py.str_of_int i.

(** [enumerate(l, start)] *)
Fixpoint enumerate {A : Type} (l : list A) (start : Z) : list (Z * A) :=
  match l with
  | [] => []
  | x :: t => (start, x) :: enumerate t (start + 1)
  end.

(** The inner loop of [problems] on one row [cols] of the explanations,
    given as its (column, value) items: the dictionary [probs[group_by]]. *)
Definition row_problems (cols : list (string * string)) : dict string :=
  fold_left
    (fun probs item =>
       if Re.search problem_pattern (snd (snd item))
       then dict_set probs (fst (snd item)) (problem_id (fst item))
       else probs)
    (enumerate cols 1) [].

(** A value of [column_types]: [{'type': ..., 'order': ..., 'name': ...}]. *)
Module ColumnType.
Record t : Type := mk { type : string; order : Z; name : string }.
End ColumnType.

(** [sorted(l, key=...)], with [lt x y] standing for [key(x) < key(y)]:
    ascending keys, and elements with equal keys stay in their original
    order. *)
Definition sorted_asc {A : Type} (lt : A -> A -> bool) (l : list A) : list A :=
  sorted_rev (fun x y => lt y x) l.

Definition order_lt (a b : ColumnType.t) : bool :=
  ColumnType.order a <? ColumnType.order b.

(** [x in l] for strings. *)
Definition mem (x : string) (l : list string) : bool :=
  existsb (String.eqb x) l.

(** [order_column_names(df, column_types)] of summary.py, with [df.columns]
    as the list [columns]. *)
Definition order_column_names (columns : list string) (column_types : dict ColumnType.t)
  : list string :=
  map ColumnType.name
    (filter (fun v => mem (ColumnType.name v) columns)
       (sorted_asc order_lt (map snd column_types))).

(** ['{:,}'.format(n)]: the digits of [rev_digits], last digit first, with a
    comma after every third digit that has a digit after it; [k] digits were
    written since the last comma. *)
Fixpoint commas (rev_digits : list ascii) (k : nat) : list ascii :=
  match rev_digits with
  | [] => []
  | c :: t =>
      match k with
      | 3%nat => ","%char :: c :: commas t 1
      | _ => c :: commas t (S k)
      end
  end.

Definition format_thousands (n : Z) : string :=
  let body (m : Z) :=
    string_of_list_ascii
      (rev (commas (rev (list_ascii_of_string (Py.str_of_int m))) 0)) in
  if n <? 0 then "-" ++ body (- n) else body n.

(** [explanations[explanations[col].str.contains(pattern)].shape[0]], with
    [explanations[col]] as the list [values]. *)
Definition count_contains (pattern : Re.pattern) (values : list string) : Z :=
  Z.of_nat (length (filter (Re.search pattern) values)).

(** The dictionary that [reconciled_summary] appends for one column. *)
Module HowReconciled.
Record t : Type := mk {
  name : string;
  col_type : string;
  num_no_match : Z;
  num_fuzzy_match : string;
  num_reconciled : Z;
  num_exact_match : Z;
  num_all_blank : Z;
  num_onesies : Z;
  num_mmm : string
}.
End HowReconciled.

(** The body of the loop of [reconciled_summary], with [explanations[col]] as
    the list [values] of the column, one value per row. *)
Definition how_reconciled (col col_type : string) (values : list string)
  : HowReconciled.t :=
  let num_fuzzy_match :=
    if String.eqb col_type "text"
    then format_thousands (count_contains FUZZ_MATCH_PATTERN values)
    else "" in
  let num_no_match := count_contains NO_MATCH_PATTERN values in
  let num_mmm :=
    if String.eqb col_type "mmm"
    then format_thousands (count_contains MMM_PATTERN values)
    else "" in
  HowReconciled.mk col col_type num_no_match num_fuzzy_match
    (Z.of_nat (length values) - num_no_match)
    (count_contains EXACT_MATCH_PATTERN values)
    (count_contains ALL_BLANK_PATTERN values)
    (count_contains ONESIES_PATTERN values)
    num_mmm.

(** [column_types.get(col, {'type': 'text'})['type']] *)
Definition col_type_of (column_types : dict ColumnType.t) (col : string) : string :=
  match dict_get column_types col with
  | Some v => ColumnType.type v
  | None => "text"
  end.

(** Which of the patterns of summary.py an explanation matches, in the
    order NO_MATCH, EXACT_MATCH, FUZZ_MATCH, ALL_BLANK, ONESIES, MMM. *)
Definition classify (e : string) : list bool :=
  [Re.search NO_MATCH_PATTERN e; Re.search EXACT_MATCH_PATTERN e;
   Re.search FUZZ_MATCH_PATTERN e; Re.search ALL_BLANK_PATTERN e;
   Re.search ONESIES_PATTERN e; Re.search MMM_PATTERN e].

Fixpoint all_digits (s : string) : bool :=
  match s with
  | EmptyString => true
  | String c r => Py.isdigit c && all_digits r
  end.

(** An explanation that the text strategy returns for some group. *)
Definition from_text_strategy (e : string) : Prop :=
  exists pr tsr group args v, reconcile pr tsr group args = Ok (e, v).

(** An explanation that none of the patterns of summary.py matches. *)
Definition unmatched (e : string) : bool := forallb negb (classify e).

(** ** The column types of the command line (reconcile.py) *)

Fixpoint foldM {A S : Type} (f : S -> A -> result S) (l : list A) (s : S) : result S :=
  match l with
  | [] => Ok s
  | x :: t => s' <- f s x ;; foldM f t s'
  end.

(** [name, col_type = option.split(':')] with both parts stripped. *)
Definition column_item (option : string) : result (string * string) :=
  match Py.split_on ":" option with
  | [name; col_type] => Ok (Py.strip name, Py.strip col_type)
  | _ => Raise ValueError
  end.

(** The body of the inner loop of [get_column_types]; the state is
    [column_types] and [last]. *)
Definition add_column_type (state : dict ColumnType.t * Z) (option : string)
  : result (dict ColumnType.t * Z) :=
  item <- column_item option ;;
  let name := fst item in
  let col_type := snd item in
  let column_types := fst state in
  let last := snd state in
  match dict_get column_types name with
  | Some v =>
      Ok (dict_set column_types name
            (ColumnType.mk col_type (ColumnType.order v) name), last)
  | None =>
      Ok (dict_set column_types name (ColumnType.mk col_type (last + 1) name),
          last + 1)
  end.

(** [get_column_types(args, column_types)], with [args.column_types] as the
    list of the [--column-types] options given ([None] is the empty list)
    and [last] the value of [util.last_column_type(column_types)]. *)
Definition get_column_types (arg_column_types : list string) (last : Z)
    (column_types : dict ColumnType.t) : result (dict ColumnType.t) :=
  state <- foldM add_column_type
             (flat_map (Py.split_on ",") arg_column_types) (column_types, last) ;;
  Ok (fst state).

(** [validate_columns(args, column_types, unreconciled, plugins)], with
    [unreconciled.columns] as [columns] and [plugins.keys()] as [types].
    What it prints is not modelled; [sys.exit(1)] raises [SystemExit]. *)
Definition validate_columns (group_by key_column : string)
    (column_types : dict ColumnType.t) (columns types : list string) : result unit :=
  let has_errors :=
    fold_left
      (fun has_errors item =>
         let has_errors :=
           if negb (mem (fst item) columns) then true else has_errors in
         if negb (mem (ColumnType.type (snd item)) types) then true else has_errors)
      column_types false in
  _ <- foldM
         (fun has_errors column =>
            let has_errors :=
              if negb (mem column columns) then true else has_errors in
            if has_errors then Raise SystemExit else Ok has_errors)
         [group_by; key_column] has_errors ;;
  Ok tt.

(** ** Task labels (formats/nfn.py) *)

(** The label tried in round [i] of the loop of [_key]: [base] first, then
    ['{} #{}'.format(base, i)]. *)
Definition candidate (base : string) (i : Z) : string :=
  if i =? 1 then base else base ++ " #" ++ Py.str_of_int i.

(** The loop [while label in tasks] of [_key], run for at most [fuel]
    rounds after the first test. *)
Fixpoint key_loop (fuel : nat) (tasks : list string) (base : string) (i : Z)
    (label : string) : option string :=
  if mem label tasks
  then match fuel with
       | O => None
       | S fuel' =>
           key_loop fuel' tasks base (i + 1)
             (base ++ " #" ++ Py.str_of_int (i + 1))
       end
  else Some label.

(** [_key(label)] inside [flatten_annotations], with the keys of [tasks] as
    a list; [re.sub(r'^\s+|\s+$', '', label)] strips the label. *)
Definition _key (fuel : nat) (tasks : list string) (label : string) : option string :=
  let label := Py.strip label in
  key_loop fuel tasks label 1 label.

(** The options that [get_column_types] reads, split and stripped. *)
Definition column_items (arg_column_types : list string) : result (list (string * string)) :=
  mapM column_item (flat_map (Py.split_on ",") arg_column_types).

(** The type last given for [name] among the items. *)
Definition last_type (name : string) (items : list (string * string)) : option string :=
  option_map snd (find (fun item => String.eqb (fst item) name) (rev items)).

(** The effect of one well-formed option (name, type) on [column_types] and
    [last]. *)
Definition add_item (state : dict ColumnType.t * Z) (item : string * string)
  : dict ColumnType.t * Z :=
  match dict_get (fst state) (fst item) with
  | Some v =>
      (dict_set (fst state) (fst item)
         (ColumnType.mk (snd item) (ColumnType.order v) (fst item)), snd state)
  | None =>
      (dict_set (fst state) (fst item)
         (ColumnType.mk (snd item) (snd state + 1) (fst item)), snd state + 1)
  end.

(** ** Subject columns (formats/nfn.py) *)

(** [re.sub(r'\W+', '_', c)]: every run of non-word characters becomes one
    underscore; [in_run] tells whether the previous character was replaced. *)
Fixpoint sub_nonword_underscore (in_run : bool) (s : string) : string :=
  match s with
  | EmptyString => EmptyString
  | String c r =>
      if Py.isword c then String c (sub_nonword_underscore false r)
      else if in_run then sub_nonword_underscore true r
      else String "_" (sub_nonword_underscore true r)
  end.

Fixpoint drop_underscores (s : string) : string :=
  match s with
  | String "_" r => drop_underscores r
  | _ => s
  end.

(** An underscore matched by [_$]: the last character, or the one before a
    last newline. *)
Fixpoint drop_last_underscore (s : string) : string :=
  match s with
  | EmptyString => EmptyString
  | String c r =>
      if Ascii.eqb c "_" && (String.eqb r "" || String.eqb r nl) then r
      else String c (drop_last_underscore r)
  end.

(** [re.sub(r'^_+|_$', '', c)] *)
Definition trim_underscores (s : string) : string :=
  drop_last_underscore (drop_underscores s).

Definition SUBJECT_PREFIX : string := "subject_".

(** The new name that [extract_subject_data] gives a column of the subject
    data. *)
Definition subject_column (c : string) : string :=
  SUBJECT_PREFIX ++ trim_underscores (sub_nonword_underscore false c).

(** [int(str(x).split(';')[0])] in [read], for the string [x] of the column
    subject_ids. *)
Definition subject_id (x : string) : result Z :=
  piece <- first (Py.split_on ";" x) ;; Py.int piece.

Fixpoint all_word (s : string) : bool :=
  match s with
  | EmptyString => true
  | String c r => Py.isword c && all_word r
  end.

(** The value of the digits [d] read after the value [acc]. *)
Fixpoint uint_val (d : Decimal.uint) (acc : Z) : Z :=
  match d with
  | Decimal.Nil => acc
  | Decimal.D0 l => uint_val l (10 * acc)
  | Decimal.D1 l => uint_val l (10 * acc + 1)
  | Decimal.D2 l => uint_val l (10 * acc + 2)
  | Decimal.D3 l => uint_val l (10 * acc + 3)
  | Decimal.D4 l => uint_val l (10 * acc + 4)
  | Decimal.D5 l => uint_val l (10 * acc + 5)
  | Decimal.D6 l => uint_val l (10 * acc + 6)
  | Decimal.D7 l => uint_val l (10 * acc + 7)
  | Decimal.D8 l => uint_val l (10 * acc + 8)
  | Decimal.D9 l => uint_val l (10 * acc + 9)
  end.

Fixpoint no_space (s : string) : bool :=
  match s with
  | EmptyString => true
  | String c r => negb (Py.isspace c) && no_space r
  end.

(** A row of the explanations. *)
Definition sample_row : list (string * string) :=
  [("Country", "Normalized unanimous match, 3 of 3 records");
   ("State", "Only 1 transcript in 3 records")].

(** * Properties *)

Local Open Scope list_scope.

(** ** The error monad *)

Lemma mapM_ok {A B : Type} (f : A -> result B) (l : list A) :
  (forall x, In x l -> exists y, f x = Ok y) ->
  exists ys, mapM f l = Ok ys /\ length ys = length l.
Proof.
  induction l as [| x t IH]; intros Hf.
  - exists []. split; reflexivity.
  - destruct (Hf x (or_introl eq_refl)) as [y Hy].
    destruct IH as [ys [Hys Hlen]].
    + intros z Hz. apply Hf. right. exact Hz.
    + exists (y :: ys). simpl. rewrite Hy, Hys. simpl. auto.
Qed.

(** ** Sorting *)

Section Sorted.

Context {A : Type} (lt : A -> A -> bool).

Lemma insert_rev_length (x : A) (l : list A) :
  length (insert_rev lt x l) = S (length l).
Proof.
  induction l as [| y t IH]; simpl; [reflexivity |].
  destruct (lt x y); simpl; [rewrite IH |]; reflexivity.
Qed.

Lemma sorted_rev_length (l : list A) : length (sorted_rev lt l) = length l.
Proof.
  induction l as [| x t IH]; simpl; [reflexivity |].
  rewrite insert_rev_length, IH. reflexivity.
Qed.

Lemma first_sorted_rev_ok (l : list A) :
  l <> [] -> exists m, first (sorted_rev lt l) = Ok m.
Proof.
  intros Hl. pose proof (sorted_rev_length l) as Hlen.
  destruct (sorted_rev lt l) as [| m t].
  - destruct l; [congruence | discriminate].
  - exists m. reflexivity.
Qed.

Hypothesis lt_asym : forall x y, lt x y = true -> lt y x = false.
Hypothesis ge_trans : forall x y z, lt x y = false -> lt y z = false -> lt x z = false.

Lemma lt_irrefl (x : A) : lt x x = false.
Proof.
  destruct (lt x x) eqn:E; [| reflexivity].
  rewrite (lt_asym _ _ E) in E. discriminate.
Qed.

(** The first element of the sorted list is the first element of the input
    that no element exceeds. *)
Lemma first_sorted_rev_spec (l : list A) (m : A) :
  first (sorted_rev lt l) = Ok m ->
  exists pre post,
    l = pre ++ m :: post
    /\ (forall y, In y pre -> lt y m = true)
    /\ (forall y, In y l -> lt m y = false).
Proof.
  revert m. induction l as [| a t IH]; intros m; simpl; [discriminate |].
  pose proof (sorted_rev_length t) as Hlen.
  destruct (sorted_rev lt t) as [| y s] eqn:Es.
  - destruct t; [| discriminate]. simpl. intros H. injection H as <-.
    exists [], []. repeat split; [intros y [] |].
    intros y [<- | []]. apply lt_irrefl.
  - destruct (IH y eq_refl) as [pre [post [Ht [Hpre Hmax]]]].
    simpl. destruct (lt a y) eqn:Eay; simpl; intros H; injection H as <-.
    + exists (a :: pre), post. repeat split.
      * rewrite Ht. reflexivity.
      * intros z [<- | Hz]; auto.
      * intros z [<- | Hz]; auto.
    + exists [], t. repeat split; [intros z [] |].
      intros z [<- | Hz]; [apply lt_irrefl |].
      apply ge_trans with y; auto.
Qed.

End Sorted.

(** ** Dictionaries *)

Lemma dict_get_set {V : Type} (d : dict V) (k k' : string) (v : V) :
  dict_get (dict_set d k v) k' = if String.eqb k k' then Some v else dict_get d k'.
Proof.
  induction d as [| [k0 v0] t IH]; simpl.
  - reflexivity.
  - destruct (String.eqb_spec k0 k) as [-> | Hne]; simpl.
    + destruct (String.eqb k k'); reflexivity.
    + rewrite IH. destruct (String.eqb_spec k0 k') as [-> | Hne'].
      * destruct (String.eqb_spec k k'); [congruence | reflexivity].
      * reflexivity.
Qed.

Lemma dict_set_length {V : Type} (d : dict V) (k : string) (v : V) :
  (length (dict_set d k v) <= S (length d))%nat.
Proof.
  induction d as [| [k0 v0] t IH]; simpl; [lia |].
  destruct (String.eqb k0 k); simpl; lia.
Qed.

Lemma dict_set_keys {V : Type} (d : dict V) (k : string) (v : V) (k' : string) :
  In k' (map fst (dict_set d k v)) <-> k' = k \/ In k' (map fst d).
Proof.
  induction d as [| [k0 v0] t IH]; simpl.
  - intuition.
  - destruct (String.eqb_spec k0 k) as [-> | Hne]; simpl.
    + intuition.
    + rewrite IH. intuition.
Qed.

Lemma dict_set_NoDup {V : Type} (d : dict V) (k : string) (v : V) :
  NoDup (map fst d) -> NoDup (map fst (dict_set d k v)).
Proof.
  induction d as [| [k0 v0] t IH]; simpl; intros H.
  - constructor; [intros [] | constructor].
  - inversion H as [| ? ? Hnot Hrest]; subst.
    destruct (String.eqb_spec k0 k) as [-> | Hne]; simpl.
    + constructor; assumption.
    + constructor; [| apply IH; assumption].
      rewrite dict_set_keys. intros [-> | Hin]; [congruence | contradiction].
Qed.

Lemma dict_set_Forall {V : Type} (Q : string * V -> Prop) (d : dict V) (k : string) (v : V) :
  Forall Q d -> (forall k0, Q (k0, v)) -> Forall Q (dict_set d k v).
Proof.
  induction d as [| [k0 v0] t IH]; simpl; intros H Hv.
  - constructor; [apply Hv | constructor].
  - inversion H; subst.
    destruct (String.eqb k0 k); constructor; auto.
Qed.

Lemma dict_set_fresh {V : Type} (d : dict V) (k : string) (v : V) :
  ~ In k (map fst d) -> dict_set d k v = d ++ [(k, v)].
Proof.
  induction d as [| [k0 v0] t IH]; simpl; intros H; [reflexivity |].
  destruct (String.eqb_spec k0 k) as [-> | Hne]; [tauto |].
  rewrite IH by tauto. reflexivity.
Qed.

Lemma dict_get_In {V : Type} (d : dict V) (k : string) (v : V) :
  NoDup (map fst d) -> In (k, v) d -> dict_get d k = Some v.
Proof.
  induction d as [| [k0 v0] t IH]; simpl; intros Hn Hin; [contradiction |].
  inversion Hn as [| ? ? Hnot Hrest]; subst.
  destruct Hin as [Heq | Hin].
  - injection Heq as -> ->. rewrite String.eqb_refl. reflexivity.
  - destruct (String.eqb_spec k0 k) as [-> | Hne]; [| apply IH; assumption].
    exfalso. apply Hnot. apply (in_map fst) in Hin. exact Hin.
Qed.

(** Items with distinct keys make a dictionary with the same items. *)
Lemma dict_of_items_from {V : Type} (items acc : list (string * V)) :
  NoDup (map fst (acc ++ items)) ->
  fold_left (fun d kv => dict_set d (fst kv) (snd kv)) items acc = acc ++ items.
Proof.
  revert acc. induction items as [| [k v] t IH]; intros acc Hn; simpl.
  - rewrite app_nil_r. reflexivity.
  - assert (Hfresh : ~ In k (map fst acc)).
    { rewrite map_app in Hn. simpl in Hn. apply NoDup_remove_2 in Hn.
      intros Hin. apply Hn. apply in_or_app. left. exact Hin. }
    rewrite (dict_set_fresh acc k v Hfresh).
    rewrite IH; rewrite <- app_assoc; [reflexivity | exact Hn].
Qed.

Lemma dict_of_items_NoDup {V : Type} (items : list (string * V)) :
  NoDup (map fst items) -> dict_of_items items = items.
Proof.
  intros Hn. unfold dict_of_items. apply (dict_of_items_from items []). exact Hn.
Qed.

Lemma find_app {A : Type} (f : A -> bool) (l1 l2 : list A) :
  find f (l1 ++ l2) = match find f l1 with Some x => Some x | None => find f l2 end.
Proof.
  induction l1 as [| x t IH]; simpl; [reflexivity |].
  destruct (f x); [reflexivity | exact IH].
Qed.

Lemma find_map {A B : Type} (f : B -> bool) (g : A -> B) (l : list A) :
  find f (map g l) = option_map g (find (fun x => f (g x)) l).
Proof.
  induction l as [| x t IH]; simpl; [reflexivity |].
  destruct (f (g x)); [reflexivity | exact IH].
Qed.

(** Looking a key up in [dict(items)] gives the value of the last item with
    that key. *)
Lemma dict_get_items_from {V : Type} (items acc : list (string * V)) (k : string) :
  dict_get (fold_left (fun d kv => dict_set d (fst kv) (snd kv)) items acc) k
  = match find (fun kv => String.eqb (fst kv) k) (rev items) with
    | Some kv => Some (snd kv)
    | None => dict_get acc k
    end.
Proof.
  revert acc. induction items as [| [k0 v0] t IH]; intros acc; simpl; [reflexivity |].
  rewrite IH, find_app. simpl.
  destruct (find (fun kv => String.eqb (fst kv) k) (rev t)); [reflexivity |].
  rewrite dict_get_set. destruct (String.eqb k0 k); reflexivity.
Qed.

Lemma dict_get_of_items {V : Type} (items : list (string * V)) (k : string) :
  dict_get (dict_of_items items) k
  = option_map snd (find (fun kv => String.eqb (fst kv) k) (rev items)).
Proof.
  unfold dict_of_items. rewrite dict_get_items_from.
  destruct (find _ (rev items)); reflexivity.
Qed.

Lemma dict_of_items_keys_from {V : Type} (items acc : list (string * V)) (k : string) :
  In k (map fst (fold_left (fun d kv => dict_set d (fst kv) (snd kv)) items acc)) <->
  In k (map fst acc) \/ In k (map fst items).
Proof.
  revert acc. induction items as [| [k0 v0] t IH]; intros acc; simpl; [tauto |].
  rewrite IH, dict_set_keys. simpl. intuition.
Qed.

Lemma dict_of_items_keys {V : Type} (items : list (string * V)) (k : string) :
  In k (map fst (dict_of_items items)) <-> In k (map fst items).
Proof.
  unfold dict_of_items. rewrite dict_of_items_keys_from. simpl. tauto.
Qed.

Lemma dict_get_Some_In {V : Type} (d : dict V) (k : string) (v : V) :
  dict_get d k = Some v -> In (k, v) d.
Proof.
  induction d as [| [k0 v0] t IH]; simpl; [discriminate |].
  destruct (String.eqb_spec k0 k) as [-> | Hne].
  - intros H. injection H as ->. left. reflexivity.
  - intros H. right. apply IH. exact H.
Qed.

Lemma dict_set_keys_same {V : Type} (d : dict V) (k : string) (v : V) :
  In k (map fst d) -> map fst (dict_set d k v) = map fst d.
Proof.
  induction d as [| [k0 v0] t IH]; simpl; [contradiction |].
  destruct (String.eqb_spec k0 k) as [-> | Hne]; [reflexivity |].
  intros [Heq | Hin]; [congruence |]. simpl. rewrite IH by exact Hin. reflexivity.
Qed.

Lemma dict_of_items_snoc {V : Type} (items : list (string * V)) (kv : string * V) :
  dict_of_items (items ++ [kv]) = dict_set (dict_of_items items) (fst kv) (snd kv).
Proof.
  unfold dict_of_items. rewrite fold_left_app. reflexivity.
Qed.

Lemma dict_of_items_keys_NoDup {V : Type} (items : list (string * V)) :
  NoDup (map fst (dict_of_items items)).
Proof.
  induction items as [| kv t IH] using rev_ind.
  - constructor.
  - rewrite dict_of_items_snoc. apply dict_set_NoDup. exact IH.
Qed.

(** The keys of [dict(items)] stand in the order of their first item. *)
Lemma dict_of_items_order {V : Type} (items : list (string * V))
    (pre : list string) (k : string) (post : list string) :
  map fst (dict_of_items items) = pre ++ k :: post ->
  exists pre' post',
    map fst items = pre' ++ k :: post'
    /\ ~ In k pre'
    /\ forall k', In k' pre -> In k' pre'.
Proof.
  revert pre k post. induction items as [| [k0 v0] t IH] using rev_ind;
    intros pre k post H.
  - destruct pre; discriminate H.
  - rewrite dict_of_items_snoc in H. simpl in H. rewrite map_app. simpl.
    destruct (in_dec string_dec k0 (map fst (dict_of_items t))) as [Hin | Hnot].
    + rewrite (dict_set_keys_same _ _ v0 Hin) in H.
      destruct (IH _ _ _ H) as [pre' [post' [E [Hk Hpre]]]].
      exists pre', (post' ++ [k0]). rewrite E, <- app_assoc. simpl.
      split; [reflexivity |]. split; assumption.
    + rewrite (dict_set_fresh _ _ v0 Hnot), map_app in H. simpl in H.
      destruct (exists_last (l := k :: post)) as [body [z Ez]]; [discriminate |].
      rewrite Ez, app_assoc in H. apply app_inj_tail in H. destruct H as [H ->].
      destruct post as [| p post'].
      * destruct body; [| destruct body; discriminate Ez].
        injection Ez as <-. rewrite app_nil_r in H.
        exists (map fst t), []. split; [reflexivity |]. split.
        -- intros Hk. apply Hnot. apply dict_of_items_keys. exact Hk.
        -- intros k' Hk'. apply (dict_of_items_keys t). rewrite H. exact Hk'.
      * destruct body as [| b body']; [discriminate Ez |].
        injection Ez as <- Ebody.
        destruct (IH pre k body' H) as [pre' [post'' [E [Hk Hpre]]]].
        exists pre', (post'' ++ [z]). rewrite E, <- app_assoc. simpl.
        split; [reflexivity |]. split; assumption.
Qed.

(** ** The four sort keys *)

Ltac false_to_not :=
  repeat match goal with
  | H : _ = false |- _ => apply Bool.not_true_iff_false in H
  | |- _ = false => apply Bool.not_true_iff_false; intro
  end.

Ltac bool_to_Z :=
  rewrite ?Bool.orb_true_iff, ?Bool.andb_true_iff, ?Z.ltb_lt, ?Z.eqb_eq in *.

Ltac order_tac f := intros; false_to_not; unfold f in *; bool_to_Z; lia.

Lemma len_lt_asym x y : len_lt x y = true -> len_lt y x = false.
Proof. order_tac len_lt. Qed.

Lemma len_ge_trans x y z :
  len_lt x y = false -> len_lt y z = false -> len_lt x z = false.
Proof. order_tac len_lt. Qed.

Lemma count_lt_asym x y : count_lt x y = true -> count_lt y x = false.
Proof. order_tac count_lt. Qed.

Lemma count_ge_trans x y z :
  count_lt x y = false -> count_lt y z = false -> count_lt x z = false.
Proof. order_tac count_lt. Qed.

Lemma ratio_lt_asym x y : ratio_lt x y = true -> ratio_lt y x = false.
Proof. order_tac ratio_lt. Qed.

Lemma ratio_ge_trans x y z :
  ratio_lt x y = false -> ratio_lt y z = false -> ratio_lt x z = false.
Proof. order_tac ratio_lt. Qed.

Lemma set_lt_asym x y : set_lt x y = true -> set_lt y x = false.
Proof. order_tac set_lt. Qed.

Lemma set_ge_trans x y z :
  set_lt x y = false -> set_lt y z = false -> set_lt x z = false.
Proof. order_tac set_lt. Qed.

(** ** Pairs *)

Lemma combinations2_length {A : Type} (l : list A) :
  (2 * length (combinations2 l) = length l * (length l - 1))%nat.
Proof.
  induction l as [| x t IH]; simpl; [reflexivity |].
  rewrite length_app, length_map. nia.
Qed.

Lemma combinations2_nonempty {A : Type} (l : list A) :
  (2 <= length l)%nat -> combinations2 l <> [].
Proof.
  destruct l as [| x [| y t]]; simpl; intros H; try lia. discriminate.
Qed.

(** The pairs are the pairs of positions [i < j] of the list. *)
Lemma combinations2_In {A : Type} (l : list A) (a b : A) :
  In (a, b) (combinations2 l) <->
  exists i j, (i < j)%nat /\ nth_error l i = Some a /\ nth_error l j = Some b.
Proof.
  induction l as [| x t IH]; simpl.
  - split; [intros [] |]. intros [i [j [_ [H _]]]]. destruct i; discriminate.
  - rewrite in_app_iff, in_map_iff, IH. split.
    + intros [[y [Heq Hy]] | [i [j [Hij [Hi Hj]]]]].
      * injection Heq as <- <-. apply In_nth_error in Hy. destruct Hy as [j Hj].
        exists 0%nat, (S j). repeat split; [lia | exact Hj].
      * exists (S i), (S j). repeat split; [lia | assumption | assumption].
    + intros [i [j [Hij [Hi Hj]]]].
      destruct j as [| j]; [lia |]. simpl in Hj.
      destruct i as [| i]; simpl in Hi.
      * injection Hi as <-. left. exists b. split; [reflexivity |].
        eapply nth_error_In; eassumption.
      * right. exists i, j. repeat split; [lia | assumption | assumption].
Qed.

(** ** [only_filled_values] *)

Lemma add_filled_inv (d : dict (list string)) (value : string) :
  Forall nonempty_vals d -> NoDup (map fst d) ->
  Forall nonempty_vals (add_filled d value)
  /\ NoDup (map fst (add_filled d value))
  /\ (length (add_filled d value) <= S (length d))%nat.
Proof.
  intros Hd Hk. unfold add_filled.
  destruct (negb (Py.is_empty (Py.strip value))).
  - repeat split.
    + apply dict_set_Forall; [assumption |].
      intros k0. unfold nonempty_vals. simpl.
      intros E. apply app_eq_nil in E. destruct E; discriminate.
    + apply dict_set_NoDup. assumption.
    + apply dict_set_length.
  - repeat split; [assumption | assumption | lia].
Qed.

Lemma all_filled_inv (values : list string) (d : dict (list string)) :
  Forall nonempty_vals d -> NoDup (map fst d) ->
  Forall nonempty_vals (fold_left add_filled values d)
  /\ NoDup (map fst (fold_left add_filled values d))
  /\ (length (fold_left add_filled values d) <= length d + length values)%nat.
Proof.
  revert d. induction values as [| v t IH]; intros d Hd Hk; simpl.
  - repeat split; [assumption | assumption | lia].
  - destruct (add_filled_inv d v Hd Hk) as [H1 [H2 H3]].
    destruct (IH _ H1 H2) as [H4 [H5 H6]].
    repeat split; [assumption | assumption | lia].
Qed.

(** The representative of a key-group is its first longest member. *)
Lemma exact_score_spec (item : string * list string) :
  nonempty_vals item ->
  exists longest pre post,
    exact_score item = Ok (ExactScore.mk longest (Z.of_nat (length (snd item))))
    /\ snd item = pre ++ longest :: post
    /\ (forall v, In v pre -> Py.len v < Py.len longest)
    /\ (forall v, In v (snd item) -> Py.len v <= Py.len longest).
Proof.
  intros Hne. unfold exact_score.
  destruct (first_sorted_rev_ok len_lt (snd item) Hne) as [m Hm].
  destruct (first_sorted_rev_spec len_lt len_lt_asym len_ge_trans _ _ Hm)
    as [pre [post [Hl [Hpre Hmax]]]].
  exists m, pre, post. rewrite Hm. simpl. repeat split.
  - exact Hl.
  - intros v Hv. apply Hpre in Hv. unfold len_lt in Hv. lia.
  - intros v Hv. apply Hmax in Hv. unfold len_lt in Hv. lia.
Qed.

(** [only_filled_values] never raises, keeps one score per key-group, and
    the key-groups are distinct and no more than the entries. *)
Lemma only_filled_values_ok (values : list string) :
  exists filled,
    only_filled_values values = Ok filled
    /\ length filled = length (fold_left add_filled values [])
    /\ NoDup (map fst (fold_left add_filled values []))
    /\ (length filled <= length values)%nat.
Proof.
  destruct (all_filled_inv values [] (Forall_nil _) (NoDup_nil _)) as [Hne [Hk Hlen]].
  destruct (mapM_ok exact_score (fold_left add_filled values [])) as [ys [Hys Hl]].
  - intros item Hin. rewrite Forall_forall in Hne.
    destruct (exact_score_spec _ (Hne _ Hin)) as [m [_ [_ [Hm _]]]]. eauto.
  - exists (sorted_rev count_lt ys). unfold only_filled_values.
    rewrite Hys. simpl. rewrite sorted_rev_length, Hl.
    repeat split; [assumption | simpl in Hlen; lia].
Qed.

(** ** The ladder of [reconcile] *)

Lemma values_of_apply (group : Series) :
  map snd (apply convLine group) = values_of group.
Proof.
  unfold apply, values_of. rewrite !map_map. reflexivity.
Qed.

Lemma values_of_length (group : Series) : length (values_of group) = length group.
Proof.
  unfold values_of. rewrite !length_map. reflexivity.
Qed.

Lemma invert_as_items (d : dict string) : invert d = dict_of_items (map flip_item d).
Proof.
  unfold invert, dict_of_items. generalize (@nil (string * string)).
  induction d as [| i t IH]; intros acc; simpl; [reflexivity |]. apply IH.
Qed.

(** In a group where no user and no normalized entry occurs twice,
    [userAttribution] gives each entry its author. *)
Lemma userAttribution_author (group : Series) (u v : string) :
  NoDup (map fst group) ->
  NoDup (values_of group) ->
  In (u, v) group ->
  dict_get (invert (to_dict (apply convLine group))) (convLine v) = Some u.
Proof.
  intros Hu Hv Hin.
  assert (Hfst : map fst (apply convLine group) = map fst group)
    by (unfold apply; rewrite map_map; reflexivity).
  unfold to_dict. rewrite dict_of_items_NoDup by (rewrite Hfst; exact Hu).
  assert (Hkeys : map fst (map flip_item (apply convLine group)) = values_of group).
  { unfold apply, values_of. rewrite !map_map. reflexivity. }
  rewrite invert_as_items.
  rewrite dict_of_items_NoDup by (rewrite Hkeys; exact Hv).
  apply dict_get_In; [rewrite Hkeys; exact Hv |].
  unfold apply. rewrite map_map.
  apply (in_map (fun row => flip_item (fst row, convLine (snd row)))) in Hin.
  exact Hin.
Qed.

(** ** The attribution of a text *)

Lemma invert_snoc (d : dict string) (i : string * string) :
  invert (d ++ [i]) = dict_set (invert d) (snd i) (fst i).
Proof.
  unfold invert. rewrite fold_left_app. reflexivity.
Qed.

(** Looking a text up in the inverted dictionary finds the last item that
    holds it. *)
Lemma invert_get (d : dict string) (text : string) :
  match dict_get (invert d) text with
  | Some u => exists pre post,
                d = pre ++ (u, text) :: post
                /\ forall i, In i post -> snd i <> text
  | None => forall i, In i d -> snd i <> text
  end.
Proof.
  induction d as [| [u0 t0] d IH] using rev_ind.
  - simpl. intros i [].
  - rewrite invert_snoc, dict_get_set. simpl.
    destruct (String.eqb_spec t0 text) as [-> | Hne].
    + exists d, []. split; [reflexivity |]. intros i [].
    + destruct (dict_get (invert d) text) as [u |].
      * destruct IH as [pre [post [-> Hpost]]].
        exists pre, (post ++ [(u0, t0)]). rewrite <- app_assoc. simpl.
        split; [reflexivity |].
        intros i Hi. apply in_app_or in Hi. destruct Hi as [Hi | [<- | []]];
          [apply Hpost; exact Hi | exact Hne].
      * intros i Hi. apply in_app_or in Hi. destruct Hi as [Hi | [<- | []]];
          [apply IH; exact Hi | exact Hne].
Qed.

Lemma to_dict_get (group : Series) (u : string) :
  dict_get (to_dict (apply convLine group)) u = last_entry u group.
Proof.
  unfold to_dict, last_entry, apply.
  rewrite dict_get_of_items, <- map_rev, find_map. simpl.
  destruct (find _ (rev group)); reflexivity.
Qed.

(** What [userAttribution.get] returns is the user the text is attributed
    to. *)
Lemma userAttribution_attributed (group : Series) (text : string) :
  attributed group text (dict_get (invert (to_dict (apply convLine group))) text).
Proof.
  pose proof (invert_get (to_dict (apply convLine group)) text) as H.
  pose proof (dict_of_items_keys_NoDup (apply convLine group)) as Hn.
  fold (to_dict (apply convLine group)) in Hn.
  assert (Hfst : map fst (apply convLine group) = map fst group)
    by (unfold apply; rewrite map_map; reflexivity).
  destruct (dict_get (invert (to_dict (apply convLine group))) text) as [u |]; simpl.
  - destruct H as [pre [post [E Hpost]]]. split.
    + rewrite <- to_dict_get. apply dict_get_In; [exact Hn |].
      rewrite E. apply in_elt.
    + intros u' Hu'. rewrite <- to_dict_get in Hu'. apply dict_get_Some_In in Hu'.
      rewrite E in Hu'. apply in_app_or in Hu'.
      destruct Hu' as [Hin | [Heq | Hin]].
      * right. apply (in_map fst) in Hin. simpl in Hin.
        assert (Ek : map fst (to_dict (apply convLine group))
                     = map fst pre ++ u :: map fst post)
          by (rewrite E, map_app; reflexivity).
        destruct (dict_of_items_order _ _ _ _ Ek) as [pre' [post' [E' [Hk Hpre]]]].
        exists pre', post'. rewrite <- Hfst. split; [exact E' |].
        split; [exact Hk | apply Hpre; exact Hin].
      * left. congruence.
      * exfalso. apply (Hpost _ Hin). reflexivity.
  - intros u Hu. rewrite <- to_dict_get in Hu. apply dict_get_Some_In in Hu.
    apply (H _ Hu). reflexivity.
Qed.

Lemma appears_before_asym (u u' : string) (group : Series) :
  appears_before u u' group -> appears_before u' u group -> False.
Proof.
  intros [p1 [q1 [E1 [N1 I1]]]] [p2 [q2 [E2 [N2 I2]]]].
  rewrite E1 in E2. apply app_eq_app in E2. destruct E2 as [l [[-> _] | [-> _]]].
  - apply N1. apply in_or_app. left. exact I2.
  - apply N2. apply in_or_app. left. exact I1.
Qed.

(** A text is attributed to one user at most. *)
Lemma attributed_unique (group : Series) (text : string) (o o' : option string) :
  attributed group text o -> attributed group text o' -> o = o'.
Proof.
  destruct o as [u |], o' as [u' |]; simpl.
  - intros [H1 H2] [H1' H2'].
    destruct (H2 _ H1') as [-> | Hb]; [reflexivity |].
    destruct (H2' _ H1) as [-> | Hb']; [reflexivity |].
    exfalso. exact (appears_before_asym _ _ _ Hb Hb').
  - intros [H1 _] H. exfalso. exact (H _ H1).
  - intros H [H1 _]. exfalso. exact (H _ H1).
  - reflexivity.
Qed.

Lemma last_entry_only_row (group : Series) (a v : string) :
  NoDup (map fst group) -> In (a, v) group -> last_entry a group = Some (convLine v).
Proof.
  intros Hn Hin. rewrite <- to_dict_get. unfold to_dict.
  assert (Hfst : map fst (apply convLine group) = map fst group)
    by (unfold apply; rewrite map_map; reflexivity).
  rewrite dict_of_items_NoDup by (rewrite Hfst; exact Hn).
  apply dict_get_In; [rewrite Hfst; exact Hn |].
  unfold apply. apply (in_map (fun row => (fst row, convLine (snd row)))) in Hin.
  exact Hin.
Qed.

Lemma last_entry_In (group : Series) (u text : string) :
  last_entry u group = Some text -> In (u, text) (apply convLine group).
Proof.
  unfold last_entry. destruct (find _ (rev group)) as [[u' v] |] eqn:E; [| discriminate].
  simpl. intros H. injection H as <-. apply find_some in E. destruct E as [Hin Heq].
  simpl in Heq. apply String.eqb_eq in Heq. subst u'. apply in_rev in Hin.
  unfold apply. apply (in_map (fun row => (fst row, convLine (snd row)))) in Hin.
  exact Hin.
Qed.

(** A non-empty dictionary in [args.user_weights] stops [reconcile]. *)
Lemma reconcile_raises_on_dict (pr tsr : string -> string -> Z) (group : Series)
    (args : Args) (k : string) (x : Z) (d : dict Z) :
  user_weights args = WDict ((k, x) :: d) ->
  reconcile pr tsr group args = Raise AttributeError.
Proof.
  intros H. unfold reconcile, trusted_user_weights. rewrite H. reflexivity.
Qed.

Section Ladder.

Variable partial_ratio : string -> string -> Z.
Variable token_set_ratio : string -> string -> Z.

(** Past the three guards, [reconcile] is its fuzzy part. *)
Lemma reconcile_fuzzy (group : Series) (args : Args) (w : dict Z)
    (filled : list ExactScore.t) :
  trusted_user_weights args = Ok w ->
  only_filled_values (values_of group) = Ok filled ->
  reaches_fuzzy filled (Z.of_nat (length (values_of group))) = true ->
  reconcile partial_ratio token_set_ratio group args =
  fuzzy_matches partial_ratio token_set_ratio group args w (values_of group)
    (Z.of_nat (length (values_of group)))
    (Z.of_nat (length (values_of group)) - sumZ (map ExactScore.count filled)).
Proof.
  intros Hw Hf Hr. unfold reconcile.
  rewrite Hw. simpl. fold (values_of group). rewrite Hf. simpl.
  destruct filled as [| f0 rest]; [discriminate |].
  unfold reaches_fuzzy in Hr.
  destruct ((ExactScore.count f0 >? 1)
            && (ExactScore.count f0 =? Z.of_nat (length (values_of group))));
    [discriminate |].
  destruct (ExactScore.count f0 >? 1); [discriminate |].
  destruct (Nat.eqb (length (f0 :: rest)) 1); [discriminate |].
  reflexivity.
Qed.

Lemma reaches_fuzzy_two (filled : list ExactScore.t) (count : Z) :
  reaches_fuzzy filled count = true -> (2 <= length filled)%nat.
Proof.
  destruct filled as [| f0 [| f1 rest]]; simpl; intros H; try discriminate; [| lia].
  rewrite Bool.andb_false_r in H. discriminate.
Qed.

Lemma top_partial_ratio_ok (group : Series) (w : dict Z) :
  (2 <= length group)%nat ->
  exists top, top_partial_ratio partial_ratio group w = Ok top.
Proof.
  intros H. unfold top_partial_ratio. apply first_sorted_rev_ok.
  unfold ratio_scores. intros E. apply map_eq_nil in E.
  revert E. apply combinations2_nonempty.
  rewrite values_of_apply, values_of_length. exact H.
Qed.

Lemma top_token_set_ratio_ok (values : list string) :
  (2 <= length values)%nat ->
  exists top, top_token_set_ratio token_set_ratio values = Ok top.
Proof.
  intros H. unfold top_token_set_ratio. apply first_sorted_rev_ok.
  unfold set_scores. intros E. apply map_eq_nil in E.
  revert E. apply combinations2_nonempty. exact H.
Qed.

Lemma fuzzy_matches_ok (group : Series) (args : Args) (w : dict Z) (count blanks : Z) :
  (2 <= length group)%nat ->
  exists e v,
    fuzzy_matches partial_ratio token_set_ratio group args w (values_of group)
      count blanks = Ok (e, v).
Proof.
  intros H. unfold fuzzy_matches.
  destruct (top_partial_ratio_ok group w H) as [top ->]. simpl.
  destruct (FuzzyRatioScore.score top >=? fuzzy_ratio_threshold args); [eauto |].
  destruct (top_token_set_ratio_ok (values_of group)) as [top' ->];
    [rewrite values_of_length; exact H |].
  simpl. destruct (FuzzySetScore.score top' >=? fuzzy_set_threshold args); eauto.
Qed.

(** [reconcile] returns a pair whenever [trustedUserWeights] can be built. *)
Lemma reconcile_ok (group : Series) (args : Args) (w : dict Z) :
  trusted_user_weights args = Ok w ->
  exists e v, reconcile partial_ratio token_set_ratio group args = Ok (e, v).
Proof.
  intros Hw.
  destruct (only_filled_values_ok (values_of group)) as [filled [Hf [_ [_ Hlen]]]].
  destruct (reaches_fuzzy filled (Z.of_nat (length (values_of group)))) eqn:Hr.
  - rewrite (reconcile_fuzzy group args w filled Hw Hf Hr). apply fuzzy_matches_ok.
    apply reaches_fuzzy_two in Hr. rewrite values_of_length in Hlen. lia.
  - unfold reconcile. rewrite Hw. simpl.
    fold (values_of group). rewrite Hf. simpl.
    destruct filled as [| f0 rest]; [eauto |].
    unfold reaches_fuzzy in Hr.
    destruct ((ExactScore.count f0 >? 1)
              && (ExactScore.count f0 =? Z.of_nat (length (values_of group))));
      [eauto |].
    destruct (ExactScore.count f0 >? 1); [eauto |].
    destruct (Nat.eqb (length (f0 :: rest)) 1); [eauto | discriminate].
Qed.

(** C10: when the three guards before the fuzzy steps fail, the group has
    at least two key-groups with distinct keys, hence at least two entries,
    both fuzzy steps enumerate at least one pair, the top score of each step
    exists, and [reconcile] returns a pair. *)
Theorem C10_fuzzy_steps_have_a_pair (group : Series) (args : Args) (w : dict Z)
    (filled : list ExactScore.t) :
  trusted_user_weights args = Ok w ->
  only_filled_values (values_of group) = Ok filled ->
  reaches_fuzzy filled (Z.of_nat (length (values_of group))) = true ->
  (2 <= length filled)%nat
  /\ length (fold_left add_filled (values_of group) []) = length filled
  /\ NoDup (map fst (fold_left add_filled (values_of group) []))
  /\ (2 <= length group)%nat
  /\ ratio_combos group <> []
  /\ set_combos (values_of group) <> []
  /\ (exists top, top_partial_ratio partial_ratio group w = Ok top)
  /\ (exists top, top_token_set_ratio token_set_ratio (values_of group) = Ok top)
  /\ (exists e v, reconcile partial_ratio token_set_ratio group args = Ok (e, v)).
Proof.
  intros Hw Hf Hr.
  destruct (only_filled_values_ok (values_of group)) as [filled' [Hf' [Hl [Hk Hlen]]]].
  rewrite Hf in Hf'. injection Hf' as <-.
  pose proof (reaches_fuzzy_two _ _ Hr) as H2.
  assert (Hg : (2 <= length group)%nat) by (rewrite values_of_length in Hlen; lia).
  repeat split.
  - exact H2.
  - symmetry. exact Hl.
  - exact Hk.
  - exact Hg.
  - unfold ratio_combos. rewrite values_of_apply.
    apply combinations2_nonempty. rewrite values_of_length. exact Hg.
  - apply combinations2_nonempty. rewrite values_of_length. exact Hg.
  - apply top_partial_ratio_ok. exact Hg.
  - apply top_token_set_ratio_ok. rewrite values_of_length. exact Hg.
  - eapply reconcile_ok. exact Hw.
Qed.

End Ladder.

(** ** The fuzzy steps *)

Section Fuzzy.

Variable partial_ratio : string -> string -> Z.
Variable token_set_ratio : string -> string -> Z.

(** The score of one pair of step 7: the raw score plus the weight found for
    the candidate, capped at 100. *)
Lemma ratio_score_spec (w : dict Z) (userAttribution : dict string)
    (combo : string * string) :
  let s := ratio_score partial_ratio w userAttribution combo in
  FuzzyRatioScore.value s =
    (if Py.len (fst combo) >=? Py.len (snd combo) then fst combo else snd combo)
  /\ FuzzyRatioScore.score s =
       Z.min 100 (partial_ratio (fst combo) (snd combo)
                  + weight_of w (dict_get userAttribution (FuzzyRatioScore.value s))).
Proof.
  simpl. split; [reflexivity |].
  match goal with |- context [?a >? 100] => destruct (Z.gtb_spec a 100) end; lia.
Qed.

Lemma weight_of_set (w : dict Z) (u : string) (x : Z) (userName : option string) :
  weight_of (dict_set w u x) userName =
  match userName with
  | Some u' => if String.eqb u u' then x else weight_of w userName
  | None => 0
  end.
Proof.
  destruct userName as [u' |]; simpl; [| reflexivity].
  rewrite dict_get_set. destruct (String.eqb u u'); reflexivity.
Qed.

Lemma weight_of_mono (w : dict Z) (u : string) (x : Z) (userName : option string) :
  weight_of w (Some u) <= x ->
  weight_of w userName <= weight_of (dict_set w u x) userName.
Proof.
  intros H. rewrite weight_of_set. destruct userName as [u' |]; [| simpl; lia].
  destruct (String.eqb_spec u u') as [<- | _]; [exact H | lia].
Qed.

(** C5: in step 7 the score of every pair is the raw partial-ratio score
    plus the weight of the user the candidate is attributed to, capped at
    100 and not bounded below.  The candidate is the longer member of the
    pair; it is attributed to the user whose last entry is the candidate,
    to the one whose first row comes latest when several users qualify and
    to nobody when none does, and to no other; in a group where no user
    occurs twice this is the author whenever one user only entered that
    text.  Raising one user's weight changes no candidate, lowers no score,
    and gives the pairs attributed to that user the raw score plus the new
    weight, capped at 100. *)
Theorem C5_weight_added_capped_monotone (group : Series) (w : dict Z)
    (u : string) (x : Z) (i : nat) (s : FuzzyRatioScore.t) :
  weight_of w (Some u) <= x ->
  nth_error (ratio_scores partial_ratio group w) i = Some s ->
  exists combo s' userName,
    nth_error (ratio_combos group) i = Some combo
    /\ nth_error (ratio_scores partial_ratio group (dict_set w u x)) i = Some s'
    /\ FuzzyRatioScore.value s
       = (if Py.len (fst combo) >=? Py.len (snd combo) then fst combo else snd combo)
    /\ FuzzyRatioScore.value s' = FuzzyRatioScore.value s
    /\ attributed group (FuzzyRatioScore.value s) userName
    /\ (forall o, attributed group (FuzzyRatioScore.value s) o -> o = userName)
    /\ (NoDup (map fst group) ->
        forall a, In (a, FuzzyRatioScore.value s) (apply convLine group) ->
          (forall a', In (a', FuzzyRatioScore.value s) (apply convLine group) -> a' = a) ->
          userName = Some a)
    /\ FuzzyRatioScore.score s =
         Z.min 100 (partial_ratio (fst combo) (snd combo) + weight_of w userName)
    /\ FuzzyRatioScore.score s <= FuzzyRatioScore.score s'
    /\ FuzzyRatioScore.score s' <= 100
    /\ (userName = Some u ->
        FuzzyRatioScore.score s' =
          Z.min 100 (partial_ratio (fst combo) (snd combo) + x)).
Proof.
  intros Hx Hs. unfold ratio_scores in *. rewrite nth_error_map in *.
  destruct (nth_error (ratio_combos group) i) as [combo |]; [| discriminate].
  simpl in Hs. injection Hs as <-.
  set (ua := invert (to_dict (apply convLine group))).
  destruct (ratio_score_spec w ua combo) as [Hv Hsc].
  destruct (ratio_score_spec (dict_set w u x) ua combo) as [Hv' Hsc'].
  cbv zeta in *.
  assert (Hvv : FuzzyRatioScore.value (ratio_score partial_ratio (dict_set w u x) ua combo)
                = FuzzyRatioScore.value (ratio_score partial_ratio w ua combo))
    by reflexivity.
  set (s := ratio_score partial_ratio w ua combo) in *.
  pose proof (userAttribution_attributed group (FuzzyRatioScore.value s)) as Hatt.
  fold ua in Hatt.
  exists combo, (ratio_score partial_ratio (dict_set w u x) ua combo),
    (dict_get ua (FuzzyRatioScore.value s)).
  split; [reflexivity |]. split; [reflexivity |].
  split; [exact Hv |]. split; [exact Hvv |]. split; [exact Hatt |].
  split; [intros o Ho; exact (attributed_unique _ _ _ _ Ho Hatt) |].
  split; [| split; [exact Hsc | split; [| split]]].
  - intros Hn a Hin Honly.
    apply in_map_iff in Hin. destruct Hin as [[a0 v] [E Hin]].
    simpl in E. injection E as -> Ev.
    pose proof (last_entry_only_row group a v Hn Hin) as Hl. rewrite Ev in Hl.
    destruct (dict_get ua (FuzzyRatioScore.value s)) as [u' |]; simpl in Hatt.
    + destruct Hatt as [Hl' _]. apply last_entry_In in Hl'.
      rewrite (Honly _ Hl'). reflexivity.
    + exfalso. exact (Hatt _ Hl).
  - rewrite Hsc, Hsc', Hvv.
    pose proof (weight_of_mono w u x (dict_get ua (FuzzyRatioScore.value s)) Hx).
    lia.
  - rewrite Hsc'. lia.
  - intros Hu. rewrite Hsc', Hvv, Hu. simpl. rewrite dict_get_set.
    rewrite String.eqb_refl. reflexivity.
Qed.

(** The candidate and the token count of one pair of step 8. *)
Lemma set_score_spec (a b : string) :
  let s := set_score token_set_ratio (a, b) in
  let tokens_0 := Z.of_nat (length (Py.split_ws a)) in
  let tokens_1 := Z.of_nat (length (Py.split_ws b)) in
  FuzzySetScore.score s = token_set_ratio a b
  /\ FuzzySetScore.tokens s = Z.max tokens_0 tokens_1
  /\ (tokens_1 < tokens_0 -> FuzzySetScore.value s = a)
  /\ (tokens_0 < tokens_1 -> FuzzySetScore.value s = b)
  /\ (tokens_0 = tokens_1 -> Py.len a < Py.len b -> FuzzySetScore.value s = a)
  /\ (tokens_0 = tokens_1 -> Py.len b < Py.len a -> FuzzySetScore.value s = b)
  /\ (tokens_0 = tokens_1 -> Py.len a = Py.len b -> FuzzySetScore.value s = a).
Proof.
  cbv zeta. unfold set_score. simpl.
  destruct (Z.gtb_spec (Z.of_nat (length (Py.split_ws a)))
                       (Z.of_nat (length (Py.split_ws b)))) as [Hgt | Hle]; simpl.
  - repeat split; intros; lia.
  - destruct (Z.ltb_spec (Z.of_nat (length (Py.split_ws a)))
                         (Z.of_nat (length (Py.split_ws b)))) as [Hlt | Hge]; simpl.
    + repeat split; intros; lia.
    + destruct (Z.leb_spec (Py.len a) (Py.len b)); repeat split; intros; lia.
Qed.

(** C7: in step 8 the candidate of a pair is the member with more tokens,
    on equal token counts the shorter one, on equal lengths the first of the
    pair; the winner is a scored pair that every scored pair ranks below, and
    the first such pair in the enumeration. *)
Theorem C7_token_set_candidate_and_winner (values : list string)
    (top : FuzzySetScore.t) :
  top_token_set_ratio token_set_ratio values = Ok top ->
  (forall a b, In (a, b) (set_combos values) ->
     let s := set_score token_set_ratio (a, b) in
     let tokens_0 := Z.of_nat (length (Py.split_ws a)) in
     let tokens_1 := Z.of_nat (length (Py.split_ws b)) in
     In s (set_scores token_set_ratio values)
     /\ FuzzySetScore.score s = token_set_ratio a b
     /\ FuzzySetScore.tokens s = Z.max tokens_0 tokens_1
     /\ (tokens_1 < tokens_0 -> FuzzySetScore.value s = a)
     /\ (tokens_0 < tokens_1 -> FuzzySetScore.value s = b)
     /\ (tokens_0 = tokens_1 -> Py.len a < Py.len b -> FuzzySetScore.value s = a)
     /\ (tokens_0 = tokens_1 -> Py.len b < Py.len a -> FuzzySetScore.value s = b)
     /\ (tokens_0 = tokens_1 -> Py.len a = Py.len b -> FuzzySetScore.value s = a))
  /\ (forall s, In s (set_scores token_set_ratio values) -> ranks_below s top)
  /\ (exists pre post,
        set_scores token_set_ratio values = pre ++ top :: post
        /\ forall s, In s pre -> ranks_below s top /\ ~ ranks_below top s).
Proof.
  intros Htop. unfold top_token_set_ratio in Htop.
  destruct (first_sorted_rev_spec set_lt set_lt_asym set_ge_trans _ _ Htop)
    as [pre [post [Hl [Hpre Hmax]]]].
  split; [| split].
  - intros a b Hin. cbv zeta. split.
    + unfold set_scores. apply in_map. exact Hin.
    + apply set_score_spec.
  - intros s Hs. apply Hmax in Hs. false_to_not.
    unfold set_lt, ranks_below in *. bool_to_Z. lia.
  - exists pre, post. split; [exact Hl |].
    intros s Hs. apply Hpre in Hs.
    unfold set_lt, ranks_below in *. bool_to_Z. lia.
Qed.

End Fuzzy.

(** ** The whole strategy *)

Lemma values_of_copies (users : list string) (v : string) :
  values_of (copies users v) = repeat (convLine v) (length users).
Proof.
  unfold values_of, copies. induction users as [| u t IH]; simpl; [reflexivity |].
  f_equal. exact IH.
Qed.

Lemma add_filled_blank (d : dict (list string)) (value : string) :
  is_filled value = false -> add_filled d value = d.
Proof.
  unfold is_filled, add_filled. intros ->. reflexivity.
Qed.

Lemma all_filled_blank (values : list string) (d : dict (list string)) :
  (forall v, In v values -> is_filled v = false) ->
  fold_left add_filled values d = d.
Proof.
  induction values as [| v t IH]; intros H; simpl; [reflexivity |].
  rewrite add_filled_blank by (apply H; left; reflexivity).
  apply IH. intros v' Hv'. apply H. right. exact Hv'.
Qed.

(** Repeating one filled value extends its single key-group. *)
Lemma all_filled_repeat (value : string) (k n : nat) :
  is_filled value = true ->
  fold_left add_filled (repeat value k)
    [(Py.lower (Py.sub_nonword (Py.strip value)), repeat (Py.strip value) (S n))]
  = [(Py.lower (Py.sub_nonword (Py.strip value)), repeat (Py.strip value) (S n + k))].
Proof.
  intros Hf. revert n. induction k as [| k IH]; intros n.
  - rewrite Nat.add_0_r. reflexivity.
  - cbn [repeat fold_left]. unfold add_filled at 2.
    unfold is_filled in Hf. rewrite Hf.
    cbn [dict_get dict_set]. rewrite String.eqb_refl.
    change (repeat (Py.strip value) (S n) ++ [Py.strip value])
      with ((Py.strip value :: repeat (Py.strip value) n) ++ [Py.strip value]).
    rewrite <- app_comm_cons, <- repeat_cons.
    change (Py.strip value :: Py.strip value :: repeat (Py.strip value) n)
      with (repeat (Py.strip value) (S (S n))).
    rewrite IH. f_equal. f_equal. f_equal. lia.
Qed.

Lemma only_filled_values_repeat (value : string) (k : nat) :
  is_filled value = true ->
  only_filled_values (repeat value (S k))
  = Ok [ExactScore.mk (Py.strip value) (Z.of_nat (S k))].
Proof.
  intros Hf. unfold only_filled_values.
  cbn [repeat fold_left]. unfold add_filled at 2.
  pose proof Hf as Hf'. unfold is_filled in Hf'. rewrite Hf'.
  cbn [dict_get dict_set app].
  change [Py.strip value] with (repeat (Py.strip value) 1).
  rewrite (all_filled_repeat value k 0 Hf).
  cbn [mapM].
  destruct (exact_score_spec
              (Py.lower (Py.sub_nonword (Py.strip value)),
               repeat (Py.strip value) (1 + k)))
    as [m [pre [post [Hm [Hl _]]]]].
  - unfold nonempty_vals. simpl. discriminate.
  - rewrite Hm. cbn [bind snd]. rewrite repeat_length.
    assert (Hin : In m (repeat (Py.strip value) (1 + k))).
    { cbn [snd] in Hl. rewrite Hl. apply in_or_app. right. left. reflexivity. }
    apply repeat_spec in Hin. subst m. reflexivity.
Qed.

Section Whole.

Variable partial_ratio : string -> string -> Z.
Variable token_set_ratio : string -> string -> Z.

(** [reconcile] once [trustedUserWeights] and [filled] are known. *)
Lemma reconcile_unfold (group : Series) (args : Args) (w : dict Z)
    (filled : list ExactScore.t) :
  trusted_user_weights args = Ok w ->
  only_filled_values (values_of group) = Ok filled ->
  reconcile partial_ratio token_set_ratio group args =
  let count := Z.of_nat (length (values_of group)) in
  let blanks := count - sumZ (map ExactScore.count filled) in
  match filled with
  | [] => Ok (reason_blank count, "")
  | filled_0 :: _ =>
      if (ExactScore.count filled_0 >? 1) && (ExactScore.count filled_0 =? count)
      then Ok (reason_unanimous (ExactScore.count filled_0) count,
               ExactScore.value filled_0)
      else if ExactScore.count filled_0 >? 1
      then Ok (reason_majority (ExactScore.count filled_0) count blanks,
               ExactScore.value filled_0)
      else if Nat.eqb (length filled) 1
      then Ok (reason_only count, ExactScore.value filled_0)
      else fuzzy_matches partial_ratio token_set_ratio group args w
             (values_of group) count blanks
  end.
Proof.
  intros Hw Hf. unfold reconcile. rewrite Hw. simpl.
  fold (values_of group). rewrite Hf. reflexivity.
Qed.

(** An all-blank group of any size gives the blank explanation and the
    empty value, whenever [trustedUserWeights] can be built. *)
Lemma reconcile_all_blank (group : Series) (args : Args) (w : dict Z) :
  trusted_user_weights args = Ok w ->
  (forall v, In v (values_of group) -> is_filled v = false) ->
  reconcile partial_ratio token_set_ratio group args
  = Ok (reason_blank (Z.of_nat (length group)), "").
Proof.
  intros Hw Hb.
  assert (Hf : only_filled_values (values_of group) = Ok []).
  { unfold only_filled_values. rewrite all_filled_blank by exact Hb. reflexivity. }
  rewrite (reconcile_unfold group args w [] Hw Hf). cbv zeta.
  rewrite values_of_length. reflexivity.
Qed.

Lemma P_record_many (k : nat) : (2 <= k)%nat -> P "record" (Z.of_nat k) = "records".
Proof.
  intros H. unfold P. destruct (Z.eqb_spec (Z.of_nat k) 1); [lia | reflexivity].
Qed.

Lemma reconcile_copies (users : list string) (v : string) (args : Args) (w : dict Z) :
  (2 <= length users)%nat ->
  is_filled (convLine v) = true ->
  trusted_user_weights args = Ok w ->
  reconcile partial_ratio token_set_ratio (copies users v) args
  = Ok (reason_unanimous (Z.of_nat (length users)) (Z.of_nat (length users)),
        Py.strip (convLine v)).
Proof.
  intros Hk Hf Hw.
  destruct users as [| u0 users']; [simpl in Hk; lia |].
  assert (Hfill : only_filled_values (values_of (copies (u0 :: users') v))
                  = Ok [ExactScore.mk (Py.strip (convLine v))
                          (Z.of_nat (S (length users')))]).
  { rewrite values_of_copies. apply only_filled_values_repeat. exact Hf. }
  rewrite (reconcile_unfold _ args w _ Hw Hfill). cbv zeta.
  rewrite values_of_copies, repeat_length. cbn [ExactScore.count ExactScore.value].
  change (S (length users')) with (length (u0 :: users')).
  destruct (Z.gtb_spec (Z.of_nat (length (u0 :: users'))) 1) as [_ | Hle]; [| lia].
  rewrite Z.eqb_refl. reflexivity.
Qed.

Lemma reconcile_single (u v : string) (args : Args) (w : dict Z) :
  is_filled (convLine v) = true ->
  trusted_user_weights args = Ok w ->
  reconcile partial_ratio token_set_ratio [(u, v)] args
  = Ok (reason_only 1, Py.strip (convLine v)).
Proof.
  intros Hf Hw.
  assert (Hfill : only_filled_values (values_of [(u, v)])
                  = Ok [ExactScore.mk (Py.strip (convLine v)) 1]).
  { apply (only_filled_values_repeat (convLine v) 0). exact Hf. }
  rewrite (reconcile_unfold _ args w _ Hw Hfill). reflexivity.
Qed.

(** C8, as the code has it: k >= 2 copies of a filled value and the value
    alone reconcile to the same value, the stripped normalized entry (or
    raise the same exception); when [reconcile] returns, the explanations
    are "Normalized unanimous match, k of k records" for the copies and
    "Only 1 transcript in 1 record" for the value alone. *)
Theorem C8_copies_same_value (users : list string) (u v : string) (args : Args) :
  (2 <= length users)%nat ->
  is_filled (convLine v) = true ->
  fmap snd (reconcile partial_ratio token_set_ratio (copies users v) args)
  = fmap snd (reconcile partial_ratio token_set_ratio [(u, v)] args)
  /\ forall w, trusted_user_weights args = Ok w ->
       let k := Py.str_of_int (Z.of_nat (length users)) in
       reconcile partial_ratio token_set_ratio (copies users v) args
       = Ok (("Normalized unanimous match, " ++ k ++ " of " ++ k ++ " records")%string,
             Py.strip (convLine v))
       /\ reconcile partial_ratio token_set_ratio [(u, v)] args
          = Ok ("Only 1 transcript in 1 record", Py.strip (convLine v)).
Proof.
  intros Hk Hf. split.
  - destruct (trusted_user_weights args) as [w | e] eqn:Hw.
    + rewrite (reconcile_copies users v args w Hk Hf Hw).
      rewrite (reconcile_single u v args w Hf Hw). reflexivity.
    + unfold reconcile. rewrite Hw. reflexivity.
  - intros w Hw. cbv zeta. split.
    + rewrite (reconcile_copies users v args w Hk Hf Hw).
      unfold reason_unanimous, str. rewrite P_record_many by exact Hk. reflexivity.
    + rewrite (reconcile_single u v args w Hf Hw). reflexivity.
Qed.

End Whole.

Section Thresholds.

Variable partial_ratio : string -> string -> Z.
Variable token_set_ratio : string -> string -> Z.

(** The three outcomes of the fuzzy part, by the two comparisons. *)
Lemma fuzzy_matches_cases (group : Series) (args : Args) (w : dict Z)
    (values : list string) (count blanks : Z)
    (top : FuzzyRatioScore.t) (top' : FuzzySetScore.t) :
  top_partial_ratio partial_ratio group w = Ok top ->
  top_token_set_ratio token_set_ratio values = Ok top' ->
  let r := fuzzy_matches partial_ratio token_set_ratio group args w values count blanks in
  (fuzzy_ratio_threshold args <= FuzzyRatioScore.score top ->
   r = Ok (reason_partial count blanks (FuzzyRatioScore.score top),
           FuzzyRatioScore.value top))
  /\ (FuzzyRatioScore.score top < fuzzy_ratio_threshold args ->
      fuzzy_set_threshold args <= FuzzySetScore.score top' ->
      r = Ok (reason_token_set count blanks (FuzzySetScore.score top'),
              FuzzySetScore.value top'))
  /\ (FuzzyRatioScore.score top < fuzzy_ratio_threshold args ->
      FuzzySetScore.score top' < fuzzy_set_threshold args ->
      r = Ok (reason_no_match count blanks, "")).
Proof.
  intros Ht Ht'. cbv zeta. unfold fuzzy_matches. rewrite Ht, Ht'. simpl.
  destruct (Z.geb_spec (FuzzyRatioScore.score top) (fuzzy_ratio_threshold args));
    destruct (Z.geb_spec (FuzzySetScore.score top') (fuzzy_set_threshold args));
    repeat split; intros; try reflexivity; lia.
Qed.

(** C6: past the guards of the exact steps both comparisons are inclusive
    and nothing else decides.  A top partial-ratio score at or above
    [fuzzy_ratio_threshold], the threshold itself included, gives the
    "Partial ratio match" result; every lower one, from one point below,
    leaves the decision to the token-set step, where a top score at or above
    [fuzzy_set_threshold], the threshold itself included, gives the "Token
    set ratio match" result and every lower one the "No text match"
    explanation with the empty value. *)
Theorem C6_thresholds_inclusive (group : Series) (args : Args) (w : dict Z)
    (filled : list ExactScore.t) (top : FuzzyRatioScore.t) (top' : FuzzySetScore.t) :
  trusted_user_weights args = Ok w ->
  only_filled_values (values_of group) = Ok filled ->
  reaches_fuzzy filled (Z.of_nat (length (values_of group))) = true ->
  top_partial_ratio partial_ratio group w = Ok top ->
  top_token_set_ratio token_set_ratio (values_of group) = Ok top' ->
  let count := Z.of_nat (length (values_of group)) in
  let blanks := count - sumZ (map ExactScore.count filled) in
  (fuzzy_ratio_threshold args <= FuzzyRatioScore.score top ->
   reconcile partial_ratio token_set_ratio group args
   = Ok (reason_partial count blanks (FuzzyRatioScore.score top),
         FuzzyRatioScore.value top))
  /\ (FuzzyRatioScore.score top < fuzzy_ratio_threshold args ->
      fuzzy_set_threshold args <= FuzzySetScore.score top' ->
      reconcile partial_ratio token_set_ratio group args
      = Ok (reason_token_set count blanks (FuzzySetScore.score top'),
            FuzzySetScore.value top'))
  /\ (FuzzyRatioScore.score top < fuzzy_ratio_threshold args ->
      FuzzySetScore.score top' < fuzzy_set_threshold args ->
      reconcile partial_ratio token_set_ratio group args
      = Ok (reason_no_match count blanks, ""))
  /\ (FuzzyRatioScore.score top = fuzzy_ratio_threshold args ->
      reconcile partial_ratio token_set_ratio group args
      = Ok (reason_partial count blanks (fuzzy_ratio_threshold args),
            FuzzyRatioScore.value top))
  /\ (FuzzyRatioScore.score top = fuzzy_ratio_threshold args - 1 ->
      FuzzySetScore.score top' = fuzzy_set_threshold args ->
      reconcile partial_ratio token_set_ratio group args
      = Ok (reason_token_set count blanks (fuzzy_set_threshold args),
            FuzzySetScore.value top')).
Proof.
  intros Hw Hf Hr Ht Ht'. cbv zeta.
  rewrite (reconcile_fuzzy partial_ratio token_set_ratio group args w filled Hw Hf Hr).
  destruct (fuzzy_matches_cases group args w (values_of group)
              (Z.of_nat (length (values_of group)))
              (Z.of_nat (length (values_of group)) - sumZ (map ExactScore.count filled))
              top top' Ht Ht') as [H1 [H2 H3]].
  split; [exact H1 |]. split; [exact H2 |]. split; [exact H3 |]. split.
  - intros E. rewrite <- E. apply H1. lia.
  - intros E E'. rewrite <- E'. apply H2; lia.
Qed.

(** C4, as the code has it: both fuzzy steps enumerate the same pairs, the
    pairs of positions i < j of all the normalized entries of the group,
    blank entries included, n(n-1)/2 pairs for n entries, and score each of
    them. *)
Theorem C4_pairs_over_all_entries (group : Series) (w : dict Z) :
  ratio_combos group = set_combos (values_of group)
  /\ (forall a b,
        In (a, b) (ratio_combos group) <->
        exists i j, (i < j)%nat
                    /\ nth_error (values_of group) i = Some a
                    /\ nth_error (values_of group) j = Some b)
  /\ (2 * length (ratio_combos group) = length group * (length group - 1))%nat
  /\ length (ratio_scores partial_ratio group w) = length (ratio_combos group)
  /\ length (set_scores token_set_ratio (values_of group))
     = length (set_combos (values_of group)).
Proof.
  assert (E : ratio_combos group = set_combos (values_of group)).
  { unfold ratio_combos, set_combos. rewrite values_of_apply. reflexivity. }
  split; [exact E |]. rewrite E. unfold set_combos.
  split; [intros a b; apply combinations2_In |].
  split; [rewrite combinations2_length, values_of_length; reflexivity |].
  split.
  - unfold ratio_scores. rewrite length_map, E. reflexivity.
  - unfold set_scores. rewrite length_map. reflexivity.
Qed.

(** C2, as the code has it: the three entries form one key-group, "ohio",
    whose representative is its longest member "ohio.", and the result is
    the unanimous explanation with that value.  The representative of any
    key-group is its longest member, the first one among several longest. *)
Theorem C2_ohio_unanimous_longest :
  reconcile partial_ratio token_set_ratio ohio default_args
  = Ok ("Normalized unanimous match, 3 of 3 records", "ohio.")
  /\ fold_left add_filled (values_of ohio) [] = [("ohio", ["Ohio"; "Ohio"; "ohio."])]
  /\ only_filled_values (values_of ohio) = Ok [ExactScore.mk "ohio." 3]
  /\ (forall v, In v ["Ohio"; "Ohio"; "ohio."] -> Py.len v <= Py.len "ohio.")
  /\ (forall key vals, vals <> [] ->
      exists longest pre post,
        exact_score (key, vals) = Ok (ExactScore.mk longest (Z.of_nat (length vals)))
        /\ vals = pre ++ longest :: post
        /\ (forall v, In v pre -> Py.len v < Py.len longest)
        /\ (forall v, In v vals -> Py.len v <= Py.len longest)).
Proof.
  split; [reflexivity |]. split; [reflexivity |]. split; [reflexivity |].
  split.
  - intros v [<- | [<- | [<- | []]]]; vm_compute; discriminate.
  - intros key vals Hne. apply (exact_score_spec (key, vals)). exact Hne.
Qed.

(** C1: with the dictionary that [parse_command_line] builds from a
    non-empty [--user-weights], [reconcile] raises [AttributeError] on every
    group. *)
Theorem C1_reconcile_raises_on_weights_dict (group : Series) :
  exists args,
    parse_command_line "aSmith:10" 90 50 = Ok args
    /\ user_weights args = WDict [("asmith", 10)]
    /\ reconcile partial_ratio token_set_ratio group args = Raise AttributeError.
Proof.
  exists (mkArgs (WDict [("asmith", 10)]) 90 50).
  split; [reflexivity |]. split; reflexivity.
Qed.

(** C3: the weight given to "aSmith" on the command line is stored under
    "asmith" by [parse_command_line]; [top_partial_ratio] looks the author up
    as written in the group, finds nothing and adds 0.  The lookup finds the
    weight only for an author written "asmith". *)
Theorem C3_weight_lookup_is_case_sensitive :
  parse_command_line "aSmith:10" 90 50 = Ok (mkArgs (WDict [("asmith", 10)]) 90 50)
  /\ dict_get (invert (to_dict (apply convLine two_cities))) "New York City"
     = Some "aSmith"
  /\ weight_of [("asmith", 10)]
       (dict_get (invert (to_dict (apply convLine two_cities))) "New York City") = 0
  /\ ratio_scores partial_ratio two_cities [("asmith", 10)]
     = ratio_scores partial_ratio two_cities []
  /\ weight_of [("asmith", 10)] (Some "asmith") = 10.
Proof.
  repeat split; reflexivity.
Qed.

End Thresholds.

(** ** Concrete runs *)

(** The default configuration is what [parse_command_line] returns when no
    option is given. *)
Example parse_command_line_default : parse_command_line "" 90 50 = Ok default_args.
Proof. reflexivity. Qed.

Example parse_command_line_threshold : parse_command_line "" 101 50 = Raise SystemExit.
Proof. reflexivity. Qed.

(** With a string in [args.user_weights], [reconcile] builds the weights
    itself, with the keys as written. *)
Example trusted_user_weights_of_string :
  trusted_user_weights (mkArgs (WStr "aSmith:10,bob:-5") 90 50)
  = Ok [("aSmith", 10); ("bob", -5)].
Proof. reflexivity. Qed.

(** A negative weight lowers the score: there is no floor. *)
Example weight_can_lower_score :
  ratio_scores (const_ratio 92) two_cities [("aSmith", -50)]
  = [FuzzyRatioScore.mk 42 "New York City"]
  /\ ratio_scores (const_ratio 92) two_cities [("aSmith", -150)]
     = [FuzzyRatioScore.mk (-58) "New York City"].
Proof. split; reflexivity. Qed.

Example new_york_partial :
  reconcile (const_ratio 95) (const_ratio 0) new_york default_args
  = Ok ("Partial ratio match on 3 records with 1 blank, score=95", "New York City").
Proof. reflexivity. Qed.

Example new_york_falls_through :
  reconcile (const_ratio 89) (const_ratio 50) new_york default_args
  = Ok ("Token set ratio match on 3 records with 1 blank, score=50",
       "New York City")
  /\ reconcile (const_ratio 89) (const_ratio 49) new_york default_args
     = Ok ("No text match on 3 records with 1 blank", "").
Proof. split; reflexivity. Qed.

Example all_blank_run :
  reconcile (const_ratio 0) (const_ratio 0) [("u1", ""); ("u2", "  ")] default_args
  = Ok ("All 2 records are blank", "").
Proof. reflexivity. Qed.

(** C2: the value is not "Ohio", whatever the similarity measures. *)
Lemma C2_value_is_not_Ohio :
  ~ (exists pr tsr,
       reconcile pr tsr ohio default_args
       = Ok ("Normalized unanimous match, 3 of 3 records", "Ohio")).
Proof.
  intros [pr [tsr H]]. vm_compute in H. discriminate H.
Qed.

(** C4: the group ["New York", "New York City", ""] reaches the fuzzy steps,
    and the pair of "New York" with the blank entry is scored in both. *)
Lemma C4_blank_entry_is_paired :
  only_filled_values (values_of new_york)
  = Ok [ExactScore.mk "New York" 1; ExactScore.mk "New York City" 1]
  /\ reaches_fuzzy [ExactScore.mk "New York" 1; ExactScore.mk "New York City" 1] 3 = true
  /\ is_filled "" = false
  /\ In ("New York", "") (ratio_combos new_york)
  /\ In ("New York", "") (set_combos (values_of new_york))
  /\ ~ (forall c, In c (ratio_combos new_york) ->
          is_filled (fst c) = true /\ is_filled (snd c) = true)
  /\ ~ (forall c, In c (set_combos (values_of new_york)) ->
          is_filled (fst c) = true /\ is_filled (snd c) = true).
Proof.
  assert (Hin : In ("New York", "") (ratio_combos new_york))
    by (vm_compute; right; left; reflexivity).
  assert (Hin' : In ("New York", "") (set_combos (values_of new_york)))
    by (vm_compute; right; left; reflexivity).
  repeat split; try reflexivity; try assumption.
  - intros H. destruct (H _ Hin) as [_ Hb]. discriminate Hb.
  - intros H. destruct (H _ Hin') as [_ Hb]. discriminate Hb.
Qed.

(** C8: one copy and two copies of "Ohio" give the same value, and
    explanations that differ in their wording, not only in their counts. *)
Lemma C8_explanations_differ_in_wording :
  (forall pr tsr,
     reconcile pr tsr [("u1", "Ohio")] default_args
     = Ok ("Only 1 transcript in 1 record", "Ohio"))
  /\ (forall pr tsr,
        reconcile pr tsr (copies ["u1"; "u2"] "Ohio") default_args
        = Ok ("Normalized unanimous match, 2 of 2 records", "Ohio"))
  /\ drop_digits "Only 1 transcript in 1 record"
     <> drop_digits "Normalized unanimous match, 2 of 2 records".
Proof.
  split; [intros; reflexivity |]. split; [intros; reflexivity |].
  vm_compute. discriminate.
Qed.

(** C5: the weight of the author is not always the weight added.  In
    [alice_twice] the candidate "abc def" was entered by alice alone, her
    weight is 10, and the pair is scored 80: the attribution keeps her last
    entry only.  In [two_blanks], where no user occurs twice and the fuzzy
    steps are reached, the candidate of the pair of the two blank rows is
    the row of u3 and the weight added is that of u4. *)
Lemma C5_author_weight_not_added :
  ~ (forall (pr : string -> string -> Z) (group : Series) (w : dict Z) (i : nat)
            (combo : string * string) (s : FuzzyRatioScore.t) (author : string),
       nth_error (ratio_combos group) i = Some combo ->
       nth_error (ratio_scores pr group w) i = Some s ->
       In (author, FuzzyRatioScore.value s) (apply convLine group) ->
       (forall a, In (a, FuzzyRatioScore.value s) (apply convLine group) -> a = author) ->
       FuzzyRatioScore.score s
       = Z.min 100 (pr (fst combo) (snd combo) + weight_of w (Some author)))
  /\ NoDup (map fst two_blanks)
  /\ only_filled_values (values_of two_blanks)
     = Ok [ExactScore.mk "New York" 1; ExactScore.mk "Boston" 1]
  /\ reaches_fuzzy [ExactScore.mk "New York" 1; ExactScore.mk "Boston" 1] 4 = true
  /\ nth_error (combinations2 (apply convLine two_blanks)) 5
     = Some (("u3", ""), ("u4", ""))
  /\ nth_error (ratio_scores (const_ratio 80) two_blanks [("u3", 10); ("u4", -5)]) 5
     = Some (FuzzyRatioScore.mk 75 "")
  /\ 75 <> Z.min 100 (80 + weight_of [("u3", 10); ("u4", -5)] (Some "u3")).
Proof.
  split.
  - intros H.
    specialize (H (const_ratio 80) alice_twice [("alice", 10)] 0%nat
                  ("abc def", "xyz") (FuzzyRatioScore.mk 80 "abc def") "alice"
                  eq_refl eq_refl (or_introl eq_refl)).
    assert (Honly : forall a,
               In (a, "abc def") (apply convLine alice_twice) -> a = "alice").
    { intros a Hin. vm_compute in Hin.
      destruct Hin as [E | [E | [E | []]]]; congruence. }
    specialize (H Honly). vm_compute in H. discriminate H.
  - split; [repeat constructor; simpl; intuition discriminate |].
    split; [reflexivity |]. split; [reflexivity |]. split; [reflexivity |].
    split; [reflexivity |]. vm_compute. discriminate.
Qed.

Lemma C5_weight_added_capped_monotone_witness :
  weight_of [("aSmith", 5)] (Some "aSmith") <= 30
  /\ exists s',
       nth_error (ratio_scores (const_ratio 80) two_cities
                    (dict_set [("aSmith", 5)] "aSmith" 30)) 0 = Some s'
       /\ 85 <= FuzzyRatioScore.score s'.
Proof.
  assert (Hx : weight_of [("aSmith", 5)] (Some "aSmith") <= 30)
    by (vm_compute; discriminate).
  split; [exact Hx |].
  destruct (C5_weight_added_capped_monotone (const_ratio 80) two_cities
              [("aSmith", 5)] "aSmith" 30 0
              (FuzzyRatioScore.mk 85 "New York City") Hx eq_refl)
    as [combo [s' [userName [_ [Hs' [_ [_ [_ [_ [_ [_ [Hle _]]]]]]]]]]]].
  exists s'. split; [exact Hs' | exact Hle].
Defined.

Lemma C6_thresholds_inclusive_witness :
  reconcile (const_ratio 90) (const_ratio 50) two_cities default_args
  = Ok ("Partial ratio match on 2 records with 0 blanks, score=90", "New York City")
  /\ reconcile (const_ratio 95) (const_ratio 50) two_cities default_args
     = Ok ("Partial ratio match on 2 records with 0 blanks, score=95", "New York City")
  /\ reconcile (const_ratio 89) (const_ratio 80) two_cities default_args
     = Ok ("Token set ratio match on 2 records with 0 blanks, score=80",
          "New York City")
  /\ reconcile (const_ratio 50) (const_ratio 49) two_cities default_args
     = Ok ("No text match on 2 records with 0 blanks", "").
Proof.
  pose (filled := [ExactScore.mk "New York City" 1; ExactScore.mk "New York" 1]).
  assert (H90 : fuzzy_ratio_threshold default_args <= 90) by (simpl; lia).
  assert (H95 : fuzzy_ratio_threshold default_args <= 95) by (simpl; lia).
  assert (H89 : 89 < fuzzy_ratio_threshold default_args) by (simpl; lia).
  assert (H50 : 50 < fuzzy_ratio_threshold default_args) by (simpl; lia).
  assert (H80 : fuzzy_set_threshold default_args <= 80) by (simpl; lia).
  assert (H49 : 49 < fuzzy_set_threshold default_args) by (simpl; lia).
  split; [| split; [| split]].
  - exact (proj1 (C6_thresholds_inclusive (const_ratio 90) (const_ratio 50)
                    two_cities default_args [] filled
                    (FuzzyRatioScore.mk 90 "New York City")
                    (FuzzySetScore.mk 50 "New York City" 3)
                    eq_refl eq_refl eq_refl eq_refl eq_refl) H90).
  - exact (proj1 (C6_thresholds_inclusive (const_ratio 95) (const_ratio 50)
                    two_cities default_args [] filled
                    (FuzzyRatioScore.mk 95 "New York City")
                    (FuzzySetScore.mk 50 "New York City" 3)
                    eq_refl eq_refl eq_refl eq_refl eq_refl) H95).
  - exact (proj1 (proj2 (C6_thresholds_inclusive (const_ratio 89) (const_ratio 80)
                           two_cities default_args [] filled
                           (FuzzyRatioScore.mk 89 "New York City")
                           (FuzzySetScore.mk 80 "New York City" 3)
                           eq_refl eq_refl eq_refl eq_refl eq_refl)) H89 H80).
  - exact (proj1 (proj2 (proj2
             (C6_thresholds_inclusive (const_ratio 50) (const_ratio 49)
                two_cities default_args [] filled
                (FuzzyRatioScore.mk 50 "New York City")
                (FuzzySetScore.mk 49 "New York City" 3)
                eq_refl eq_refl eq_refl eq_refl eq_refl))) H50 H49).
Defined.

Lemma C7_token_set_candidate_and_winner_witness :
  top_token_set_ratio (const_ratio 100) ["a b"; "c b a"; "a b c"]
  = Ok (FuzzySetScore.mk 100 "c b a" 3)
  /\ exists pre post,
       set_scores (const_ratio 100) ["a b"; "c b a"; "a b c"]
       = pre ++ FuzzySetScore.mk 100 "c b a" 3 :: post
       /\ forall s, In s pre ->
            ranks_below s (FuzzySetScore.mk 100 "c b a" 3)
            /\ ~ ranks_below (FuzzySetScore.mk 100 "c b a" 3) s.
Proof.
  split; [reflexivity |].
  exact (proj2 (proj2 (C7_token_set_candidate_and_winner (const_ratio 100)
                         ["a b"; "c b a"; "a b c"]
                         (FuzzySetScore.mk 100 "c b a" 3) eq_refl))).
Defined.

Lemma C8_copies_same_value_witness :
  reconcile (const_ratio 0) (const_ratio 0) (copies ["u1"; "u2"; "u3"] "Ohio")
    default_args
  = Ok ("Normalized unanimous match, 3 of 3 records", "Ohio")
  /\ reconcile (const_ratio 0) (const_ratio 0) [("u1", "Ohio")] default_args
     = Ok ("Only 1 transcript in 1 record", "Ohio").
Proof.
  exact (proj2 (C8_copies_same_value (const_ratio 0) (const_ratio 0)
                  ["u1"; "u2"; "u3"] "u1" "Ohio" default_args
                  (le_S 2 2 (le_n 2)) eq_refl) [] eq_refl).
Defined.

Lemma C10_fuzzy_steps_have_a_pair_witness :
  reaches_fuzzy [ExactScore.mk "New York City" 1; ExactScore.mk "New York" 1] 2 = true
  /\ (2 <= length two_cities)%nat
  /\ ratio_combos two_cities <> []
  /\ exists top, top_partial_ratio (const_ratio 90) two_cities [] = Ok top.
Proof.
  split; [reflexivity |].
  destruct (C10_fuzzy_steps_have_a_pair (const_ratio 90) (const_ratio 50)
              two_cities default_args []
              [ExactScore.mk "New York City" 1; ExactScore.mk "New York" 1]
              eq_refl eq_refl eq_refl)
    as [_ [_ [_ [H2 [Hc [_ [Ht _]]]]]]].
  exact (conj H2 (conj Hc Ht)).
Defined.

(** * Further properties *)

(** ** Sorting, continued *)

Section SortedMore.

Context {A : Type} (lt : A -> A -> bool).

Lemma insert_rev_perm (x : A) (l : list A) : Permutation (insert_rev lt x l) (x :: l).
Proof.
  induction l as [| y t IH]; simpl; [reflexivity |].
  destruct (lt x y); [| reflexivity].
  rewrite IH. apply perm_swap.
Qed.

Lemma sorted_rev_perm (l : list A) : Permutation (sorted_rev lt l) l.
Proof.
  induction l as [| x t IH]; simpl; [reflexivity |].
  rewrite insert_rev_perm, IH. reflexivity.
Qed.

Hypothesis lt_asym : forall x y, lt x y = true -> lt y x = false.
Hypothesis ge_trans : forall x y z, lt x y = false -> lt y z = false -> lt x z = false.

Lemma insert_rev_sorted (x : A) (l : list A) :
  StronglySorted (fun a b => lt a b = false) l ->
  StronglySorted (fun a b => lt a b = false) (insert_rev lt x l).
Proof.
  induction l as [| y t IH]; intros Hs; simpl.
  - constructor; constructor.
  - inversion Hs as [| ? ? Hst Hall]; subst.
    destruct (lt x y) eqn:E.
    + constructor; [apply IH; exact Hst |].
      rewrite Forall_forall in *. intros z Hz.
      apply (Permutation_in _ (insert_rev_perm x t)) in Hz.
      destruct Hz as [<- | Hz]; [apply lt_asym; exact E | apply Hall; exact Hz].
    + constructor; [exact Hs |].
      constructor; [exact E |].
      rewrite Forall_forall in *. intros z Hz.
      apply ge_trans with y; [exact E | apply Hall; exact Hz].
Qed.

Lemma sorted_rev_sorted (l : list A) :
  StronglySorted (fun a b => lt a b = false) (sorted_rev lt l).
Proof.
  induction l as [| x t IH]; simpl; [constructor |].
  apply insert_rev_sorted. exact IH.
Qed.

End SortedMore.

Lemma StronglySorted_weaken {A : Type} (R R' : A -> A -> Prop) (l : list A) :
  (forall a b, R a b -> R' a b) -> StronglySorted R l -> StronglySorted R' l.
Proof.
  intros Himp Hs. induction Hs as [| a l Hs IH Ha]; constructor; [exact IH |].
  rewrite Forall_forall in *. intros b Hb. apply Himp, Ha, Hb.
Qed.

Lemma sumZ_perm (l l' : list Z) : Permutation l l' -> sumZ l = sumZ l'.
Proof.
  induction 1; simpl; lia.
Qed.

(** ** Key-groups *)

Lemma key_group_snoc (k : string) (seen : list string) (value : string) :
  key_group k (seen ++ [value]) =
  key_group k seen
  ++ (if negb (Py.is_empty (Py.strip value)) && String.eqb (squish (Py.strip value)) k
      then [Py.strip value] else []).
Proof.
  unfold key_group, filled_entries.
  rewrite map_app, !filter_app. f_equal. simpl.
  destruct (negb (Py.is_empty (Py.strip value))); simpl; [| reflexivity].
  destruct (String.eqb (squish (Py.strip value)) k); reflexivity.
Qed.

Lemma group_of_vals (k : string) (values : list string) :
  match group_of k values with
  | Some vals => vals
  | None => []
  end = key_group k values.
Proof.
  unfold group_of. destruct (key_group k values); reflexivity.
Qed.

(** One step of the first loop keeps [all_filled] equal to the key-groups of
    the entries seen. *)
Lemma add_filled_groups (d : dict (list string)) (seen : list string) (value : string) :
  (forall k, dict_get d k = group_of k seen) ->
  forall k, dict_get (add_filled d value) k = group_of k (seen ++ [value]).
Proof.
  intros Hd k. unfold add_filled.
  destruct (negb (Py.is_empty (Py.strip value))) eqn:Hf.
  - rewrite dict_get_set. fold (squish (Py.strip value)).
    rewrite Hd, group_of_vals.
    unfold group_of. rewrite key_group_snoc, Hf. simpl.
    destruct (String.eqb_spec (squish (Py.strip value)) k) as [-> | Hne].
    + destruct (key_group k seen); reflexivity.
    + rewrite app_nil_r. fold (group_of k seen). apply Hd.
  - unfold group_of. rewrite key_group_snoc, Hf. simpl.
    rewrite app_nil_r. apply Hd.
Qed.

Lemma all_filled_groups_from (values seen : list string) (d : dict (list string)) :
  (forall k, dict_get d k = group_of k seen) ->
  forall k, dict_get (fold_left add_filled values d) k = group_of k (seen ++ values).
Proof.
  revert seen d. induction values as [| v t IH]; intros seen d Hd k; simpl.
  - rewrite app_nil_r. apply Hd.
  - change (v :: t) with ([v] ++ t). rewrite app_assoc.
    apply IH. apply add_filled_groups. exact Hd.
Qed.

Lemma all_filled_groups (values : list string) (k : string) :
  dict_get (fold_left add_filled values []) k = group_of k values.
Proof.
  apply (all_filled_groups_from values [] []). intros k'. reflexivity.
Qed.

(** The items of [all_filled] are the key-groups of their keys. *)
Lemma all_filled_item (values : list string) (k : string) (vals : list string) :
  In (k, vals) (fold_left add_filled values []) ->
  vals = key_group k values /\ vals <> [].
Proof.
  intros Hin.
  destruct (all_filled_inv values [] (Forall_nil _) (NoDup_nil _)) as [Hne [Hk _]].
  pose proof (dict_get_In _ k vals Hk Hin) as Hg.
  rewrite all_filled_groups in Hg. unfold group_of in Hg.
  destruct (key_group k values) eqn:E; [discriminate |].
  injection Hg as <-. split; [reflexivity | discriminate].
Qed.

Lemma mapM_Forall2 {A B : Type} (f : A -> result B) (l : list A) (ys : list B) :
  mapM f l = Ok ys -> Forall2 (fun x y => f x = Ok y) l ys.
Proof.
  revert ys. induction l as [| x t IH]; intros ys; simpl.
  - intros H. injection H as <-. constructor.
  - destruct (f x) as [y | e] eqn:Ey; simpl; [| discriminate].
    destruct (mapM f t) as [ys' | e]; simpl; [| discriminate].
    intros H. injection H as <-. constructor; [exact Ey | apply IH; reflexivity].
Qed.

Lemma dict_get_None {V : Type} (d : dict V) (k : string) :
  dict_get d k = None <-> ~ In k (map fst d).
Proof.
  induction d as [| [k0 v0] t IH]; simpl; [tauto |].
  destruct (String.eqb_spec k0 k) as [-> | Hne].
  - split; [discriminate | intros H; exfalso; apply H; left; reflexivity].
  - rewrite IH. tauto.
Qed.

Lemma total_members_set (d : dict (list string)) (k v : string) :
  total_members
    (dict_set d k (match dict_get d k with Some vals => vals | None => [] end ++ [v]))
  = total_members d + 1.
Proof.
  unfold total_members. induction d as [| [k0 v0] t IH]; simpl; [reflexivity |].
  destruct (String.eqb_spec k0 k) as [-> | Hne]; simpl.
  - rewrite length_app. simpl. lia.
  - rewrite IH. lia.
Qed.

Lemma total_members_fold (values : list string) (d : dict (list string)) :
  total_members (fold_left add_filled values d)
  = total_members d + Z.of_nat (length (filled_entries values)).
Proof.
  revert d. induction values as [| v t IH]; intros d; simpl.
  - unfold filled_entries. simpl. lia.
  - rewrite IH. unfold add_filled, filled_entries. simpl.
    destruct (negb (Py.is_empty (Py.strip v))); simpl.
    + rewrite total_members_set. lia.
    + reflexivity.
Qed.

Lemma exact_score_count (item : string * list string) (s : ExactScore.t) :
  exact_score item = Ok s -> ExactScore.count s = Z.of_nat (length (snd item)).
Proof.
  unfold exact_score. destruct (first (sorted_rev len_lt (snd item))); simpl;
    [| discriminate].
  intros H. injection H as <-. reflexivity.
Qed.

Lemma represents_items (values : list string) (d : dict (list string))
    (ys : list ExactScore.t) :
  (forall item, In item d -> In item (fold_left add_filled values [])) ->
  Forall2 (fun item s => exact_score item = Ok s) d ys ->
  Forall2 (represents values) (map fst d) ys.
Proof.
  intros Hall Hm. induction Hm as [| [k vals] s t ys' Hs _ IH]; simpl; constructor.
  - destruct (all_filled_item values k vals (Hall _ (or_introl eq_refl)))
      as [-> Hnn].
    destruct (exact_score_spec (k, key_group k values) Hnn)
      as [m [pre [post [Hm' [Hl [Hpre Hmax]]]]]].
    rewrite Hs in Hm'. injection Hm' as ->.
    split; [reflexivity |]. exists pre, post. repeat split; assumption.
  - apply IH. intros item Hi. apply Hall. right. exact Hi.
Qed.

(** [only_filled_values] returns one score per key-group of the filled
    entries: the keys with a member are distinct, each score holds the size
    of its group and its first longest member. *)
Lemma only_filled_values_groups (values : list string) (filled : list ExactScore.t) :
  only_filled_values values = Ok filled ->
  exists keys only_filled,
    NoDup keys
    /\ (forall k, In k keys <-> key_group k values <> [])
    /\ Forall2 (represents values) keys only_filled
    /\ Permutation filled only_filled.
Proof.
  unfold only_filled_values. intros H.
  destruct (mapM exact_score (fold_left add_filled values [])) as [ys | e] eqn:Hm;
    simpl in H; [| discriminate].
  injection H as <-.
  destruct (all_filled_inv values [] (Forall_nil _) (NoDup_nil _)) as [Hne [Hk _]].
  exists (map fst (fold_left add_filled values [])), ys.
  split; [exact Hk |]. split; [| split].
  - intros k. split.
    + intros Hin Hk0.
      assert (Hg : dict_get (fold_left add_filled values []) k = None)
        by (rewrite all_filled_groups; unfold group_of; rewrite Hk0; reflexivity).
      apply dict_get_None in Hg. contradiction.
    + intros Hk0.
      destruct (in_dec string_dec k (map fst (fold_left add_filled values [])))
        as [Hin | Hn]; [exact Hin |].
      apply dict_get_None in Hn. rewrite all_filled_groups in Hn.
      unfold group_of in Hn. destruct (key_group k values); congruence.
  - apply (represents_items values); [auto | apply mapM_Forall2; exact Hm].
  - apply sorted_rev_perm.
Qed.

(** The scores come sorted by decreasing count, every count is at least
    1, and the counts add up to the number of filled entries, so that
    [blanks] in [reconcile] is the number of blank entries. *)
Lemma only_filled_values_counts (values : list string) (filled : list ExactScore.t) :
  only_filled_values values = Ok filled ->
  StronglySorted (fun a b => ExactScore.count b <= ExactScore.count a) filled
  /\ Forall (fun s => 1 <= ExactScore.count s) filled
  /\ sumZ (map ExactScore.count filled) = Z.of_nat (length (filled_entries values))
  /\ Z.of_nat (length values) - sumZ (map ExactScore.count filled)
     = Z.of_nat (length (filter (fun v => negb (is_filled v)) values)).
Proof.
  unfold only_filled_values. intros H.
  destruct (mapM exact_score (fold_left add_filled values [])) as [ys | e] eqn:Hm;
    simpl in H; [| discriminate].
  injection H as <-. apply mapM_Forall2 in Hm.
  destruct (all_filled_inv values [] (Forall_nil _) (NoDup_nil _)) as [Hne _].
  assert (Hys : Forall (fun s => 1 <= ExactScore.count s) ys
                /\ sumZ (map ExactScore.count ys)
                   = total_members (fold_left add_filled values [])).
  { revert Hne. unfold total_members. induction Hm as [| item s d ys' Hs _ IH];
      intros Hne; simpl; [split; [constructor | reflexivity] |].
    inversion Hne as [| ? ? Hitem Hrest]; subst.
    destruct (IH Hrest) as [IH1 IH2].
    rewrite (exact_score_count item s Hs), IH2.
    split; [| reflexivity]. constructor; [| exact IH1].
    rewrite (exact_score_count item s Hs). unfold nonempty_vals in Hitem.
    destruct (snd item); [congruence | simpl; lia]. }
  destruct Hys as [Hpos Hsum].
  assert (Hsum' : sumZ (map ExactScore.count (sorted_rev count_lt ys))
                  = Z.of_nat (length (filled_entries values))).
  { rewrite (sumZ_perm _ _ (Permutation_map ExactScore.count (sorted_rev_perm count_lt ys))).
    rewrite Hsum, total_members_fold. reflexivity. }
  split; [| split; [| split]].
  - apply (StronglySorted_weaken (fun a b => count_lt a b = false)).
    + intros a b Hab. unfold count_lt in Hab. apply Z.ltb_ge in Hab. exact Hab.
    + apply sorted_rev_sorted; [exact count_lt_asym | exact count_ge_trans].
  - rewrite Forall_forall in *. intros s Hs. apply Hpos.
    apply (Permutation_in _ (sorted_rev_perm count_lt ys)). exact Hs.
  - exact Hsum'.
  - rewrite Hsum'. unfold filled_entries, is_filled.
    clear. induction values as [| v t IH]; [reflexivity |].
    cbn [map filter length]. destruct (Py.is_empty (Py.strip v));
      cbn [negb length]; rewrite ?Nat2Z.inj_succ; lia.
Qed.

(** ** The last writer of a text *)

(** X6: in a group where no user occurs twice, [userAttribution] gives a
    text the user of the last row that holds it, and nothing for a text no
    row holds; the weight added for a candidate is the weight of that user,
    or 0. *)
Theorem userAttribution_last_writer (group : Series) (w : dict Z) (text : string) :
  NoDup (map fst group) ->
  dict_get (invert (to_dict (apply convLine group))) text = last_writer text group
  /\ (~ In text (values_of group) ->
      weight_of w (dict_get (invert (to_dict (apply convLine group))) text) = 0)
  /\ (forall u, last_writer text group = Some u ->
        In (u, text) (apply convLine group)
        /\ weight_of w (dict_get (invert (to_dict (apply convLine group))) text)
           = weight_of w (Some u)).
Proof.
  intros Hu.
  assert (Hfst : map fst (apply convLine group) = map fst group)
    by (unfold apply; rewrite map_map; reflexivity).
  assert (Hget : dict_get (invert (to_dict (apply convLine group))) text
                 = last_writer text group).
  { unfold to_dict. rewrite dict_of_items_NoDup by (rewrite Hfst; exact Hu).
    rewrite invert_as_items, dict_get_of_items. unfold last_writer, apply.
    rewrite map_map, <- map_rev, find_map. simpl.
    destruct (find _ (rev group)); reflexivity. }
  split; [exact Hget |]. rewrite Hget. split.
  - intros Hnot. unfold last_writer.
    destruct (find _ (rev group)) as [[u v] |] eqn:E; [| reflexivity].
    exfalso. apply find_some in E. destruct E as [Hin Heq].
    apply Hnot. apply in_rev in Hin. simpl in Heq.
    apply String.eqb_eq in Heq. subst text.
    unfold values_of. rewrite map_map.
    apply (in_map (fun row => convLine (snd row))) in Hin. exact Hin.
  - intros u Hl. split; [| rewrite Hl; reflexivity].
    unfold last_writer in Hl.
    destruct (find _ (rev group)) as [[u' v] |] eqn:E; [| discriminate].
    simpl in Hl. injection Hl as ->.
    apply find_some in E. destruct E as [Hin Heq].
    apply in_rev in Hin. simpl in Heq. apply String.eqb_eq in Heq. subst text.
    unfold apply. apply (in_map (fun row => (fst row, convLine (snd row)))) in Hin.
    exact Hin.
Qed.

(** ** The winner of step 7 *)

Section Step7.

Variable partial_ratio : string -> string -> Z.

(** X5: in step 7 the score of the i-th pair is the i-th score, and its
    candidate is the longer member of that pair, the first one on equal
    lengths; the winner is a scored pair that every scored pair ranks below
    under (score, candidate length), and the first such pair in the
    enumeration. *)
Theorem top_partial_ratio_winner (group : Series) (w : dict Z)
    (top : FuzzyRatioScore.t) :
  top_partial_ratio partial_ratio group w = Ok top ->
  (forall i a b, nth_error (ratio_combos group) i = Some (a, b) ->
     let s := ratio_score partial_ratio w
                (invert (to_dict (apply convLine group))) (a, b) in
     nth_error (ratio_scores partial_ratio group w) i = Some s
     /\ In s (ratio_scores partial_ratio group w)
     /\ (Py.len b <= Py.len a -> FuzzyRatioScore.value s = a)
     /\ (Py.len a < Py.len b -> FuzzyRatioScore.value s = b))
  /\ (forall s, In s (ratio_scores partial_ratio group w) -> ratio_ranks_below s top)
  /\ (exists pre post,
        ratio_scores partial_ratio group w = pre ++ top :: post
        /\ forall s, In s pre -> ratio_ranks_below s top /\ ~ ratio_ranks_below top s).
Proof.
  intros Htop. unfold top_partial_ratio in Htop.
  destruct (first_sorted_rev_spec ratio_lt ratio_lt_asym ratio_ge_trans _ _ Htop)
    as [pre [post [Hl [Hpre Hmax]]]].
  split; [| split].
  - intros i a b Hi. cbv zeta.
    assert (Hs : nth_error (ratio_scores partial_ratio group w) i
                 = Some (ratio_score partial_ratio w
                           (invert (to_dict (apply convLine group))) (a, b))).
    { unfold ratio_scores. rewrite nth_error_map, Hi. reflexivity. }
    split; [exact Hs |]. split; [exact (nth_error_In _ _ Hs) |].
    unfold ratio_score. simpl.
    destruct (Z.geb_spec (Py.len a) (Py.len b)); split; intros; try reflexivity; lia.
  - intros s Hs. apply Hmax in Hs. false_to_not.
    unfold ratio_lt, ratio_ranks_below in *. bool_to_Z. lia.
  - exists pre, post. split; [exact Hl |].
    intros s Hs. apply Hpre in Hs.
    unfold ratio_lt, ratio_ranks_below in *. bool_to_Z. lia.
Qed.

End Step7.

(** ** Where the reconciled value comes from *)

Lemma Forall2_In_r {A B : Type} (R : A -> B -> Prop) (l : list A) (l' : list B) (y : B) :
  Forall2 R l l' -> In y l' -> exists x, In x l /\ R x y.
Proof.
  induction 1 as [| x y' t t' Hxy _ IH]; simpl; [intros [] |].
  intros [<- | Hin].
  - exists x. auto.
  - destruct (IH Hin) as [x' [Hx' HR]]. exists x'. auto.
Qed.

Lemma filled_value_in_group (values : list string) (filled : list ExactScore.t)
    (s : ExactScore.t) :
  only_filled_values values = Ok filled ->
  In s filled ->
  In (ExactScore.value s) (filled_entries values).
Proof.
  intros Hf Hs.
  destruct (only_filled_values_groups values filled Hf)
    as [keys [ys [_ [_ [Hrep Hperm]]]]].
  apply (Permutation_in _ Hperm) in Hs.
  destruct (Forall2_In_r _ _ _ _ Hrep Hs) as [k [_ [_ [pre [post [Hg _]]]]]].
  assert (Hin : In (ExactScore.value s) (key_group k values))
    by (rewrite Hg; apply in_or_app; right; left; reflexivity).
  unfold key_group in Hin. apply filter_In in Hin. tauto.
Qed.

Lemma combinations2_In_members {A : Type} (l : list A) (a b : A) :
  In (a, b) (combinations2 l) -> In a l /\ In b l.
Proof.
  rewrite combinations2_In. intros [i [j [_ [Hi Hj]]]].
  split; eapply nth_error_In; eassumption.
Qed.

Section Provenance.

Variable partial_ratio : string -> string -> Z.
Variable token_set_ratio : string -> string -> Z.

(** X4: the value [reconcile] returns is never made up: it is the empty
    string, a normalized entry of the group, or a stripped filled entry of
    the group. *)
Theorem reconcile_value_from_group (group : Series) (args : Args) (e v : string) :
  reconcile partial_ratio token_set_ratio group args = Ok (e, v) ->
  v = ""
  \/ In v (values_of group)
  \/ In v (filled_entries (values_of group)).
Proof.
  intros H.
  destruct (trusted_user_weights args) as [w | err] eqn:Hw;
    [| unfold reconcile in H; rewrite Hw in H; discriminate].
  destruct (only_filled_values_ok (values_of group)) as [filled [Hf _]].
  rewrite (reconcile_unfold partial_ratio token_set_ratio group args w filled Hw Hf)
    in H.
  cbv zeta in H. destruct filled as [| f0 rest].
  - injection H as _ <-. left. reflexivity.
  - assert (H0 : In (ExactScore.value f0) (filled_entries (values_of group)))
      by (apply (filled_value_in_group _ _ f0 Hf); left; reflexivity).
    destruct ((ExactScore.count f0 >? 1)
              && (ExactScore.count f0 =? Z.of_nat (length (values_of group))));
      [injection H as _ <-; auto |].
    destruct (ExactScore.count f0 >? 1); [injection H as _ <-; auto |].
    destruct (Nat.eqb (length (f0 :: rest)) 1); [injection H as _ <-; auto |].
    unfold fuzzy_matches in H.
    destruct (top_partial_ratio partial_ratio group w) as [top | err] eqn:Ht;
      simpl in H; [| discriminate].
    destruct (FuzzyRatioScore.score top >=? fuzzy_ratio_threshold args).
    + injection H as _ <-. right. left.
      unfold top_partial_ratio in Ht.
      destruct (first_sorted_rev_spec ratio_lt ratio_lt_asym ratio_ge_trans _ _ Ht)
        as [pre [post [Hl _]]].
      assert (Hin : In top (ratio_scores partial_ratio group w))
        by (rewrite Hl; apply in_or_app; right; left; reflexivity).
      unfold ratio_scores in Hin. apply in_map_iff in Hin.
      destruct Hin as [[a b] [<- Hc]].
      unfold ratio_combos in Hc. rewrite values_of_apply in Hc.
      apply combinations2_In_members in Hc.
      unfold ratio_score. simpl. destruct (Py.len a >=? Py.len b); tauto.
    + destruct (top_token_set_ratio token_set_ratio (values_of group))
        as [top' | err] eqn:Ht'; simpl in H; [| discriminate].
      destruct (FuzzySetScore.score top' >=? fuzzy_set_threshold args);
        [| injection H as _ <-; left; reflexivity].
      injection H as _ <-. right. left.
      unfold top_token_set_ratio in Ht'.
      destruct (first_sorted_rev_spec set_lt set_lt_asym set_ge_trans _ _ Ht')
        as [pre [post [Hl _]]].
      assert (Hin : In top' (set_scores token_set_ratio (values_of group)))
        by (rewrite Hl; apply in_or_app; right; left; reflexivity).
      unfold set_scores in Hin. apply in_map_iff in Hin.
      destruct Hin as [[a b] [<- Hc]].
      apply combinations2_In_members in Hc.
      unfold set_score. simpl.
      destruct (_ >? _); [simpl; tauto |].
      destruct (_ <? _); [simpl; tauto |].
      simpl. destruct (Py.len a <=? Py.len b); tauto.
Qed.

(** X3: when the exact steps decide (no filled entry, a key-group of two
    or more entries, or a single key-group), the similarity measures, the
    thresholds and the weights play no part: any two configurations whose
    weights can be built and any two pairs of measures give the same
    result. *)
Theorem exact_steps_ignore_fuzzy_config (pr' tsr' : string -> string -> Z)
    (group : Series) (args args' : Args) (w w' : dict Z)
    (filled : list ExactScore.t) :
  only_filled_values (values_of group) = Ok filled ->
  reaches_fuzzy filled (Z.of_nat (length (values_of group))) = false ->
  trusted_user_weights args = Ok w ->
  trusted_user_weights args' = Ok w' ->
  reconcile partial_ratio token_set_ratio group args
  = reconcile pr' tsr' group args'.
Proof.
  intros Hf Hr Hw Hw'.
  rewrite (reconcile_unfold partial_ratio token_set_ratio group args w filled Hw Hf).
  rewrite (reconcile_unfold pr' tsr' group args' w' filled Hw' Hf).
  cbv zeta. destruct filled as [| f0 rest]; [reflexivity |].
  unfold reaches_fuzzy in Hr.
  destruct ((ExactScore.count f0 >? 1)
            && (ExactScore.count f0 =? Z.of_nat (length (values_of group))));
    [reflexivity |].
  destruct (ExactScore.count f0 >? 1); [reflexivity |].
  destruct (Nat.eqb (length (f0 :: rest)) 1); [reflexivity | discriminate].
Qed.

End Provenance.

(** ** When the fuzzy steps are reached *)

Lemma Forall2_In_l {A B : Type} (R : A -> B -> Prop) (l : list A) (l' : list B) (x : A) :
  Forall2 R l l' -> In x l -> exists y, In y l' /\ R x y.
Proof.
  induction 1 as [| x' y t t' Hxy _ IH]; simpl; [intros [] |].
  intros [<- | Hin].
  - exists y. auto.
  - destruct (IH Hin) as [y' [Hy' HR]]. exists y'. auto.
Qed.

Lemma filled_entry_in_key_group (values : list string) (v : string) :
  In v (filled_entries values) -> In v (key_group (squish v) values).
Proof.
  intros H. unfold key_group. apply filter_In. split; [exact H |].
  apply String.eqb_refl.
Qed.

Lemma key_group_member_key (values : list string) (k v : string) :
  In v (key_group k values) -> In v (filled_entries values) /\ squish v = k.
Proof.
  unfold key_group. intros H. apply filter_In in H. destruct H as [H1 H2].
  apply String.eqb_eq in H2. auto.
Qed.

Lemma reaches_fuzzy_spec (filled : list ExactScore.t) (count : Z) :
  reaches_fuzzy filled count = true <->
  (2 <= length filled)%nat /\ (forall s, hd_error filled = Some s -> ExactScore.count s <= 1).
Proof.
  destruct filled as [| f0 rest]; simpl.
  - split; [discriminate | intros [H _]; lia].
  - destruct (Z.gtb_spec (ExactScore.count f0) 1) as [Hgt | Hle]; simpl.
    + rewrite Bool.andb_false_r. split; [discriminate |].
      intros [_ H]. specialize (H f0 eq_refl). lia.
    + destruct rest as [| f1 rest']; simpl.
      * split; [discriminate | intros [H _]; lia].
      * split; [| reflexivity]. intros _. split; [lia |].
        intros s Hs. injection Hs as <-. exact Hle.
Qed.

(** X2: the fuzzy steps are reached exactly when no two filled entries
    share a comparison key and two filled entries have different keys. *)
Theorem fuzzy_steps_reached_iff (values : list string) (filled : list ExactScore.t)
    (count : Z) :
  only_filled_values values = Ok filled ->
  reaches_fuzzy filled count = true <->
  (forall k, (length (key_group k values) <= 1)%nat)
  /\ exists v1 v2,
       In v1 (filled_entries values) /\ In v2 (filled_entries values)
       /\ squish v1 <> squish v2.
Proof.
  intros Hf.
  destruct (only_filled_values_groups values filled Hf)
    as [keys [ys [Hnd [Hkeys [Hrep Hperm]]]]].
  destruct (only_filled_values_counts values filled Hf) as [Hsorted _].
  assert (Hlen : length filled = length keys).
  { rewrite (Permutation_length Hperm). symmetry.
    apply (Forall2_length Hrep). }
  rewrite reaches_fuzzy_spec. split.
  - intros [H2 Hhd]. split.
    + intros k. destruct (key_group k values) as [| v0 t] eqn:Ek; [simpl; lia |].
      assert (Hk : In k keys) by (apply Hkeys; rewrite Ek; discriminate).
      destruct (Forall2_In_l _ _ _ _ Hrep Hk) as [s [Hs [Hc _]]].
      apply (Permutation_in _ (Permutation_sym Hperm)) in Hs.
      rewrite Ek in Hc.
      destruct filled as [| f0 rest]; [contradiction |].
      specialize (Hhd f0 eq_refl).
      inversion Hsorted as [| ? ? _ Hall]; subst.
      rewrite Forall_forall in Hall.
      destruct Hs as [<- | Hs]; [| apply Hall in Hs]; simpl in *; lia.
    + destruct keys as [| k1 [| k2 keys']]; simpl in Hlen; try lia.
      assert (H1 : key_group k1 values <> []) by (apply Hkeys; left; reflexivity).
      assert (H2' : key_group k2 values <> [])
        by (apply Hkeys; right; left; reflexivity).
      destruct (key_group k1 values) as [| v1 t1] eqn:E1; [congruence |].
      destruct (key_group k2 values) as [| v2 t2] eqn:E2; [congruence |].
      destruct (key_group_member_key values k1 v1) as [Hv1 Hs1];
        [rewrite E1; left; reflexivity |].
      destruct (key_group_member_key values k2 v2) as [Hv2 Hs2];
        [rewrite E2; left; reflexivity |].
      exists v1, v2. split; [exact Hv1 |]. split; [exact Hv2 |].
      rewrite Hs1, Hs2. inversion Hnd as [| ? ? Hnot _]; subst.
      intros E. apply Hnot. left. symmetry. exact E.
  - intros [Hone [v1 [v2 [Hv1 [Hv2 Hne]]]]]. split.
    + rewrite Hlen.
      assert (Hk1 : In (squish v1) keys).
      { apply Hkeys. intros E.
        pose proof (filled_entry_in_key_group values v1 Hv1) as Hin.
        rewrite E in Hin. exact Hin. }
      assert (Hk2 : In (squish v2) keys).
      { apply Hkeys. intros E.
        pose proof (filled_entry_in_key_group values v2 Hv2) as Hin.
        rewrite E in Hin. exact Hin. }
      destruct keys as [| k1 [| k2 keys']]; simpl in *; [tauto | | lia].
      destruct Hk1 as [E1 | []]. destruct Hk2 as [E2 | []]. congruence.
    + intros s Hs.
      assert (Hin : In s filled) by (destruct filled; [discriminate | left; simpl in Hs; congruence]).
      apply (Permutation_in _ Hperm) in Hin.
      destruct (Forall2_In_r _ _ _ _ Hrep Hin) as [k [_ [Hc _]]].
      rewrite Hc. specialize (Hone k). lia.
Qed.

(** ** The command line *)

Lemma append_snoc (a : string) (c : ascii) (b : string) :
  ((a ++ String c "") ++ b)%string = (a ++ String c b)%string.
Proof.
  induction a as [| d a IH]; simpl; [reflexivity |]. rewrite IH. reflexivity.
Qed.

Lemma append_nil_r (a : string) : (a ++ "")%string = a.
Proof.
  induction a as [| d a IH]; simpl; [reflexivity |]. rewrite IH. reflexivity.
Qed.

Lemma has_char_append (c : ascii) (a b : string) :
  has_char c (a ++ b)%string = has_char c a || has_char c b.
Proof.
  induction a as [| d a IH]; simpl; [reflexivity |].
  rewrite IH, Bool.orb_assoc. reflexivity.
Qed.

(** [split] followed by [join] gives the string back, and no piece holds
    the separator. *)
Lemma split_on_from_join (sep : ascii) (cur s : string) :
  Py.join (String sep "") (Py.split_on_from sep cur s) = (cur ++ s)%string.
Proof.
  revert cur. induction s as [| c r IH]; intros cur; simpl.
  - rewrite append_nil_r. reflexivity.
  - destruct (Ascii.eqb_spec c sep) as [-> | Hne].
    + unfold Py.join in *. simpl.
      specialize (IH ""). simpl in IH.
      destruct (Py.split_on_from sep "" r) eqn:E.
      * destruct r; simpl in E; [discriminate |].
        destruct (Ascii.eqb a sep); discriminate.
      * rewrite IH. reflexivity.
    + rewrite IH, append_snoc. reflexivity.
Qed.

Lemma split_on_from_free (sep : ascii) (cur s : string) :
  has_char sep cur = false ->
  Forall (fun piece => has_char sep piece = false) (Py.split_on_from sep cur s).
Proof.
  revert cur. induction s as [| c r IH]; intros cur Hcur; simpl.
  - constructor; [exact Hcur | constructor].
  - destruct (Ascii.eqb_spec c sep) as [-> | Hne].
    + constructor; [exact Hcur | apply IH; reflexivity].
    + apply IH. rewrite has_char_append, Hcur. simpl.
      destruct (Ascii.eqb_spec c sep); [contradiction | reflexivity].
Qed.

Lemma split_on_from_no_sep (sep : ascii) (cur s : string) :
  has_char sep s = false -> Py.split_on_from sep cur s = [(cur ++ s)%string].
Proof.
  revert cur. induction s as [| c r IH]; intros cur; simpl.
  - rewrite append_nil_r. reflexivity.
  - destruct (Ascii.eqb c sep); simpl; [discriminate |].
    intros H. rewrite IH by exact H. rewrite append_snoc. reflexivity.
Qed.

Lemma split_on_from_at_sep (sep : ascii) (cur a b : string) :
  has_char sep a = false ->
  Py.split_on_from sep cur (a ++ String sep b)
  = (cur ++ a)%string :: Py.split_on_from sep "" b.
Proof.
  revert cur. induction a as [| c r IH]; intros cur; simpl.
  - rewrite Ascii.eqb_refl, append_nil_r. reflexivity.
  - destruct (Ascii.eqb c sep); simpl; [discriminate |].
    intros H. rewrite IH by exact H. rewrite append_snoc. reflexivity.
Qed.

(** X7: an item of [--user-weights] is accepted exactly when it is a key, a
    colon and an integer literal, with no other colon; anything else raises
    [ValueError]. *)
Theorem weight_item_format (i key : string) (n : Z) :
  weight_item i = Ok (key, n) <->
  exists value,
    i = (key ++ String ":" value)%string
    /\ has_char ":" key = false
    /\ has_char ":" value = false
    /\ Py.int value = Ok n.
Proof.
  unfold weight_item, Py.split_on. split.
  - intros H.
    pose proof (split_on_from_join ":" "" i) as Hj.
    pose proof (split_on_from_free ":" "" i eq_refl) as Hfree.
    destruct (Py.split_on_from ":" "" i) as [| k [| value [| x t]]];
      try discriminate.
    destruct (Py.int value) as [m | e] eqn:Hint; simpl in H; [| discriminate].
    injection H as -> ->.
    exists value. unfold Py.join in Hj. simpl in Hj.
    inversion Hfree as [| ? ? Hk Hrest]; subst.
    inversion Hrest as [| ? ? Hv _]; subst.
    repeat split; auto.
  - intros [value [-> [Hk [Hv Hint]]]].
    rewrite (split_on_from_at_sep ":" "" key value Hk).
    rewrite (split_on_from_no_sep ":" "" value Hv). simpl.
    rewrite Hint. reflexivity.
Qed.

Lemma weight_item_error (i : string) (e : exn) :
  weight_item i = Raise e -> e = ValueError.
Proof.
  unfold weight_item. destruct (Py.split_on ":" i) as [| k [| value [| x t]]];
    try (intros H; injection H as <-; reflexivity).
  unfold Py.int.
  destruct (match Py.int_strip value with
            | String "-" r => option_map Z.opp (Py.int_digits 0 false r)
            | String "+" r => Py.int_digits 0 false r
            | _ => Py.int_digits 0 false (Py.int_strip value)
            end); simpl; [discriminate |].
  intros H. injection H as <-. reflexivity.
Qed.

Lemma mapM_error {A B : Type} (f : A -> result B) (l : list A) (e : exn) :
  mapM f l = Raise e -> exists x, In x l /\ f x = Raise e.
Proof.
  induction l as [| x t IH]; simpl; [discriminate |].
  destruct (f x) as [y | e'] eqn:Ex; simpl.
  - destruct (mapM f t) as [ys | e'']; simpl; [discriminate |].
    intros H. injection H as <-. destruct (IH eq_refl) as [x' [Hin Hx']].
    exists x'. auto.
  - intros H. injection H as <-. exists x. auto.
Qed.

Lemma lower_char_idem (c : ascii) : Py.lower_char (Py.lower_char c) = Py.lower_char c.
Proof.
  destruct c as [[] [] [] [] [] [] [] []]; reflexivity.
Qed.

Lemma lower_idem (s : string) : Py.lower (Py.lower s) = Py.lower s.
Proof.
  induction s as [| c r IH]; simpl; [reflexivity |].
  rewrite lower_char_idem, IH. reflexivity.
Qed.

Lemma split_on_nonempty (sep : ascii) (s : string) : Py.split_on sep s <> [].
Proof.
  unfold Py.split_on. generalize "". induction s as [| c r IH]; intros cur; simpl.
  - discriminate.
  - destruct (Ascii.eqb c sep); [discriminate | apply IH].
Qed.

(** The outcomes of [parse_command_line]. *)
Lemma parse_command_line_cases (weights : string) (ratio set : Z) :
  (forall args, parse_command_line weights ratio set = Ok args ->
     fuzzy_ratio_threshold args = ratio /\ fuzzy_set_threshold args = set
     /\ 0 <= ratio <= 100 /\ 0 <= set <= 100
     /\ exists d, user_weights args = WDict d
                  /\ (forall k, In k (map fst d) -> Py.lower k = k)
                  /\ (d = [] <-> weights = ""))
  /\ (forall e, parse_command_line weights ratio set = Raise e ->
        (e = ValueError
         /\ exists i, In i (Py.split_on "," weights) /\ weight_item i = Raise ValueError)
        \/ (e = SystemExit /\ ~ (0 <= ratio <= 100 /\ 0 <= set <= 100))).
Proof.
  unfold parse_command_line.
  destruct (Py.is_empty weights) eqn:Hempty; simpl.
  - assert (Hw : weights = "") by (destruct weights; [reflexivity | discriminate]).
    split.
    + intros args.
      destruct (Z.ltb_spec ratio 0); destruct (Z.gtb_spec ratio 100);
        destruct (Z.ltb_spec set 0); destruct (Z.gtb_spec set 100);
        simpl; try discriminate.
      intros Hres. injection Hres as <-. simpl. repeat split; try lia.
      exists []. repeat split; auto. intros k [].
    + intros e.
      destruct (Z.ltb_spec ratio 0); destruct (Z.gtb_spec ratio 100);
        destruct (Z.ltb_spec set 0); destruct (Z.gtb_spec set 100);
        simpl; try discriminate; intros Hres; injection Hres as <-; right;
        (split; [reflexivity | lia]).
  - assert (Hw : weights <> "") by (intros ->; discriminate).
    destruct (mapM weight_item (Py.split_on "," weights)) as [items | e0] eqn:Hm;
      simpl.
    + split.
      * intros args.
        destruct (Z.ltb_spec ratio 0); destruct (Z.gtb_spec ratio 100);
          destruct (Z.ltb_spec set 0); destruct (Z.gtb_spec set 100);
          simpl; try discriminate.
        intros Hres. injection Hres as <-. simpl. repeat split; try lia.
        exists (dict_of_items (map lower_key items)). split; [reflexivity |]. split.
        -- intros k Hk. apply (proj1 (dict_of_items_keys _ _)) in Hk.
           rewrite map_map in Hk. apply in_map_iff in Hk.
           destruct Hk as [kv [<- _]]. simpl. apply lower_idem.
        -- split; [| contradiction]. intros Hd. exfalso.
           destruct (mapM_ok weight_item (Py.split_on "," weights)) as [ys [Hys Hlen]].
           { intros x Hx. apply mapM_Forall2 in Hm.
             destruct (Forall2_In_l _ _ _ _ Hm Hx) as [y [_ Hy]]. eauto. }
           rewrite Hm in Hys. injection Hys as <-.
           pose proof (split_on_nonempty "," weights) as Hne.
           destruct items as [| [k0 v0] t].
           ++ destruct (Py.split_on "," weights); [congruence | discriminate].
           ++ assert (Hin : In (Py.lower k0) (map fst (dict_of_items (map lower_key ((k0, v0) :: t)))))
                by (apply (proj2 (dict_of_items_keys _ _)); left; reflexivity).
              rewrite Hd in Hin. exact Hin.
      * intros e.
        destruct (Z.ltb_spec ratio 0); destruct (Z.gtb_spec ratio 100);
          destruct (Z.ltb_spec set 0); destruct (Z.gtb_spec set 100);
          simpl; try discriminate; intros Hres; injection Hres as <-; right;
          (split; [reflexivity | lia]).
    + split; [discriminate |].
      intros e H. injection H as <-. left.
      destruct (mapM_error weight_item _ e0 Hm) as [i [Hin Hi]].
      pose proof (weight_item_error i e0 Hi) as ->.
      split; [reflexivity |]. exists i. auto.
Qed.

(** X8: once [parser.parse_args()] has returned the options, the rest of
    [parse_command_line] (lines 142 to 158) either returns a configuration
    that has both thresholds as given and within 0..100 and holds the
    weights as a dictionary whose keys are lower case, empty exactly when
    [--user-weights] is empty, or raises [ValueError], for a malformed item
    of the weights, or [SystemExit], for a threshold out of range. *)
Theorem parse_command_line_result (weights : string) (ratio set : Z) :
  (forall args, parse_command_line weights ratio set = Ok args ->
     fuzzy_ratio_threshold args = ratio /\ fuzzy_set_threshold args = set
     /\ 0 <= ratio <= 100 /\ 0 <= set <= 100
     /\ exists d, user_weights args = WDict d
                  /\ (forall k, In k (map fst d) -> Py.lower k = k)
                  /\ (d = [] <-> weights = ""))
  /\ (forall e, parse_command_line weights ratio set = Raise e ->
        (e = ValueError
         /\ exists i, In i (Py.split_on "," weights) /\ weight_item i = Raise ValueError)
        \/ (e = SystemExit /\ ~ (0 <= ratio <= 100 /\ 0 <= set <= 100))).
Proof.
  exact (parse_command_line_cases weights ratio set).
Qed.


(** ** The explanations and the patterns of the summary *)

Lemma string_of_uint_digits (d : Decimal.uint) :
  all_digits (NilEmpty.string_of_uint d) = true.
Proof.
  induction d; simpl; auto.
Qed.

(** A count is printed as a non-empty string of digits. *)
Lemma str_of_int_digits (n : Z) :
  0 <= n ->
  exists c r, Py.str_of_int n = String c r
              /\ Py.isdigit c = true /\ all_digits r = true.
Proof.
  intros Hn. unfold Py.str_of_int. destruct n as [| p | p]; [| | lia].
  - exists "0"%char, "". repeat split.
  - simpl. pose proof (Unsigned.to_uint_nonnil p) as Hnil.
    pose proof (string_of_uint_digits (Pos.to_uint p)) as Hd.
    destruct (Pos.to_uint p); [congruence | ..]; simpl in *;
      eexists _, _; (split; [reflexivity |]); split; auto.
Qed.

Lemma digits_run (ds rest : string) :
  all_digits ds = true -> ds <> "" -> In rest (Re.digits (ds ++ rest)).
Proof.
  induction ds as [| c r IH]; [congruence |].
  simpl. intros H _. apply Bool.andb_true_iff in H. destruct H as [Hc Hr].
  rewrite Hc. apply in_or_app. destruct r as [| c' r'].
  - right. left. reflexivity.
  - left. apply IH; [exact Hr | discriminate].
Qed.

Lemma search_In (p : Re.pattern) (s r : string) : In r (p s) -> Re.search p s = true.
Proof.
  unfold Re.search. destruct (p s); [intros [] | reflexivity].
Qed.

Lemma seq_In (a b : Re.pattern) (s r r' : string) :
  In r (a s) -> In r' (b r) -> In r' (Re.seq a b s).
Proof.
  intros Ha Hb. unfold Re.seq. apply in_flat_map. exists r. auto.
Qed.

Lemma search_alt (a b : Re.pattern) (s : string) :
  Re.search (Re.alt a b) s = Re.search a s || Re.search b s.
Proof.
  unfold Re.search, Re.alt. destruct (a s); [destruct (b s) |]; reflexivity.
Qed.

Lemma all_blank_many (n : Z) :
  0 <= n -> (n =? 1) = false ->
  Re.search ALL_BLANK_PATTERN (reason_blank n) = true.
Proof.
  intros Hn H1. unfold reason_blank, P. rewrite H1.
  destruct (str_of_int_digits n Hn) as [c [r [Hs [Hc Hr]]]].
  apply search_In with (r := "s are blank").
  unfold ALL_BLANK_PATTERN.
  apply seq_In with (r := (" " ++ str n ++ " records are blank")%string);
    [left; reflexivity |].
  apply seq_In with (r := (str n ++ " records are blank")%string);
    [left; reflexivity |].
  apply seq_In with (r := " records are blank"); [| left; reflexivity].
  unfold str. apply digits_run; rewrite Hs; [| discriminate].
  simpl. rewrite Hc, Hr. reflexivity.
Qed.

Lemma classify_blank (n : Z) :
  0 <= n -> classify (reason_blank n) = [false; false; false; true; false; false].
Proof.
  intros Hn. destruct (n =? 1) eqn:H1.
  - apply Z.eqb_eq in H1. subst n. reflexivity.
  - unfold classify. rewrite (all_blank_many n Hn H1).
    unfold reason_blank, P. rewrite H1. reflexivity.
Qed.

Lemma classify_unanimous (c n : Z) :
  classify (reason_unanimous c n) = [false; false; false; false; false; false].
Proof. reflexivity. Qed.

Lemma classify_majority (c n b : Z) :
  classify (reason_majority c n b) = [false; false; false; false; false; false].
Proof. reflexivity. Qed.

Lemma classify_only (n : Z) :
  classify (reason_only n) = [false; false; false; false; true; false].
Proof. reflexivity. Qed.

Lemma classify_partial (n b s : Z) :
  classify (reason_partial n b s) = [false; false; true; false; false; false].
Proof. reflexivity. Qed.

Lemma classify_token_set (n b s : Z) :
  classify (reason_token_set n b s) = [false; false; true; false; false; false].
Proof. reflexivity. Qed.

Lemma classify_no_match (n b : Z) :
  classify (reason_no_match n b) = [true; false; false; false; false; false].
Proof. reflexivity. Qed.

Ltac use_template Hr Hcl :=
  rewrite Hr in Hcl;
  first [ rewrite classify_unanimous in Hcl | rewrite classify_majority in Hcl
        | rewrite classify_only in Hcl | rewrite classify_partial in Hcl
        | rewrite classify_token_set in Hcl | rewrite classify_no_match in Hcl
        | rewrite classify_blank in Hcl by lia ];
  discriminate Hcl.

Ltac other_template Hr Hcl :=
  exfalso;
  repeat match type of Hr with
  | exists _, _ => let x := fresh in destruct Hr as [x Hr]
  end;
  first [ use_template Hr Hcl
        | destruct Hr as [Hr | Hr];
          repeat match type of Hr with
          | exists _, _ => let x := fresh in destruct Hr as [x Hr]
          end;
          use_template Hr Hcl ].

Ltac class_iff Hcl :=
  split;
  [ intros Hs; first [ congruence | eauto 6 ]
  | intros Hr; first [ assumption | other_template Hr Hcl ] ].

Section Summary.

Variable partial_ratio : string -> string -> Z.
Variable token_set_ratio : string -> string -> Z.

(** The explanation of [reconcile] is one of seven, and each falls in one
    class of the patterns of summary.py. *)
Lemma explanation_cases (group : Series) (args : Args) (e v : string) :
  reconcile partial_ratio token_set_ratio group args = Ok (e, v) ->
  let n := Z.of_nat (length group) in
  (e = reason_blank n /\ classify e = [false; false; false; true; false; false])
  \/ ((exists c, e = reason_unanimous c n \/ exists b, e = reason_majority c n b)
      /\ classify e = [false; false; false; false; false; false])
  \/ (e = reason_only n /\ classify e = [false; false; false; false; true; false])
  \/ ((exists b s, e = reason_partial n b s \/ e = reason_token_set n b s)
      /\ classify e = [false; false; true; false; false; false])
  \/ ((exists b, e = reason_no_match n b)
      /\ classify e = [true; false; false; false; false; false]).
Proof.
  intros H. cbv zeta.
  destruct (trusted_user_weights args) as [w | err] eqn:Hw;
    [| unfold reconcile in H; rewrite Hw in H; discriminate].
  destruct (only_filled_values_ok (values_of group)) as [filled [Hf _]].
  rewrite (reconcile_unfold partial_ratio token_set_ratio group args w filled Hw Hf)
    in H.
  cbv zeta in H. rewrite values_of_length in H.
  destruct filled as [| f0 rest].
  - injection H as <- _. left. split; [reflexivity |].
    apply classify_blank. lia.
  - destruct ((ExactScore.count f0 >? 1)
              && (ExactScore.count f0 =? Z.of_nat (length group))).
    { injection H as <- _. right. left. split; [| reflexivity].
      exists (ExactScore.count f0). left. reflexivity. }
    destruct (ExactScore.count f0 >? 1).
    { injection H as <- _. right. left. split; [| reflexivity].
      exists (ExactScore.count f0). right. eexists. reflexivity. }
    destruct (Nat.eqb (length (f0 :: rest)) 1).
    { injection H as <- _. right. right. left. split; reflexivity. }
    unfold fuzzy_matches in H.
    destruct (top_partial_ratio partial_ratio group w) as [top | err];
      simpl in H; [| discriminate].
    destruct (FuzzyRatioScore.score top >=? fuzzy_ratio_threshold args).
    { injection H as <- _. right. right. right. left. split; [| reflexivity].
      eexists _, _. left. reflexivity. }
    destruct (top_token_set_ratio token_set_ratio (values_of group))
      as [top' | err]; simpl in H; [| discriminate].
    destruct (FuzzySetScore.score top' >=? fuzzy_set_threshold args).
    { injection H as <- _. right. right. right. left. split; [| reflexivity].
      eexists _, _. right. reflexivity. }
    injection H as <- _. right. right. right. right. split; [| reflexivity].
    eexists. reflexivity.
Qed.

(** X11: every explanation of the text strategy matches at most one of
    the patterns by which the summary counts and flags explanations:
    ALL_BLANK for an all-blank group, ONESIES for "Only 1 transcript",
    FUZZ_MATCH for the two fuzzy matches, NO_MATCH for "No text match", and
    none for the "Normalized unanimous" and "Normalized majority" matches;
    EXACT_MATCH and MMM match none of them. *)
Theorem explanation_classes (group : Series) (args : Args) (e v : string) :
  reconcile partial_ratio token_set_ratio group args = Ok (e, v) ->
  Re.search EXACT_MATCH_PATTERN e = false
  /\ Re.search MMM_PATTERN e = false
  /\ (Re.search ALL_BLANK_PATTERN e = true <->
      e = reason_blank (Z.of_nat (length group)))
  /\ (Re.search ONESIES_PATTERN e = true <->
      e = reason_only (Z.of_nat (length group)))
  /\ (Re.search FUZZ_MATCH_PATTERN e = true <->
      exists b s, e = reason_partial (Z.of_nat (length group)) b s
                  \/ e = reason_token_set (Z.of_nat (length group)) b s)
  /\ (Re.search NO_MATCH_PATTERN e = true <->
      exists b, e = reason_no_match (Z.of_nat (length group)) b)
  /\ (classify e = [false; false; false; false; false; false] <->
      exists c, e = reason_unanimous c (Z.of_nat (length group))
                \/ exists b, e = reason_majority c (Z.of_nat (length group)) b).
Proof.
  intros H. pose proof (explanation_cases group args e v H) as Hc.
  cbv zeta in Hc.
  destruct Hc as [[He Hcl] | [[He Hcl] | [[He Hcl] | [[He Hcl] | [He Hcl]]]]];
    repeat match type of He with
    | exists _, _ => let x := fresh in destruct He as [x He]
    | _ \/ _ => destruct He as [He | He]
    end;
    pose proof Hcl as Hb; unfold classify in Hb;
    injection Hb as Hb1 Hb2 Hb3 Hb4 Hb5 Hb6;
    (split; [exact Hb2 |]); (split; [exact Hb6 |]);
    (split; [class_iff Hcl |]); (split; [class_iff Hcl |]);
    (split; [class_iff Hcl |]); (split; [class_iff Hcl |]);
    class_iff Hcl.
Qed.

(** X12: [problems] flags an explanation of the text strategy exactly when
    it is "Only 1 transcript ..." or "No text match ...". *)
Theorem problem_iff_only_or_no_match (group : Series) (args : Args) (e v : string) :
  reconcile partial_ratio token_set_ratio group args = Ok (e, v) ->
  Re.search problem_pattern e = true <->
  e = reason_only (Z.of_nat (length group))
  \/ exists b, e = reason_no_match (Z.of_nat (length group)) b.
Proof.
  intros H. pose proof (explanation_cases group args e v H) as Hc.
  cbv zeta in Hc. unfold problem_pattern. rewrite search_alt.
  destruct Hc as [[He Hcl] | [[He Hcl] | [[He Hcl] | [[He Hcl] | [He Hcl]]]]];
    repeat match type of He with
    | exists _, _ => let x := fresh in destruct He as [x He]
    | _ \/ _ => destruct He as [He | He]
    end;
    pose proof Hcl as Hb; unfold classify in Hb;
    injection Hb as Hb1 Hb2 Hb3 Hb4 Hb5 Hb6; rewrite Hb1, Hb5; simpl;
    (split;
     [ intros Hs; first [ discriminate Hs | eauto ]
     | intros Hr; first [ reflexivity | other_template Hr Hcl ] ]).
Qed.

End Summary.

(** ** The problems of a row *)

Lemma row_problems_from (cols : list (string * string)) (start : Z) (acc : dict string)
    (col : string) :
  NoDup (map fst cols) ->
  let probs :=
    fold_left
      (fun probs item =>
         if Re.search problem_pattern (snd (snd item))
         then dict_set probs (fst (snd item)) (problem_id (fst item))
         else probs)
      (enumerate cols start) acc in
  (~ In col (map fst cols) -> dict_get probs col = dict_get acc col)
  /\ (forall i value, nth_error cols i = Some (col, value) ->
        dict_get probs col =
        if Re.search problem_pattern value
        then Some (problem_id (start + Z.of_nat i))
        else dict_get acc col).
Proof.
  revert start acc. induction cols as [| [c0 v0] t IH]; intros start acc Hnd; cbv zeta.
  - split; [reflexivity |]. intros i value Hi. destruct i; discriminate.
  - inversion Hnd as [| ? ? Hnot Hrest]; subst. cbn [enumerate fold_left fst snd].
    set (acc' := if Re.search problem_pattern v0
                 then dict_set acc c0 (problem_id start) else acc).
    destruct (IH (start + 1) acc' Hrest) as [IH1 IH2]. split.
    + intros Hcol. simpl in Hcol. rewrite IH1 by tauto.
      unfold acc'. destruct (Re.search problem_pattern v0); [| reflexivity].
      rewrite dict_get_set. destruct (String.eqb_spec c0 col); [tauto | reflexivity].
    + intros [| i] value Hi; simpl in Hi.
      * injection Hi as -> ->. rewrite IH1 by exact Hnot.
        unfold acc'. rewrite Z.add_0_r.
        destruct (Re.search problem_pattern value); [| reflexivity].
        rewrite dict_get_set, String.eqb_refl. reflexivity.
      * rewrite (IH2 i value Hi).
        replace (start + 1 + Z.of_nat i) with (start + Z.of_nat (S i)) by lia.
        destruct (Re.search problem_pattern value); [reflexivity |].
        unfold acc'. destruct (Re.search problem_pattern v0); [| reflexivity].
        rewrite dict_get_set. destruct (String.eqb_spec c0 col) as [-> | Hne];
          [| reflexivity].
        exfalso. apply Hnot. apply nth_error_In in Hi.
        apply (in_map fst) in Hi. exact Hi.
Qed.

(** X13: in a row with distinct column names, [problems] gives a column
    the identifier "problem-i" of its position i, counted from 1, when its
    explanation matches NO_MATCH_PATTERN or ONESIES_PATTERN, and no entry
    otherwise; a name that is no column of the row has no entry. *)
Theorem row_problems_flags (cols : list (string * string)) (col : string) :
  NoDup (map fst cols) ->
  (~ In col (map fst cols) -> dict_get (row_problems cols) col = None)
  /\ (forall i value, nth_error cols i = Some (col, value) ->
        dict_get (row_problems cols) col =
        if Re.search problem_pattern value
        then Some (problem_id (Z.of_nat i + 1))
        else None).
Proof.
  intros Hnd. destruct (row_problems_from cols 1 [] col Hnd) as [H1 H2].
  split; [exact H1 |]. intros i value Hi. unfold row_problems.
  rewrite (H2 i value Hi). rewrite Z.add_comm. reflexivity.
Qed.

(** ** The summary of a column *)

Lemma count_contains_cons (p : Re.pattern) (e : string) (values : list string) :
  count_contains p (e :: values)
  = (if Re.search p e then 1 else 0) + count_contains p values.
Proof.
  unfold count_contains. cbn [filter]. destruct (Re.search p e);
    cbn [length]; rewrite ?Nat2Z.inj_succ; lia.
Qed.

(** X14: for a text column whose explanations all come from the text
    strategy, the summary counts no exact match and no mean-mode-range
    line, and every row is counted once: as all blank, as a single
    transcript, as a fuzzy match, as no match, or, for the "Normalized
    unanimous" and "Normalized majority" explanations, in no count at all. *)
Theorem how_reconciled_text (col : string) (values : list string) :
  (forall e, In e values -> from_text_strategy e) ->
  let h := how_reconciled col "text" values in
  HowReconciled.num_exact_match h = 0
  /\ HowReconciled.num_mmm h = ""
  /\ HowReconciled.num_fuzzy_match h
     = format_thousands (count_contains FUZZ_MATCH_PATTERN values)
  /\ HowReconciled.num_reconciled h + HowReconciled.num_no_match h
     = Z.of_nat (length values)
  /\ HowReconciled.num_all_blank h + HowReconciled.num_onesies h
     + count_contains FUZZ_MATCH_PATTERN values + HowReconciled.num_no_match h
     + Z.of_nat (length (filter unmatched values))
     = Z.of_nat (length values).
Proof.
  intros Hall. cbv zeta. unfold how_reconciled. cbn [HowReconciled.num_exact_match
    HowReconciled.num_mmm HowReconciled.num_fuzzy_match HowReconciled.num_reconciled
    HowReconciled.num_no_match HowReconciled.num_all_blank HowReconciled.num_onesies
    String.eqb Ascii.eqb Bool.eqb].
  split; [| split; [reflexivity | split; [reflexivity | split; [lia |]]]].
  - induction values as [| e t IH]; [reflexivity |].
    rewrite count_contains_cons, IH by (intros e' He'; apply Hall; right; exact He').
    destruct (Hall e (or_introl eq_refl)) as [pr [tsr [group [args [v Hr]]]]].
    pose proof (explanation_cases pr tsr group args e v Hr) as Hc. cbv zeta in Hc.
    assert (Hx : Re.search EXACT_MATCH_PATTERN e = false).
    { unfold classify in Hc.
      destruct Hc as [[_ Hb] | [[_ Hb] | [[_ Hb] | [[_ Hb] | [_ Hb]]]]];
        injection Hb as _ Hb _ _ _ _; exact Hb. }
    rewrite Hx. reflexivity.
  - induction values as [| e t IH]; [reflexivity |].
    rewrite !count_contains_cons. cbn [filter length].
    specialize (IH (fun e' He' => Hall e' (or_intror He'))).
    destruct (Hall e (or_introl eq_refl)) as [pr [tsr [group [args [v Hr]]]]].
    pose proof (explanation_cases pr tsr group args e v Hr) as Hc. cbv zeta in Hc.
    assert (Hbits : classify e = [false; false; false; true; false; false]
                    \/ classify e = [false; false; false; false; false; false]
                    \/ classify e = [false; false; false; false; true; false]
                    \/ classify e = [false; false; true; false; false; false]
                    \/ classify e = [true; false; false; false; false; false])
      by tauto.
    clear Hc. unfold unmatched in *.
    destruct Hbits as [Hb | [Hb | [Hb | [Hb | Hb]]]]; rewrite Hb;
      unfold classify in Hb; injection Hb as -> _ -> -> -> _;
      cbn [forallb negb andb length]; rewrite ?Nat2Z.inj_succ; lia.
Qed.

(** ** The order of the columns *)

Lemma filter_perm {A : Type} (f : A -> bool) (l l' : list A) :
  Permutation l l' -> Permutation (filter f l) (filter f l').
Proof.
  induction 1 as [| x l l' _ IH | x y l | l l' l'' _ IH1 _ IH2]; simpl.
  - constructor.
  - destruct (f x); [constructor |]; exact IH.
  - destruct (f x); destruct (f y); try reflexivity. apply perm_swap.
  - etransitivity; eassumption.
Qed.

Lemma filter_sorted {A : Type} (R : A -> A -> Prop) (f : A -> bool) (l : list A) :
  StronglySorted R l -> StronglySorted R (filter f l).
Proof.
  induction 1 as [| a l Hs IH Ha]; simpl; [constructor |].
  destruct (f a); [| exact IH]. constructor; [exact IH |].
  rewrite Forall_forall in *. intros b Hb. apply filter_In in Hb. apply Ha. tauto.
Qed.

(** X15: [order_column_names] returns the names of the column types whose
    name is a column of the data frame, each as often as it occurs, by
    increasing order. *)
Theorem order_column_names_sorted (columns : list string)
    (column_types : dict ColumnType.t) :
  exists vs,
    order_column_names columns column_types = map ColumnType.name vs
    /\ StronglySorted (fun a b => ColumnType.order a <= ColumnType.order b) vs
    /\ Permutation vs
         (filter (fun v => mem (ColumnType.name v) columns) (map snd column_types))
    /\ (forall nm, In nm (order_column_names columns column_types) -> In nm columns).
Proof.
  set (f := fun v => mem (ColumnType.name v) columns).
  exists (filter f (sorted_asc order_lt (map snd column_types))).
  split; [reflexivity |]. split; [| split].
  - apply filter_sorted.
    apply (StronglySorted_weaken (fun a b => order_lt b a = false)).
    + intros a b Hab. unfold order_lt in Hab. apply Z.ltb_ge in Hab. exact Hab.
    + unfold sorted_asc. apply (sorted_rev_sorted (fun x y => order_lt y x)).
      * intros x y. unfold order_lt. rewrite Z.ltb_lt, Z.ltb_ge. lia.
      * intros x y z. unfold order_lt. rewrite !Z.ltb_ge. lia.
  - apply filter_perm. unfold sorted_asc. apply sorted_rev_perm.
  - intros nm Hnm. unfold order_column_names in Hnm. apply in_map_iff in Hnm.
    destruct Hnm as [v [<- Hv]]. apply filter_In in Hv. destruct Hv as [_ Hm].
    unfold mem in Hm. apply existsb_exists in Hm. destruct Hm as [x [Hx Heq]].
    apply String.eqb_eq in Heq. subst x. exact Hx.
Qed.

(** ** Validation of the columns *)

Lemma mem_In (x : string) (l : list string) : mem x l = true <-> In x l.
Proof.
  unfold mem. rewrite existsb_exists. split.
  - intros [y [Hy Heq]]. apply String.eqb_eq in Heq. subst y. exact Hy.
  - intros H. exists x. split; [exact H | apply String.eqb_refl].
Qed.

Lemma has_errors_fold (column_types : dict ColumnType.t) (columns types : list string)
    (acc : bool) :
  fold_left
    (fun has_errors item =>
       let has_errors :=
         if negb (mem (fst item) columns) then true else has_errors in
       if negb (mem (ColumnType.type (snd item)) types) then true else has_errors)
    column_types acc
  = acc || existsb (fun item => negb (mem (fst item) columns)
                                || negb (mem (ColumnType.type (snd item)) types))
             column_types.
Proof.
  revert acc. induction column_types as [| item t IH]; intros acc; simpl.
  - rewrite Bool.orb_false_r. reflexivity.
  - rewrite IH. destruct (mem (fst item) columns);
      destruct (mem (ColumnType.type (snd item)) types); destruct acc; reflexivity.
Qed.

(** X16: [validate_columns] returns exactly when every column of
    [column_types] is a header of the data and has a type that is a plug-in,
    and the group-by and key columns are headers; in every other case it
    exits. *)
Theorem validate_columns_ok_iff (group_by key_column : string)
    (column_types : dict ColumnType.t) (columns types : list string) :
  (validate_columns group_by key_column column_types columns types = Ok tt
   \/ validate_columns group_by key_column column_types columns types
      = Raise SystemExit)
  /\ (validate_columns group_by key_column column_types columns types = Ok tt <->
      (forall column v, In (column, v) column_types ->
         In column columns /\ In (ColumnType.type v) types)
      /\ In group_by columns /\ In key_column columns).
Proof.
  unfold validate_columns. rewrite has_errors_fold. simpl.
  set (bad := existsb _ column_types).
  assert (Hbad : bad = false <->
                 forall column v, In (column, v) column_types ->
                   In column columns /\ In (ColumnType.type v) types).
  { unfold bad. rewrite <- Bool.not_true_iff_false, existsb_exists. split.
    - intros H column v Hin. rewrite <- !mem_In.
      destruct (mem column columns) eqn:E1;
        destruct (mem (ColumnType.type v) types) eqn:E2; auto;
        exfalso; apply H; exists (column, v); simpl; rewrite E1, E2; auto.
    - intros H [[column v] [Hin Hb]]. destruct (H column v Hin) as [H1 H2].
      apply mem_In in H1. apply mem_In in H2. simpl in Hb.
      rewrite H1, H2 in Hb. discriminate. }
  rewrite <- Hbad, <- !mem_In.
  destruct bad; destruct (mem group_by columns); destruct (mem key_column columns);
    simpl; split; auto; split; try discriminate; intuition discriminate.
Qed.

(** ** Fresh task labels *)

Lemma append_cancel_l (a b c : string) : (a ++ b)%string = (a ++ c)%string -> b = c.
Proof.
  induction a as [| x a IH]; simpl; [auto |]. intros H. injection H as H. auto.
Qed.

Lemma append_length (a b : string) :
  String.length (a ++ b)%string = (String.length a + String.length b)%nat.
Proof.
  induction a as [| x a IH]; simpl; [reflexivity |]. rewrite IH. reflexivity.
Qed.

Lemma to_int_not_nil (z : Z) :
  Z.to_int z <> Decimal.Pos Decimal.Nil /\ Z.to_int z <> Decimal.Neg Decimal.Nil.
Proof.
  destruct z as [| p | p]; simpl; split; try discriminate;
    intros H; injection H as H; exact (Unsigned.to_uint_nonnil p H).
Qed.

(** Printing an integer loses nothing. *)
Lemma str_of_int_inj (a b : Z) : Py.str_of_int a = Py.str_of_int b -> a = b.
Proof.
  unfold Py.str_of_int. intros H.
  destruct (to_int_not_nil a) as [Ha1 Ha2]. destruct (to_int_not_nil b) as [Hb1 Hb2].
  pose proof (NilZero.isi (Z.to_int a) Ha1 Ha2) as Ia.
  pose proof (NilZero.isi (Z.to_int b) Hb1 Hb2) as Ib.
  rewrite H in Ia. rewrite Ia in Ib. injection Ib as Hab.
  rewrite <- (DecimalZ.of_to a), <- (DecimalZ.of_to b), Hab. reflexivity.
Qed.

Lemma candidate_inj (base : string) (i j : Z) :
  candidate base i = candidate base j -> i = j.
Proof.
  unfold candidate.
  destruct (Z.eqb_spec i 1) as [-> | Hi]; destruct (Z.eqb_spec j 1) as [-> | Hj];
    intros H; try reflexivity.
  - apply (f_equal String.length) in H. rewrite append_length in H. simpl in H. lia.
  - apply (f_equal String.length) in H. rewrite append_length in H. simpl in H. lia.
  - apply append_cancel_l in H. simpl in H. injection H as H.
    apply str_of_int_inj. exact H.
Qed.

Lemma key_loop_spec (fuel : nat) (tasks : list string) (base : string) (i : Z) :
  1 <= i ->
  match key_loop fuel tasks base i (candidate base i) with
  | Some k =>
      exists j, i <= j <= i + Z.of_nat fuel
                /\ k = candidate base j
                /\ mem k tasks = false
                /\ forall m, i <= m < j -> mem (candidate base m) tasks = true
  | None => forall m, i <= m <= i + Z.of_nat fuel -> mem (candidate base m) tasks = true
  end.
Proof.
  revert i. induction fuel as [| fuel IH]; intros i Hi; cbn [key_loop].
  - destruct (mem (candidate base i) tasks) eqn:E.
    + intros m Hm. replace m with i by lia. exact E.
    + exists i. split; [lia |]. split; [reflexivity |]. split; [exact E |].
      intros m Hm. lia.
  - destruct (mem (candidate base i) tasks) eqn:E.
    + assert (Hc : (base ++ " #" ++ Py.str_of_int (i + 1))%string
                   = candidate base (i + 1)).
      { unfold candidate. destruct (Z.eqb_spec (i + 1) 1); [lia | reflexivity]. }
      rewrite Hc. specialize (IH (i + 1) ltac:(lia)).
      destruct (key_loop fuel tasks base (i + 1) (candidate base (i + 1))) as [k |].
      * destruct IH as [j [Hj [Hk [Hm Hall]]]]. exists j.
        split; [lia |]. split; [exact Hk |]. split; [exact Hm |].
        intros m Hm'. destruct (Z.eq_dec m i) as [-> | Hne]; [exact E |].
        apply Hall. lia.
      * intros m Hm. destruct (Z.eq_dec m i) as [-> | Hne]; [exact E |].
        apply IH. lia.
    + exists i. split; [lia |]. split; [reflexivity |]. split; [exact E |].
      intros m Hm. lia.
Qed.

(** X18: [_key] ends within [len(tasks)] rounds of its loop and returns a
    label that is not yet a task: the stripped label itself when it is
    free, else the first free one of "label #2", "label #3", ...; more
    rounds allowed change nothing. *)
Theorem key_is_fresh (tasks : list string) (label : string) (fuel : nat) :
  (length tasks <= fuel)%nat ->
  exists k j,
    _key fuel tasks label = Some k
    /\ 1 <= j <= Z.of_nat (length tasks) + 1
    /\ k = candidate (Py.strip label) j
    /\ ~ In k tasks
    /\ forall m, 1 <= m < j -> In (candidate (Py.strip label) m) tasks.
Proof.
  intros Hfuel. unfold _key.
  set (base := Py.strip label).
  assert (Hpigeon : forall n, (forall m, 1 <= m <= 1 + Z.of_nat n ->
                                 mem (candidate base m) tasks = true) ->
                              (n < length tasks)%nat).
  { intros n Hall.
    set (cs := map (fun x => candidate base (1 + Z.of_nat x)) (seq 0 (S n))).
    assert (Hnd : NoDup cs).
    { apply Injective_map_NoDup; [| apply seq_NoDup].
      intros x y Hxy. apply candidate_inj in Hxy. lia. }
    assert (Hincl : incl cs tasks).
    { intros c Hc. apply in_map_iff in Hc. destruct Hc as [x [<- Hx]].
      apply in_seq in Hx. apply mem_In. apply Hall. lia. }
    pose proof (NoDup_incl_length Hnd Hincl) as Hlen.
    unfold cs in Hlen. rewrite length_map, length_seq in Hlen. lia. }
  pose proof (key_loop_spec fuel tasks base 1 ltac:(lia)) as Hspec.
  change (candidate base 1) with base in Hspec.
  destruct (key_loop fuel tasks base 1 base) as [k |].
  - destruct Hspec as [j [Hj [Hk [Hm Hall]]]]. exists k, j.
    split; [reflexivity |].
    assert (Hjn : (Z.to_nat (j - 2) < length tasks)%nat \/ j = 1).
    { destruct (Z.eq_dec j 1) as [-> | Hne]; [right; reflexivity | left].
      apply Hpigeon. intros m Hm'. apply Hall. lia. }
    split; [lia |]. split; [exact Hk |]. split.
    + rewrite <- mem_In. rewrite Hm. discriminate.
    + intros m Hm'. apply mem_In. apply Hall. lia.
  - exfalso. specialize (Hpigeon fuel Hspec). lia.
Qed.

(** ** Column types from the command line *)

Lemma foldM_items (options : list string) (items : list (string * string))
    (state : dict ColumnType.t * Z) :
  mapM column_item options = Ok items ->
  foldM add_column_type options state = Ok (fold_left add_item items state).
Proof.
  revert items state. induction options as [| o t IH]; intros items state; simpl.
  - intros H. injection H as <-. reflexivity.
  - unfold add_column_type at 1.
    destruct (column_item o) as [item | e]; simpl; [| discriminate].
    destruct (mapM column_item t) as [items' | e]; simpl; [| discriminate].
    intros H. injection H as <-. simpl.
    replace (match dict_get (fst state) (fst item) with
             | Some v => Ok (dict_set (fst state) (fst item)
                               (ColumnType.mk (snd item) (ColumnType.order v) (fst item)),
                             snd state)
             | None => Ok (dict_set (fst state) (fst item)
                             (ColumnType.mk (snd item) (snd state + 1) (fst item)),
                           snd state + 1)
             end) with (Ok (add_item state item))
      by (unfold add_item; destruct (dict_get (fst state) (fst item)); reflexivity).
    simpl. apply IH. reflexivity.
Qed.

Lemma foldM_error (options : list string) (state : dict ColumnType.t * Z) (e : exn) :
  foldM add_column_type options state = Raise e ->
  e = ValueError
  /\ exists option, In option options /\ column_item option = Raise ValueError.
Proof.
  revert state. induction options as [| o t IH]; intros state; simpl; [discriminate |].
  unfold add_column_type at 1.
  destruct (column_item o) as [item | e'] eqn:Eo; simpl.
  - destruct (dict_get (fst state) (fst item)); simpl; intros H;
      destruct (IH _ H) as [-> [o' [Hin Ho']]]; split; auto; exists o'; auto.
  - intros H. injection H as <-.
    assert (e' = ValueError).
    { unfold column_item in Eo.
      destruct (Py.split_on ":" o) as [| a [| b [| c l]]]; congruence. }
    subst e'. split; [reflexivity |]. exists o. auto.
Qed.

Lemma last_type_cons (name : string) (item : string * string)
    (items : list (string * string)) :
  last_type name (item :: items) =
  match last_type name items with
  | Some ty => Some ty
  | None => if String.eqb (fst item) name then Some (snd item) else None
  end.
Proof.
  unfold last_type. simpl. rewrite find_app. simpl.
  destruct (find _ (rev items)); [reflexivity |].
  destruct (String.eqb (fst item) name); reflexivity.
Qed.

Lemma dict_set_keys_ext {V : Type} (d : dict V) (k : string) (v : V) :
  exists extra, map fst (dict_set d k v) = map fst d ++ extra.
Proof.
  induction d as [| [k0 v0] t IH]; simpl.
  - exists [k]. reflexivity.
  - destruct (String.eqb k0 k); simpl.
    + exists []. rewrite app_nil_r. reflexivity.
    + destruct IH as [extra ->]. exists extra. reflexivity.
Qed.

(** What a run of well-formed options does to [column_types] and [last]. *)
Lemma add_items_spec (items : list (string * string)) (cts0 : dict ColumnType.t)
    (last0 : Z) :
  let cts := fst (fold_left add_item items (cts0, last0)) in
  let last := snd (fold_left add_item items (cts0, last0)) in
  last0 <= last <= last0 + Z.of_nat (length items)
  /\ (exists extra, map fst cts = map fst cts0 ++ extra)
  /\ (forall name, last_type name items = None ->
        dict_get cts name = dict_get cts0 name)
  /\ (forall name ty, last_type name items = Some ty ->
        exists order,
          dict_get cts name = Some (ColumnType.mk ty order name)
          /\ (forall v, dict_get cts0 name = Some v -> order = ColumnType.order v)
          /\ (dict_get cts0 name = None -> last0 < order <= last))
  /\ (forall n1 n2 v1 v2,
        n1 <> n2 ->
        dict_get cts0 n1 = None -> dict_get cts0 n2 = None ->
        dict_get cts n1 = Some v1 -> dict_get cts n2 = Some v2 ->
        ColumnType.order v1 <> ColumnType.order v2).
Proof.
  revert cts0 last0. induction items as [| [n1 t1] rest IH]; intros cts0 last0;
    cbv zeta.
  - simpl. split; [lia |]. split; [exists []; rewrite app_nil_r; reflexivity |].
    split; [reflexivity |]. split; [discriminate |].
    intros n1 n2 v1 v2 _ H1 _ H1'. congruence.
  - cbn [fold_left].
    set (state1 := add_item (cts0, last0) (n1, t1)).
    set (cts1 := fst state1). set (last1 := snd state1).
    assert (Hstate : state1 = (cts1, last1)) by (destruct state1; reflexivity).
    assert (H1 : exists o1,
               cts1 = dict_set cts0 n1 (ColumnType.mk t1 o1 n1)
               /\ last0 <= last1 <= last0 + 1
               /\ (forall v, dict_get cts0 n1 = Some v ->
                     o1 = ColumnType.order v /\ last1 = last0)
               /\ (dict_get cts0 n1 = None -> o1 = last0 + 1 /\ last1 = last0 + 1)).
    { unfold cts1, last1, state1, add_item. simpl.
      destruct (dict_get cts0 n1) as [v |]; simpl; eexists; split; try reflexivity;
        split; try lia; split; try discriminate; auto.
      intros v' Hv'. injection Hv' as <-. auto. }
    destruct H1 as [o1 [Hcts1 [Hlast1 [Hold Hnew]]]].
    rewrite Hstate. specialize (IH cts1 last1). cbv zeta in IH.
    set (cts := fst (fold_left add_item rest (cts1, last1))) in *.
    set (last := snd (fold_left add_item rest (cts1, last1))) in *.
    destruct IH as [Hl [[extra Hk] [Hnone [Hsome Hdist]]]].
    assert (Hget1 : forall name, dict_get cts1 name
                      = if String.eqb n1 name
                        then Some (ColumnType.mk t1 o1 n1) else dict_get cts0 name)
      by (intros name; rewrite Hcts1; apply dict_get_set).
    split; [cbn [length]; rewrite Nat2Z.inj_succ; lia |].
    split.
    { destruct (dict_set_keys_ext cts0 n1 (ColumnType.mk t1 o1 n1)) as [ex1 Hex1].
      exists (ex1 ++ extra). rewrite Hk, Hcts1, Hex1, app_assoc. reflexivity. }
    split.
    { intros name Hn. rewrite last_type_cons in Hn. simpl in Hn.
      destruct (last_type name rest) eqn:El; [discriminate |].
      destruct (String.eqb_spec n1 name) as [-> | Hne]; [discriminate |].
      rewrite (Hnone name El), Hget1.
      destruct (String.eqb_spec n1 name); [contradiction | reflexivity]. }
    split.
    { intros name ty Hn. rewrite last_type_cons in Hn. simpl in Hn.
      destruct (last_type name rest) as [ty' |] eqn:El.
      - injection Hn as ->.
        destruct (Hsome name ty El) as [o [Hg [Hex Hfresh]]].
        exists o. split; [exact Hg |]. rewrite Hget1 in Hex, Hfresh.
        destruct (String.eqb_spec n1 name) as [-> | Hne].
        + specialize (Hex _ eq_refl). simpl in Hex. subst o. split.
          * intros v Hv. apply Hold. exact Hv.
          * intros Hv. destruct (Hnew Hv) as [-> ->]. lia.
        + split; [exact Hex |]. intros Hv. specialize (Hfresh Hv). lia.
      - destruct (String.eqb_spec n1 name) as [-> | Hne]; [| discriminate].
        injection Hn as ->. exists o1. rewrite (Hnone name El), Hget1.
        rewrite String.eqb_refl. split; [reflexivity |]. split.
        + intros v Hv. apply Hold. exact Hv.
        + intros Hv. destruct (Hnew Hv) as [-> ->]. lia. }
    assert (Hkeep : forall name v, dict_get cts1 name = Some v ->
                      exists v', dict_get cts name = Some v'
                                 /\ ColumnType.order v' = ColumnType.order v).
    { intros name v Hv. destruct (last_type name rest) as [ty |] eqn:El.
      - destruct (Hsome name ty El) as [o [Hg [Hex _]]].
        exists (ColumnType.mk ty o name). split; [exact Hg |].
        simpl. apply Hex. exact Hv.
      - exists v. rewrite (Hnone name El). auto. }
    assert (Hfresh : forall name v, dict_get cts1 name = None ->
                       dict_get cts name = Some v ->
                       last1 < ColumnType.order v <= last).
    { intros name v Hv Hg. destruct (last_type name rest) as [ty |] eqn:El.
      - destruct (Hsome name ty El) as [o [Hg' [_ Hf]]].
        rewrite Hg in Hg'. injection Hg' as ->. simpl. apply Hf. exact Hv.
      - rewrite (Hnone name El) in Hg. congruence. }
    intros a b v1 v2 Hab Ha Hb Hga Hgb.
    pose proof (Hget1 a) as Ga. pose proof (Hget1 b) as Gb.
    destruct (String.eqb_spec n1 a) as [Ea | Hna];
      destruct (String.eqb_spec n1 b) as [Eb | Hnb]; try congruence.
    + subst a. destruct (Hnew Ha) as [Ho1 Hl1].
      destruct (Hkeep n1 _ Ga) as [v' [Hv' Ho]]. rewrite Hga in Hv'.
      injection Hv' as <-. simpl in Ho.
      rewrite Hb in Gb. pose proof (Hfresh b v2 Gb Hgb). lia.
    + subst b. destruct (Hnew Hb) as [Ho1 Hl1].
      destruct (Hkeep n1 _ Gb) as [v' [Hv' Ho]]. rewrite Hgb in Hv'.
      injection Hv' as <-. simpl in Ho.
      rewrite Ha in Ga. pose proof (Hfresh a v1 Ga Hga). lia.
    + rewrite Ha in Ga. rewrite Hb in Gb. apply (Hdist a b); assumption.
Qed.

(** X17: [get_column_types] raises [ValueError] when an option is not
    "name:type" and nothing else.  Otherwise a column that no option names
    is left as it is; a column that an option names gets the type last
    given for it and its own name, keeps its order if it was there, and
    else gets an order above [last]; two new columns get different orders;
    and the columns that were there keep their places. *)
Theorem get_column_types_spec (arg_column_types : list string) (last : Z)
    (column_types : dict ColumnType.t) :
  (forall e, get_column_types arg_column_types last column_types = Raise e ->
     e = ValueError
     /\ exists option,
          In option (flat_map (Py.split_on ",") arg_column_types)
          /\ column_item option = Raise ValueError)
  /\ (forall items, column_items arg_column_types = Ok items ->
        exists result,
          get_column_types arg_column_types last column_types = Ok result
          /\ (exists extra, map fst result = map fst column_types ++ extra)
          /\ (forall name, last_type name items = None ->
                dict_get result name = dict_get column_types name)
          /\ (forall name ty, last_type name items = Some ty ->
                exists order,
                  dict_get result name = Some (ColumnType.mk ty order name)
                  /\ (forall v, dict_get column_types name = Some v ->
                        order = ColumnType.order v)
                  /\ (dict_get column_types name = None ->
                        last < order <= last + Z.of_nat (length items)))
          /\ (forall n1 n2 v1 v2,
                n1 <> n2 ->
                dict_get column_types n1 = None -> dict_get column_types n2 = None ->
                dict_get result n1 = Some v1 -> dict_get result n2 = Some v2 ->
                ColumnType.order v1 <> ColumnType.order v2)).
Proof.
  unfold get_column_types, column_items. split.
  - intros e H.
    destruct (foldM add_column_type (flat_map (Py.split_on ",") arg_column_types)
                (column_types, last)) as [st | e'] eqn:Ef; simpl in H; [discriminate |].
    injection H as <-. apply (foldM_error _ _ _ Ef).
  - intros items Hitems. rewrite (foldM_items _ items _ Hitems). simpl.
    eexists. split; [reflexivity |].
    destruct (add_items_spec items column_types last)
      as [Hl [Hk [Hnone [Hsome Hdist]]]].
    split; [exact Hk |]. split; [exact Hnone |]. split; [| exact Hdist].
    intros name ty Hn. destruct (Hsome name ty Hn) as [o [Hg [Hex Hf]]].
    exists o. split; [exact Hg |]. split; [exact Hex |].
    intros Hv. specialize (Hf Hv). lia.
Qed.

(** ** The strategy after the command line *)

(** X1: [only_filled_values] returns one score per key-group of the filled
    entries: the keys with a member are distinct, each score holds the size
    of its group and its first longest member; the scores come by
    decreasing count, every count is at least 1, and the counts add up to
    the number of filled entries, so that [blanks] in [reconcile] is the
    number of blank entries. *)
Theorem only_filled_values_spec (values : list string) (filled : list ExactScore.t) :
  only_filled_values values = Ok filled ->
  (exists keys only_filled,
     NoDup keys
     /\ (forall k, In k keys <-> key_group k values <> [])
     /\ Forall2 (represents values) keys only_filled
     /\ Permutation filled only_filled)
  /\ StronglySorted (fun a b => ExactScore.count b <= ExactScore.count a) filled
  /\ Forall (fun s => 1 <= ExactScore.count s) filled
  /\ sumZ (map ExactScore.count filled) = Z.of_nat (length (filled_entries values))
  /\ Z.of_nat (length values) - sumZ (map ExactScore.count filled)
     = Z.of_nat (length (filter (fun v => negb (is_filled v)) values)).
Proof.
  intros H. split.
  - apply only_filled_values_groups. exact H.
  - apply only_filled_values_counts. exact H.
Qed.

Section AfterParse.

Variable partial_ratio : string -> string -> Z.
Variable token_set_ratio : string -> string -> Z.

(** X9: with a configuration that [parse_command_line] returns,
    [reconcile] returns a pair when [--user-weights] is empty and raises
    [AttributeError] on every group when it is not. *)
Theorem reconcile_after_parse (weights : string) (ratio set : Z) (args : Args)
    (group : Series) :
  parse_command_line weights ratio set = Ok args ->
  (weights = "" ->
   exists e v, reconcile partial_ratio token_set_ratio group args = Ok (e, v))
  /\ (weights <> "" ->
      reconcile partial_ratio token_set_ratio group args = Raise AttributeError).
Proof.
  intros Hp.
  destruct (parse_command_line_cases weights ratio set) as [Hok _].
  destruct (Hok args Hp) as [_ [_ [_ [_ [d [Hd [_ Hempty]]]]]]].
  split.
  - intros Hw. apply (reconcile_ok partial_ratio token_set_ratio group args []).
    unfold trusted_user_weights. rewrite Hd.
    rewrite (proj2 Hempty Hw). reflexivity.
  - intros Hw. destruct d as [| [k x] d'].
    + exfalso. apply Hw. apply Hempty. reflexivity.
    + apply (reconcile_raises_on_dict _ _ _ _ k x d'). exact Hd.
Qed.

End AfterParse.

(** X10: of several weights given for one user the last one counts:
    [parse_command_line] stores it under the lower-cased name, whatever the
    case of the names given, and the dictionary that [reconcile] builds from
    a string stores it under the name as written. *)
Theorem weights_last_item_wins (weights : string) (ratio set : Z)
    (items : list (string * Z)) (k : string) :
  weights <> "" ->
  mapM weight_item (Py.split_on "," weights) = Ok items ->
  (forall args, parse_command_line weights ratio set = Ok args ->
     exists d, user_weights args = WDict d
               /\ dict_get d k
                  = option_map snd
                      (find (fun kv => String.eqb (Py.lower (fst kv)) k) (rev items)))
  /\ exists w, trusted_user_weights (mkArgs (WStr weights) ratio set) = Ok w
               /\ dict_get w k
                  = option_map snd (find (fun kv => String.eqb (fst kv) k) (rev items)).
Proof.
  intros Hne Hitems. assert (He : Py.is_empty weights = false)
    by (destruct weights; [congruence | reflexivity]).
  split.
  - intros args. unfold parse_command_line. rewrite He, Hitems. simpl.
    destruct ((ratio <? 0) || (ratio >? 100)); [discriminate |].
    destruct ((set <? 0) || (set >? 100)); [discriminate |].
    intros H. injection H as <-. simpl. eexists. split; [reflexivity |].
    rewrite dict_get_of_items, <- map_rev, find_map. simpl.
    destruct (find _ (rev items)); reflexivity.
  - unfold trusted_user_weights. simpl. rewrite He, Hitems. simpl.
    eexists. split; [reflexivity |]. apply dict_get_of_items.
Qed.

(** ** Reading back a printed integer *)

Lemma int_digits_uint (d : Decimal.uint) (acc : Z) (after_digit : bool) :
  d <> Decimal.Nil \/ after_digit = true ->
  Py.int_digits acc after_digit (NilEmpty.string_of_uint d) = Some (uint_val d acc).
Proof.
  revert acc after_digit.
  induction d as [| l IH | l IH | l IH | l IH | l IH | l IH | l IH | l IH | l IH | l IH];
    intros acc after_digit H;
    try (cbn [NilEmpty.string_of_uint Py.int_digits uint_val];
         match goal with
         | |- context [Py.isdigit ?c] =>
             replace (Py.isdigit c) with true by reflexivity
         end;
         cbv iota; rewrite IH by (right; reflexivity);
         match goal with
         | |- context [Py.digit_val ?c] =>
             let v := eval vm_compute in (Py.digit_val c) in
             change (Py.digit_val c) with v
         end;
         rewrite ?Z.add_0_r; reflexivity).
  simpl. destruct H as [H | ->]; [congruence | reflexivity].
Qed.

Lemma uint_val_acc (d : Decimal.uint) (p : positive) :
  Z.pos (Pos.of_uint_acc d p) = uint_val d (Z.pos p).
Proof.
  revert p. induction d; intros p; cbn [Pos.of_uint_acc uint_val];
    try reflexivity; rewrite IHd; f_equal; lia.
Qed.

Lemma uint_val_of_uint (d : Decimal.uint) : Z.of_N (Pos.of_uint d) = uint_val d 0.
Proof.
  induction d; cbn [Pos.of_uint uint_val]; try reflexivity; try exact IHd;
    cbn [Z.of_N]; rewrite uint_val_acc; reflexivity.
Qed.

Lemma uint_val_to_uint (p : positive) : uint_val (Pos.to_uint p) 0 = Z.pos p.
Proof.
  rewrite <- uint_val_of_uint, Unsigned.of_to. reflexivity.
Qed.

Lemma string_of_uint_no_space (d : Decimal.uint) :
  no_space (NilEmpty.string_of_uint d) = true.
Proof.
  induction d; simpl; auto.
Qed.

Lemma int_rstrip_no_space (s : string) : no_space s = true -> Py.int_rstrip s = s.
Proof.
  induction s as [| c r IH]; simpl; [reflexivity |].
  intros H. apply Bool.andb_true_iff in H. destruct H as [Hc Hr].
  rewrite (IH Hr). unfold Py.is_int_space.
  destruct (Py.isspace c); [discriminate | reflexivity].
Qed.

Lemma int_strip_no_space (s : string) : no_space s = true -> Py.int_strip s = s.
Proof.
  intros H. unfold Py.int_strip.
  assert (Hl : Py.int_lstrip s = s).
  { destruct s as [| c r]; [reflexivity |]. simpl in *. unfold Py.is_int_space.
    destruct (Py.isspace c); [discriminate | reflexivity]. }
  rewrite Hl. apply int_rstrip_no_space. exact H.
Qed.

Lemma int_positive (p : positive) :
  Py.int (NilEmpty.string_of_uint (Pos.to_uint p)) = Ok (Z.pos p).
Proof.
  unfold Py.int. rewrite (int_strip_no_space _ (string_of_uint_no_space _)).
  pose proof (Unsigned.to_uint_nonnil p) as Hnil.
  pose proof (int_digits_uint (Pos.to_uint p) 0 false (or_introl Hnil)) as Hd.
  rewrite uint_val_to_uint in Hd.
  destruct (Pos.to_uint p) eqn:E; [congruence | ..];
    cbn [NilEmpty.string_of_uint] in *; rewrite Hd; reflexivity.
Qed.

(** [int(str(n))] is [n]. *)
Lemma int_of_str (n : Z) : Py.int (Py.str_of_int n) = Ok n.
Proof.
  unfold Py.str_of_int. destruct n as [| p | p]; simpl.
  - reflexivity.
  - pose proof (Unsigned.to_uint_nonnil p) as Hnil.
    rewrite <- (int_positive p).
    destruct (Pos.to_uint p); [congruence | ..]; reflexivity.
  - pose proof (Unsigned.to_uint_nonnil p) as Hnil.
    assert (Hs : NilZero.string_of_uint (Pos.to_uint p)
                 = NilEmpty.string_of_uint (Pos.to_uint p))
      by (destruct (Pos.to_uint p); [congruence | ..]; reflexivity).
    rewrite Hs. unfold Py.int.
    rewrite int_strip_no_space
      by (simpl; apply string_of_uint_no_space).
    rewrite (int_digits_uint (Pos.to_uint p) 0 false (or_introl Hnil)).
    rewrite uint_val_to_uint. reflexivity.
Qed.

Lemma str_of_int_no_char (c : ascii) (n : Z) :
  Py.isdigit c = false -> c <> "-"%char -> has_char c (Py.str_of_int n) = false.
Proof.
  intros Hc Hm.
  assert (Hk : forall k, Py.isdigit k = true -> Ascii.eqb k c = false).
  { intros k Hk. destruct (Ascii.eqb_spec k c) as [-> | _]; [congruence | reflexivity]. }
  assert (Hd : forall d, has_char c (NilEmpty.string_of_uint d) = false).
  { induction d; cbn [NilEmpty.string_of_uint has_char]; try reflexivity;
      rewrite IHd, Bool.orb_false_r; apply Hk; reflexivity. }
  assert (Hz : forall d, has_char c (NilZero.string_of_uint d) = false).
  { intros d. destruct d; try apply Hd. cbn [NilZero.string_of_uint has_char].
    rewrite Bool.orb_false_r. apply Hk. reflexivity. }
  unfold Py.str_of_int. destruct n as [| p | p];
    cbn [Z.to_int NilZero.string_of_int has_char].
  - apply (Hz (Decimal.D0 Decimal.Nil)).
  - apply Hz.
  - rewrite Hz, Bool.orb_false_r.
    destruct (Ascii.eqb_spec "-" c) as [<- | _]; [congruence | reflexivity].
Qed.

(** X19: the subject id that [read] takes from the column subject_ids is
    the integer before the first semicolon: a printed integer, alone or
    followed by a semicolon and anything, is read back; the only exception
    raised is [ValueError]. *)
Theorem subject_id_reads_first (n : Z) (rest : string) :
  subject_id (Py.str_of_int n) = Ok n
  /\ subject_id (Py.str_of_int n ++ String ";" rest) = Ok n
  /\ forall x e, subject_id x = Raise e -> e = ValueError.
Proof.
  assert (Hfree : has_char ";" (Py.str_of_int n) = false)
    by (apply str_of_int_no_char; [reflexivity | discriminate]).
  unfold subject_id, Py.split_on. split; [| split].
  - rewrite (split_on_from_no_sep ";" "" _ Hfree). simpl. apply int_of_str.
  - rewrite (split_on_from_at_sep ";" "" _ rest Hfree). simpl. apply int_of_str.
  - intros x e. pose proof (split_on_nonempty ";" x) as Hne.
    unfold Py.split_on in Hne.
    destruct (Py.split_on_from ";" "" x) as [| piece t]; [congruence |].
    simpl. unfold Py.int.
    destruct (match Py.int_strip piece with
              | String "-" r => option_map Z.opp (Py.int_digits 0 false r)
              | String "+" r => Py.int_digits 0 false r
              | _ => Py.int_digits 0 false (Py.int_strip piece)
              end); [discriminate |].
    intros H. injection H as <-. reflexivity.
Qed.

(** ** The names of the subject columns *)

Lemma sub_nonword_underscore_word (in_run : bool) (s : string) :
  all_word (sub_nonword_underscore in_run s) = true.
Proof.
  revert in_run. induction s as [| c r IH]; intros in_run; simpl; [reflexivity |].
  destruct (Py.isword c) eqn:E; simpl.
  - rewrite E. apply IH.
  - destruct in_run; simpl; apply IH.
Qed.

Lemma drop_underscores_cons (c : ascii) (r : string) :
  drop_underscores (String c r)
  = if Ascii.eqb c "_" then drop_underscores r else String c r.
Proof.
  destruct c as [[] [] [] [] [] [] [] []]; reflexivity.
Qed.

Lemma drop_underscores_word (s : string) :
  all_word s = true -> all_word (drop_underscores s) = true.
Proof.
  induction s as [| c r IH]; [reflexivity |]. intros H.
  rewrite drop_underscores_cons. destruct (Ascii.eqb c "_"); [| exact H].
  simpl in H. apply Bool.andb_true_iff in H. apply IH. tauto.
Qed.

Lemma drop_underscores_head (s r : string) : drop_underscores s <> String "_" r.
Proof.
  induction s as [| c s IH]; [discriminate |].
  rewrite drop_underscores_cons.
  destruct (Ascii.eqb_spec c "_") as [-> | Hne]; [exact IH |].
  intros H. injection H as H _. contradiction.
Qed.

Lemma drop_last_underscore_word (s : string) :
  all_word s = true -> all_word (drop_last_underscore s) = true.
Proof.
  induction s as [| c r IH]; [reflexivity |]. intros H. simpl in H.
  apply Bool.andb_true_iff in H. destruct H as [Hc Hr]. simpl.
  destruct (Ascii.eqb c "_" && (String.eqb r "" || String.eqb r nl));
    [exact Hr |]. simpl. rewrite Hc. apply IH. exact Hr.
Qed.

Lemma drop_last_underscore_head (s r : string) :
  all_word s = true ->
  (forall r', s <> String "_" r') -> drop_last_underscore s <> String "_" r.
Proof.
  destruct s as [| c s']; [discriminate |]. intros Hw Hs. simpl.
  destruct (Ascii.eqb_spec c "_") as [-> | Hne]; [exfalso; apply (Hs s'); reflexivity |].
  simpl. intros H. injection H as H _. contradiction.
Qed.

(** X20: the name [extract_subject_data] gives a column starts with
    "subject_" and goes on with word characters only, the first of which is
    no underscore. *)
Theorem subject_column_is_word (c : string) :
  exists body,
    subject_column c = (SUBJECT_PREFIX ++ body)%string
    /\ all_word body = true
    /\ forall r, body <> String "_" r.
Proof.
  exists (trim_underscores (sub_nonword_underscore false c)).
  split; [reflexivity |]. unfold trim_underscores.
  pose proof (sub_nonword_underscore_word false c) as Hw.
  split.
  - apply drop_last_underscore_word, drop_underscores_word, Hw.
  - intros r. apply drop_last_underscore_head.
    + apply drop_underscores_word, Hw.
    + intros r'. apply drop_underscores_head.
Qed.

(** ** Concrete runs, continued *)

Lemma only_filled_values_spec_witness :
  sumZ (map ExactScore.count [ExactScore.mk "ohio." 3])
  = Z.of_nat (length (filled_entries (values_of ohio))).
Proof.
  exact (proj1 (proj2 (proj2 (proj2
           (only_filled_values_spec (values_of ohio) [ExactScore.mk "ohio." 3]
              eq_refl))))).
Defined.

Lemma fuzzy_steps_reached_iff_witness :
  reaches_fuzzy [ExactScore.mk "New York City" 1; ExactScore.mk "New York" 1] 2 = true
  <-> (forall k, (length (key_group k (values_of two_cities)) <= 1)%nat)
      /\ exists v1 v2,
           In v1 (filled_entries (values_of two_cities))
           /\ In v2 (filled_entries (values_of two_cities))
           /\ squish v1 <> squish v2.
Proof.
  exact (fuzzy_steps_reached_iff (values_of two_cities)
           [ExactScore.mk "New York City" 1; ExactScore.mk "New York" 1] 2 eq_refl).
Defined.

Lemma exact_steps_ignore_fuzzy_config_witness :
  reconcile (const_ratio 0) (const_ratio 0) ohio default_args
  = reconcile (const_ratio 100) (const_ratio 100) ohio (mkArgs (WStr "u1:50") 10 10).
Proof.
  exact (exact_steps_ignore_fuzzy_config (const_ratio 0) (const_ratio 0)
           (const_ratio 100) (const_ratio 100) ohio default_args
           (mkArgs (WStr "u1:50") 10 10) [] [("u1", 50)]
           [ExactScore.mk "ohio." 3] eq_refl eq_refl eq_refl eq_refl).
Defined.

Lemma reconcile_value_from_group_witness :
  "New York City" = ""
  \/ In "New York City" (values_of new_york)
  \/ In "New York City" (filled_entries (values_of new_york)).
Proof.
  exact (reconcile_value_from_group (const_ratio 95) (const_ratio 0) new_york
           default_args
           "Partial ratio match on 3 records with 1 blank, score=95"
           "New York City" eq_refl).
Defined.

Lemma top_partial_ratio_winner_witness :
  exists pre post,
    ratio_scores (const_ratio 90) two_cities []
    = pre ++ FuzzyRatioScore.mk 90 "New York City" :: post
    /\ forall s, In s pre ->
         ratio_ranks_below s (FuzzyRatioScore.mk 90 "New York City")
         /\ ~ ratio_ranks_below (FuzzyRatioScore.mk 90 "New York City") s.
Proof.
  exact (proj2 (proj2 (top_partial_ratio_winner (const_ratio 90) two_cities []
                         (FuzzyRatioScore.mk 90 "New York City") eq_refl))).
Defined.

Lemma two_cities_users : NoDup (map fst two_cities).
Proof.
  constructor; [| constructor; [| constructor]].
  - intros [H | []]. discriminate H.
  - intros [].
Defined.

Lemma userAttribution_last_writer_witness :
  dict_get (invert (to_dict (apply convLine two_cities))) "New York"
  = last_writer "New York" two_cities.
Proof.
  exact (proj1 (userAttribution_last_writer two_cities [] "New York" two_cities_users)).
Defined.

Lemma reconcile_after_parse_witness :
  reconcile (const_ratio 0) (const_ratio 0) ohio (mkArgs (WDict [("asmith", 10)]) 90 50)
  = Raise AttributeError.
Proof.
  refine (proj2 (reconcile_after_parse (const_ratio 0) (const_ratio 0)
                   "aSmith:10" 90 50 (mkArgs (WDict [("asmith", 10)]) 90 50) ohio
                   eq_refl) _).
  discriminate.
Defined.

Lemma weights_last_item_wins_witness :
  exists d,
    user_weights (mkArgs (WDict [("asmith", -5)]) 90 50) = WDict d
    /\ dict_get d "asmith"
       = option_map snd
           (find (fun kv => String.eqb (Py.lower (fst kv)) "asmith")
              (rev [("aSmith", 10); ("ASMITH", -5)])).
Proof.
  refine (proj1 (weights_last_item_wins "aSmith:10,ASMITH:-5" 90 50
                   [("aSmith", 10); ("ASMITH", -5)] "asmith" _ eq_refl)
            (mkArgs (WDict [("asmith", -5)]) 90 50) eq_refl).
  discriminate.
Defined.

Lemma explanation_classes_witness :
  Re.search EXACT_MATCH_PATTERN "Normalized unanimous match, 3 of 3 records" = false.
Proof.
  exact (proj1 (explanation_classes (const_ratio 0) (const_ratio 0) ohio default_args
                  "Normalized unanimous match, 3 of 3 records" "ohio." eq_refl)).
Defined.

Lemma problem_iff_only_or_no_match_witness :
  Re.search problem_pattern "No text match on 3 records with 1 blank" = true
  <-> "No text match on 3 records with 1 blank"
      = reason_only (Z.of_nat (length new_york))
      \/ exists b, "No text match on 3 records with 1 blank"
                   = reason_no_match (Z.of_nat (length new_york)) b.
Proof.
  exact (problem_iff_only_or_no_match (const_ratio 0) (const_ratio 0) new_york
           default_args "No text match on 3 records with 1 blank" "" eq_refl).
Defined.

Lemma sample_row_columns : NoDup (map fst sample_row).
Proof.
  constructor; [| constructor; [| constructor]].
  - intros [H | []]. discriminate H.
  - intros [].
Defined.

Lemma row_problems_flags_witness :
  dict_get (row_problems sample_row) "State"
  = if Re.search problem_pattern "Only 1 transcript in 3 records"
    then Some (problem_id (Z.of_nat 1 + 1))
    else None.
Proof.
  exact (proj2 (row_problems_flags sample_row "State" sample_row_columns)
           1%nat "Only 1 transcript in 3 records" eq_refl).
Defined.

Lemma sample_explanations :
  forall e, In e ["All 2 records are blank"; "Normalized unanimous match, 3 of 3 records"] ->
            from_text_strategy e.
Proof.
  intros e [<- | [<- | []]].
  - exists (const_ratio 0), (const_ratio 0), [("u1", ""); ("u2", "  ")], default_args, "".
    reflexivity.
  - exists (const_ratio 0), (const_ratio 0), ohio, default_args, "ohio.".
    reflexivity.
Defined.

Lemma how_reconciled_text_witness :
  HowReconciled.num_exact_match
    (how_reconciled "Country" "text"
       ["All 2 records are blank"; "Normalized unanimous match, 3 of 3 records"]) = 0.
Proof.
  exact (proj1 (how_reconciled_text "Country"
                  ["All 2 records are blank";
                   "Normalized unanimous match, 3 of 3 records"]
                  sample_explanations)).
Defined.

Lemma key_is_fresh_witness :
  exists k j,
    _key 2 ["Country"; "Country #2"] " Country " = Some k
    /\ 1 <= j <= Z.of_nat (length ["Country"; "Country #2"]) + 1
    /\ k = candidate (Py.strip " Country ") j
    /\ ~ In k ["Country"; "Country #2"]
    /\ forall m, 1 <= m < j ->
         In (candidate (Py.strip " Country ") m) ["Country"; "Country #2"].
Proof.
  exact (key_is_fresh ["Country"; "Country #2"] " Country " 2 (le_n 2)).
Defined.

Example key_third_label :
  _key 2 ["Country"; "Country #2"] " Country " = Some "Country #3".
Proof. reflexivity. Qed.

Example get_column_types_run :
  get_column_types ["Country:select, Notes : text"] 4
    [("Country", ColumnType.mk "text" 2 "Country")]
  = Ok [("Country", ColumnType.mk "select" 2 "Country");
        ("Notes", ColumnType.mk "text" 5 "Notes")].
Proof. reflexivity. Qed.

Example subject_column_run :
  subject_column " Catalog No. (old)" = "subject_Catalog_No_old".
Proof. reflexivity. Qed.
